(** * StillCaster: prompt assembly, voice selection and session playback

    A shallow embedding of the guided-meditation application:
    - [JS]: the fragments of the JavaScript runtime the code relies on
      (number helpers, string search and global replace, exceptions,
      property lookup through the prototype chain);
    - [PromptTemplateManager]: template loading with its fallback,
      placeholder substitution and the narration word budget;
    - [VoiceSynthesis]: the voice table, the synthesis request, the
      synthesis of a whole script and the factory choosing between the
      provider and the browser fallback;
    - [FallbackVoiceSynthesis]: the browser-speech fallback and its choice
      of a voice;
    - [TestWpmRoute]: the route that measures the speed of a voice;
    - [SessionPlayer]: the session player component, with its phase, its
      audio elements, its timers and the closures React hands to them.

    Conventions of the embedding.
    - Where the code computes with fractions (the word budget, the sum of
      the clip durations, the minutes on the page) a JavaScript number is a
      binary64 double ([float], with the rounding of every operation, the
      infinities and NaN).  The two counters of the player hold whole
      seconds and are integers ([Z]); volumes and playback positions are
      exact rationals ([Q]): the code stores and compares them, and the fade
      scales a volume by a fifth of the remaining whole seconds.
    - A JavaScript string is a [string] of bytes (UTF-8).  Every pattern the
      code searches for is ASCII, so matching on bytes and matching on
      UTF-16 code units find the same occurrences. *)

From Stdlib Require Import Floats ZArith QArith Qround Bool String Ascii List Lia Lqa
  DecimalString DecimalZ DecimalPos.
From stdpp Require Import gmap strings.
Import ListNotations.

Local Open Scope Z_scope.

(** A decimal literal in [float_scope] denotes the nearest double, as a
    numeric literal does in JavaScript. *)
Set Warnings "-inexact-float".

(* ===================================================================== *)
(** * The JavaScript runtime fragments *)
(* ===================================================================== *)

Module JS.

(** ** Numbers *)

(** [Math.floor] on the exact quotient of two whole numbers. *)
Definition Math_floor (x : Q) : Z := Qfloor x.

(** [Number.prototype.toString] on a whole number: decimal digits with a
    leading minus sign for negatives.  (From 10^21 on the runtime prints a
    number in exponent notation; such numbers are outside this function.) *)
Definition toString (n : Z) : string := NilZero.string_of_int (Z.to_int n).

(** ** Doubles

    The numbers of the runtime are binary64 doubles.  [+], [-], [*], [/] and
    the comparisons are those of [float]; the functions of [Math] are
    defined on the sign, mantissa and exponent of their argument. *)

Module Double.

(** A whole number as a double (the nearest one, ties to even). *)
Definition of_Z (n : Z) : float := SF2Prim (binary_normalize prec emax n 0 false).

(** [Math.floor]: a double with a non-negative exponent, a zero, an
    infinity and NaN are returned as they are. *)
Definition Math_floor (x : float) : float :=
  match Prim2SF x with
  | S754_finite s m e =>
      if e <? 0 then of_Z ((if s then Z.neg m else Z.pos m) / 2 ^ (- e)) else x
  | _ => x
  end.

(** [Math.ceil]: the ceiling of [x] is minus the floor of [-x], signed
    zeros included ([Math.ceil(-0.5)] is [-0]). *)
Definition Math_ceil (x : float) : float := (- Math_floor (- x))%float.

(** [Math.max] of two numbers: NaN when either is NaN, and [+0] counts as
    larger than [-0]. *)
Definition Math_max (a b : float) : float :=
  if is_nan a || is_nan b then nan
  else if (a <? b)%float then b
  else if (b <? a)%float then a
  else if get_sign a then b else a.

(** The whole number a double holds.  It serves for doubles that hold one
    (the result of [Math.ceil] on a finite double); on the other finite
    doubles it rounds down, and it is 0 on the infinities and NaN. *)
Definition to_Z (x : float) : Z :=
  match Prim2SF x with
  | S754_finite s m e =>
      let n := if s then Z.neg m else Z.pos m in
      if e <? 0 then n / 2 ^ (- e) else n * 2 ^ e
  | _ => 0
  end.

(** The exact value of a finite double (0 on the infinities and NaN). *)
Definition to_Q (x : float) : Q :=
  match Prim2SF x with
  | S754_finite s m e =>
      let n := if s then Z.neg m else Z.pos m in
      if e <? 0 then Qred (n # Z.to_pos (2 ^ (- e))) else inject_Z (n * 2 ^ e)
  | _ => 0%Q
  end.

End Double.

(** ** Exceptions *)

Inductive Exc (A : Type) : Type :=
| Ok (a : A)
| Throw (e : string).
Arguments Ok {A} a.
Arguments Throw {A} e.

Definition bind {A B : Type} (m : Exc A) (k : A -> Exc B) : Exc B :=
  match m with
  | Ok a => k a
  | Throw e => Throw e
  end.

(** [try { body } catch (error) { handler }] *)
Definition try_catch {A : Type} (body : Exc A) (handler : string -> Exc A) : Exc A :=
  match body with
  | Ok a => Ok a
  | Throw e => handler e
  end.

(** ** Strings *)

(** A string is falsy exactly when it is empty. *)
Definition truthy (s : string) : bool :=
  match s with
  | EmptyString => false
  | String _ _ => true
  end.

(** [a || b] on strings. *)
Definition or_else (a b : string) : string := if truthy a then a else b.

(** [a || b] where either side may be [undefined]. *)
Definition or_undefined (a b : option string) : option string :=
  match a with
  | Some s => if truthy s then a else b
  | None => b
  end.

Definition truthy_opt (a : option string) : bool :=
  match a with
  | Some s => truthy s
  | None => false
  end.

Fixpoint string_drop (n : nat) (s : string) : string :=
  match n, s with
  | O, _ => s
  | S k, EmptyString => EmptyString
  | S k, String _ s' => string_drop k s'
  end.

(** [s.indexOf(pat)]: index of the first occurrence, or -1. *)
Definition indexOf (s pat : string) : Z :=
  match String.index 0 pat s with
  | Some n => Z.of_nat n
  | None => -1
  end.

(** [s.substring(a, b)]: both indices are clamped to the string and
    swapped when they come in the wrong order. *)
Definition substring (s : string) (a b : Z) : string :=
  let len := Z.of_nat (String.length s) in
  let a' := Z.max 0 (Z.min a len) in
  let b' := Z.max 0 (Z.min b len) in
  let lo := Z.min a' b' in
  let hi := Z.max a' b' in
  String.substring (Z.to_nat lo) (Z.to_nat (hi - lo)) s.

(** The ASCII white space that [trim] removes (tab, line feed, vertical
    tab, form feed, carriage return, space).  The non-ASCII white space of
    the standard is not recognised by this byte-level model. *)
Definition is_white_space (c : ascii) : bool :=
  let n := nat_of_ascii c in
  ((9 <=? n)%nat && (n <=? 13)%nat) || (n =? 32)%nat.

Fixpoint trimStart (s : string) : string :=
  match s with
  | EmptyString => EmptyString
  | String c s' => if is_white_space c then trimStart s' else s
  end.

Fixpoint trimEnd (s : string) : string :=
  match s with
  | EmptyString => EmptyString
  | String c s' =>
      let t := trimEnd s' in
      if is_white_space c && negb (truthy t) then EmptyString else String c t
  end.

Definition trim (s : string) : string := trimEnd (trimStart s).

(** ** Global replace of a literal pattern

    [s.replace(/pat/g, replacement)] for a regular expression that matches
    the literal, non-empty text [pat] and has no capture group.  The
    replacement is a string, so the runtime expands its dollar patterns at
    every match ([GetSubstitution]): [$$] is a dollar sign, [$&] the matched
    text, [$`] the part of the subject before the match and [$'] the part
    after it.  With no capture group [$1], [$<name>] and a dollar sign
    before any other character stay as they are. *)

Fixpoint getSubstitution (matched before after replacement : string) : string :=
  match replacement with
  | EmptyString => EmptyString
  | String c rest =>
      if Ascii.eqb c "$" then
        match rest with
        | String d rest' =>
            if Ascii.eqb d "$" then
              String "$" (getSubstitution matched before after rest')
            else if Ascii.eqb d "&" then
              matched +:+ getSubstitution matched before after rest'
            else if Ascii.eqb d "`" then
              before +:+ getSubstitution matched before after rest'
            else if Ascii.eqb d "'" then
              after +:+ getSubstitution matched before after rest'
            else String c (getSubstitution matched before after rest)
        | EmptyString => String c EmptyString
        end
      else String c (getSubstitution matched before after rest)
  end.

(** The scan: [before] is the part of the subject already passed, [skip]
    the number of characters of the current match still to pass over.
    Matches are found left to right and do not overlap. *)
Fixpoint replace_from (pat replacement before : string) (skip : nat) (s : string) : string :=
  match s with
  | EmptyString => EmptyString
  | String c s' =>
      match skip with
      | S k => replace_from pat replacement (before +:+ String c EmptyString) k s'
      | O =>
          if String.prefix pat s
          then getSubstitution pat before (string_drop (String.length pat) s) replacement
                 +:+ replace_from pat replacement (before +:+ String c EmptyString)
                       (String.length pat - 1) s'
          else String c (replace_from pat replacement (before +:+ String c EmptyString) 0 s')
      end
  end.

Definition replace_g (pat replacement s : string) : string :=
  replace_from pat replacement EmptyString 0 s.

(** ** Property lookup on an object literal

    [obj[key]] first looks among the object's own properties and then
    along the prototype chain; an object literal inherits from
    [Object.prototype], whose own properties are listed here.  Every
    inherited value is a function or an object, hence truthy. *)

Definition Object_prototype : list string :=
  ["constructor"; "__defineGetter__"; "__defineSetter__"; "hasOwnProperty";
   "__lookupGetter__"; "__lookupSetter__"; "isPrototypeOf";
   "propertyIsEnumerable"; "toString"; "valueOf"; "__proto__";
   "toLocaleString"].

Inductive Property (A : Type) : Type :=
| Own (a : A)
| Inherited (key : string)
| Undefined.
Arguments Own {A} a.
Arguments Inherited {A} key.
Arguments Undefined {A}.

Definition get {A : Type} (obj : gmap string A) (key : string) : Property A :=
  match obj !! key with
  | Some a => Own a
  | None =>
      if existsb (String.eqb key) Object_prototype then Inherited key
      else Undefined
  end.

Definition truthy_property {A : Type} (p : Property A) : bool :=
  match p with
  | Own _ => true
  | Inherited _ => true
  | Undefined => false
  end.

(** ** More of the string functions *)

(** [s.includes(pat)] *)
Definition includes (s pat : string) : bool := negb (indexOf s pat =? -1).

(** [s.toLowerCase()] on the ASCII letters; the bytes of other characters
    are left as they are. *)
Definition lower_char (c : ascii) : ascii :=
  let n := nat_of_ascii c in
  if (65 <=? n)%nat && (n <=? 90)%nat then ascii_of_nat (n + 32) else c.

Fixpoint toLowerCase (s : string) : string :=
  match s with
  | EmptyString => EmptyString
  | String c s' => String (lower_char c) (toLowerCase s')
  end.

(** [a || b] on values that are objects or [undefined]. *)
Definition or_object {A : Type} (a b : option A) : option A :=
  match a with
  | Some _ => a
  | None => b
  end.

(** [s.split(/\s+/)]: the pieces between the maximal runs of white space.
    [piece] is the piece being read, [in_gap] tells whether the last
    character was white space.  A run at the very start or the very end
    leaves an empty piece there, and the empty string gives one empty
    piece. *)
Fixpoint split_from (piece : string) (in_gap : bool) (s : string) : list string :=
  match s with
  | EmptyString => [piece]
  | String c s' =>
      if is_white_space c then
        if in_gap then split_from EmptyString true s'
        else piece :: split_from EmptyString true s'
      else split_from (piece +:+ String c EmptyString) false s'
  end.

Definition split_white_space (s : string) : list string :=
  split_from EmptyString false s.

(** The filler of [padStart]: [n] characters taken from [pad] over and
    over; [rest] is what is left of the current copy. *)
Fixpoint pad_filler (n : nat) (pad rest : string) : string :=
  match n with
  | O => EmptyString
  | S k =>
      match rest with
      | String c rest' => String c (pad_filler k pad rest')
      | EmptyString =>
          match pad with
          | String c pad' => String c (pad_filler k pad pad')
          | EmptyString => EmptyString
          end
      end
  end.

(** [s.padStart(targetLength, pad)] *)
Definition padStart (s : string) (targetLength : nat) (pad : string) : string :=
  pad_filler (targetLength - String.length s) pad pad +:+ s.

End JS.

(* ===================================================================== *)
(** * The prompt template manager *)
(* ===================================================================== *)

Module PromptTemplateManager.
Import JS.

Record PromptVariables : Type := {
  Wisdom_Source_Name : string;
  Wisdom_Snippet : string;
  User_Primer : string;
  User_Goal : string;
  User_Feelings_List : string;
  Max_Word_Count : Z
}.

Definition double_quote : string := String (ascii_of_nat 34) EmptyString.

(** Fallback template if file loading fails. *)
Definition getFallbackTemplate : string :=
"
You are a master spiritual guide and meditation scriptwriter. Create a beautiful, flowing guided meditation script based on the following inputs:

**Wisdom Source:** {{Wisdom_Source_Name}}
**Core Concept:** {{Wisdom_Snippet}}
**User's Primer:** {{User_Primer}}
**Primary Goal:** {{User_Goal}}
**Feelings to Transform:** {{User_Feelings_List}}

**Requirements:**
- Maximum {{Max_Word_Count}} words
- 100% positive and empowering language
- Present tense, second person (" +:+ double_quote +:+ "You are..." +:+ double_quote +:+ ")
- Include simple audio cues like [Pause] sparingly
- Structure: 15% induction, 60% core message, 25% integration
- Start with a beautiful title for the meditation

Create the complete meditation script now.
    ".

Definition startMarker : string := "**[START OF PROMPT]**".
Definition endMarker : string := "**[END OF PROMPT]**".

(** The body of the [try] block of [loadTemplate].  [file] is the outcome of
    importing the file-system module and reading the master prompt file:
    either its text or the exception raised on the way. *)
Definition loadTemplate_try (file : Exc string) : Exc string :=
  bind file (fun template =>
    let startIndex := indexOf template startMarker in
    let endIndex := indexOf template endMarker in
    if (startIndex =? -1) || (endIndex =? -1) then
      Throw "Could not find prompt markers in template file"
    else
      Ok (trim (substring template
                  (startIndex + Z.of_nat (String.length startMarker)) endIndex))).

(** [loadTemplate]: the first component is what the caller receives, the
    second the template cache afterwards.  The cache is only used when it
    holds a non-empty string, and only a successful load fills it; whatever
    the [try] block throws is caught and answered with the built-in
    template. *)
Definition loadTemplate (templateCache : option string) (file : Exc string)
  : Exc string * option string :=
  let load :=
    let attempt := loadTemplate_try file in
    (try_catch attempt (fun error => Ok getFallbackTemplate),
     match attempt with
     | Ok promptContent => Some promptContent
     | Throw _ => templateCache
     end) in
  match templateCache with
  | Some cached => if truthy cached then (Ok cached, templateCache) else load
  | None => load
  end.

Definition placeholder (name : string) : string := "{{" +:+ name +:+ "}}".

(** The six replacements of [generatePrompt], in the order of the source. *)
Definition fillTemplate (template : string) (variables : PromptVariables) : string :=
  let prompt := template in
  let prompt := replace_g (placeholder "Wisdom_Source_Name")
                  (Wisdom_Source_Name variables) prompt in
  let prompt := replace_g (placeholder "Wisdom_Snippet")
                  (Wisdom_Snippet variables) prompt in
  let prompt := replace_g (placeholder "User_Primer")
                  (or_else (User_Primer variables) "No specific primer provided") prompt in
  let prompt := replace_g (placeholder "User_Goal")
                  (User_Goal variables) prompt in
  let prompt := replace_g (placeholder "User_Feelings_List")
                  (or_else (User_Feelings_List variables) "None specified") prompt in
  let prompt := replace_g (placeholder "Max_Word_Count")
                  (toString (Max_Word_Count variables)) prompt in
  prompt.

Definition generatePrompt (templateCache : option string) (file : Exc string)
    (variables : PromptVariables) : Exc string * option string :=
  let '(loaded, cache') := loadTemplate templateCache file in
  (bind loaded (fun template => Ok (fillTemplate template variables)), cache').

(** Word budget for a requested duration in minutes. *)
Definition calculateMaxWordCount (durationMinutes : float) : float :=
  let voiceStartDelay := (10 / 60)%float in
  let availableMinutes := (durationMinutes - voiceStartDelay - 0.17)%float in
  let baseWordsPerMinute := 75%float in
  let wordsPerMinute := baseWordsPerMinute in
  let wordCount := Double.Math_floor (availableMinutes * wordsPerMinute)%float in
  Double.Math_max 50 wordCount.

(** What [validateTemplate] resolves to. *)
Record Validation : Type := {
  isValid : bool;
  error : option string
}.

(** Validate that the template file exists and is readable: the first
    component is the answer, the second the template cache afterwards. *)
Definition validateTemplate (templateCache : option string) (file : Exc string)
  : Validation * option string :=
  let '(loaded, cache') := loadTemplate templateCache file in
  (match loaded with
   | Ok _ => {| isValid := true; error := None |}
   | Throw message => {| isValid := false; error := Some message |}
   end, cache').

End PromptTemplateManager.

(* ===================================================================== *)
(** * Voice synthesis *)
(* ===================================================================== *)

Module VoiceSynthesis.
Import JS.

Record Voice : Type := {
  id : string;
  name : string;
  description : string
}.

(** Available voices with their IDs. *)
Definition voices : gmap string Voice :=
  <["female-1" := {| id := "YRROo374F8CyWnUy6mdE";
                     name := "Kelli-2";
                     description := "50-year-old female, extremely pleasing and comforting for deep guided meditation" |}]>
  (<["female-2" := {| id := "lVmv79IJaUdqekJlBLHn";
                      name := "Shelia-1";
                      description := "Calming female voice for guided meditations" |}]>
  (<["female-3" := {| id := "Atp5cNFg1Wj5gyKD7HWV";
                      name := "Natasha";
                      description := "Soothing female voice for meditation guidance" |}]>
  (<["male-1" := {| id := "xtwJZRzZhlI4QAgP0tT3";
                    name := "Bernard-1";
                    description := "Soft and subdued male voice, optimal for meditations and narrations" |}]>
   ∅))).

Definition known_voice_keys : list string :=
  ["female-1"; "female-2"; "female-3"; "male-1"].

Definition baseUrl : string := "https://api.elevenlabs.io/v1".

(** What [this.voices[voiceId]] evaluates to, and the text that
    interpolating its [id] property gives. *)
Definition voice_id_text (voice : Property Voice) : string :=
  match voice with
  | Own v => id v
  | Inherited _ => "undefined"
  | Undefined => "undefined"
  end.

Record Request : Type := {
  url : string;
  method : string;
  headers : list (string * string);
  body_text : string;
  body_model_id : string
}.

Inductive Response : Type :=
| NetworkError (e : string)
| Resp (ok : bool) (status : string) (statusText : string) (arrayBuffer : string).

(** A run of [synthesizeText]: it returns, throws, or issues a [fetch] and
    goes on with what the network answers. *)
Inductive IO (A : Type) : Type :=
| Return (a : A)
| Raise (e : string)
| Fetch (req : Request) (k : Response -> IO A).
Arguments Return {A} a.
Arguments Raise {A} e.
Arguments Fetch {A} req k.

(** Whether a run reaches the network at all. *)
Definition makes_request {A : Type} (p : IO A) : bool :=
  match p with
  | Fetch _ _ => true
  | _ => false
  end.

Section Synthesis.

(** The text clean-up of [processScriptText] (tag removal, SSML breaks and
    emphasis) only shapes the body of the request and is left abstract. *)
Variable processScriptText : string -> Q -> string.

Definition synthesizeText (apiKey text voiceId : string) (speed : Q) : IO string :=
  let voice := get voices voiceId in
  if negb (truthy_property voice) then
    Raise ("Voice ID " +:+ voiceId +:+ " not found")
  else
    let processedText := processScriptText text speed in
    Fetch {| url := baseUrl +:+ "/text-to-speech/" +:+ voice_id_text voice;
             method := "POST";
             headers := [("Accept", "audio/mpeg");
                         ("Content-Type", "application/json");
                         ("xi-api-key", apiKey)];
             body_text := processedText;
             body_model_id := "eleven_multilingual_v2" |}
          (fun response =>
             match response with
             | NetworkError e => Raise e
             | Resp ok status statusText arrayBuffer =>
                 if negb ok then
                   Raise ("ElevenLabs API error: " +:+ status +:+ " " +:+ statusText)
                 else Return arrayBuffer
             end).

End Synthesis.

(** The two synthesizer classes the factory chooses between. *)
Inductive Synthesizer : Type :=
| new_VoiceSynthesis (apiKey : string)
| new_FallbackVoiceSynthesis.

(** Factory function.  [env] is [process.env]. *)
Definition createVoiceSynthesis (env : gmap string string) : Synthesizer :=
  let apiKey := or_undefined (env !! "ELEVENLABS_API_KEY")
                             (env !! "NEXT_PUBLIC_ELEVENLABS_API_KEY") in
  match apiKey with
  | Some key => if truthy key then new_VoiceSynthesis key
                else new_FallbackVoiceSynthesis
  | None => new_FallbackVoiceSynthesis
  end.

(** ** Runs that report progress

    A run of [synthesizeScript]: besides returning, throwing and fetching
    it calls the progress callback. *)
Inductive Run (A : Type) : Type :=
| Done (a : A)
| Failed (e : string)
| Call (req : Request) (k : Response -> Run A)
| Report (p : Q) (k : Run A).
Arguments Done {A} a.
Arguments Failed {A} e.
Arguments Call {A} req k.
Arguments Report {A} p k.

(** [await m] followed by [k]. *)
Fixpoint await {A B : Type} (m : IO A) (k : A -> Run B) : Run B :=
  match m with
  | Return a => k a
  | Raise e => Failed e
  | Fetch req c => Call req (fun response => await (c response) k)
  end.

(** [try { body } catch (error) { handler }] around a run. *)
Fixpoint run_catch {A : Type} (body : Run A) (handler : string -> Run A) : Run A :=
  match body with
  | Done a => Done a
  | Failed e => handler e
  | Call req k => Call req (fun response => run_catch (k response) handler)
  | Report p k => Report p (run_catch k handler)
  end.

Record Clips : Type := {
  clip_intro : string;
  clip_main : string;
  clip_closing : string
}.

(** The order in which [Object.entries(this.voices)] visits the table:
    string keys come in the order the literal lists them. *)
Definition Object_entries_voices : list (string * Voice) :=
  omap (fun key => option_map (pair key) (voices !! key))
       ["female-1"; "female-2"; "female-3"; "male-1"].

Record VoiceOption : Type := {
  option_id : string;
  option_name : string;
  option_description : string
}.

(** Get available voices for UI selection. *)
Definition getAvailableVoices : list VoiceOption :=
  map (fun '(key, voice) =>
         {| option_id := key; option_name := name voice;
            option_description := description voice |})
      Object_entries_voices.

Section Script.

Variable processScriptText : string -> Q -> string.

(** [onProgress?.(p)]: [onProgress] tells whether the caller passed the
    optional callback. *)
Definition notify {A : Type} (onProgress : bool) (p : Q) (k : Run A) : Run A :=
  if onProgress then Report p k else k.

(** [synthesizeScript]: the three texts one after the other, each awaited
    before the next is sent; the [catch] logs and throws again. *)
Definition synthesizeScript (apiKey intro main closing voiceId : string)
    (onProgress : bool) : Run Clips :=
  run_catch
    (notify onProgress 0.1
       (await (synthesizeText processScriptText apiKey intro voiceId 0.85)
          (fun introAudio =>
             notify onProgress 0.4
               (await (synthesizeText processScriptText apiKey main voiceId 0.85)
                  (fun mainAudio =>
                     notify onProgress 0.8
                       (await (synthesizeText processScriptText apiKey closing voiceId 0.85)
                          (fun closingAudio =>
                             notify onProgress 1.0
                               (Done {| clip_intro := introAudio;
                                        clip_main := mainAudio;
                                        clip_closing := closingAudio |}))))))))
    (fun error => Failed error).

(** Preview a voice with sample text. *)
Definition previewVoice (apiKey voiceId : string) : IO string :=
  let sampleText := "Welcome to your personalized meditation session. Take a deep breath and let yourself relax." in
  synthesizeText processScriptText apiKey sampleText voiceId 0.85.

End Script.

End VoiceSynthesis.

(* ===================================================================== *)
(** * The browser-speech fallback *)
(* ===================================================================== *)

Module FallbackVoiceSynthesis.
Import JS.

Record SpeechSynthesisVoice : Type := {
  voice_name : string;
  lang : string;
  gender : option string
}.

Record SpeechSynthesisUtterance : Type := {
  utterance_text : string;
  utterance_voice : option SpeechSynthesisVoice;
  rate : Q;
  pitch : Q;
  volume : Q
}.

(** The fields of the class: whether [window.speechSynthesis] exists, the
    voice list, and whether a [voiceschanged] handler is installed. *)
Record t : Type := {
  synth : bool;
  voices : list SpeechSynthesisVoice;
  onvoiceschanged : bool
}.

(** The constructor, with [loadVoices] inlined; [getVoices] is what the
    browser lists at that moment. *)
Definition new (speechSynthesis : bool) (getVoices : list SpeechSynthesisVoice) : t :=
  if speechSynthesis then
    {| synth := true; voices := getVoices;
       onvoiceschanged := (List.length getVoices =? 0)%nat |}
  else {| synth := false; voices := []; onvoiceschanged := false |}.

(** The browser fires [voiceschanged]. *)
Definition voiceschanged (getVoices : list SpeechSynthesisVoice) (this : t) : t :=
  if onvoiceschanged this then
    {| synth := synth this; voices := getVoices; onvoiceschanged := true |}
  else this.

(** Select voice based on preference. *)
Definition preferredVoice (this : t) : option SpeechSynthesisVoice :=
  or_object
    (or_object
       (List.find (fun voice => includes (toLowerCase (voice_name voice)) "female"
                                && includes (lang voice) "en") (voices this))
       (List.find (fun voice => includes (lang voice) "en") (voices this)))
    (List.head (voices this)).

(** [synthesizeText] up to the call of [speak]: the promise is rejected at
    once without speech synthesis, otherwise the utterance is handed to
    the browser. *)
Definition synthesizeText (this : t) (text voiceId : string)
  : Exc SpeechSynthesisUtterance :=
  if negb (synth this) then Throw "Speech synthesis not supported"
  else
    Ok {| utterance_text := text;
          utterance_voice := preferredVoice this;
          rate := 0.7; pitch := 0.9; volume := 0.8 |}.

Record VoiceOption : Type := {
  option_id : string;
  option_name : string;
  option_description : string
}.

Definition getAvailableVoices (this : t) : list VoiceOption :=
  map (fun voice =>
         {| option_id := voice_name voice; option_name := voice_name voice;
            option_description :=
              lang voice +:+ " - "
              +:+ match gender voice with
                  | Some g => or_else g "Unknown"
                  | None => "Unknown"
                  end |})
      (List.filter (fun voice => includes (lang voice) "en") (voices this)).

(** Preview a voice with sample text (fallback implementation). *)
Definition previewVoice (this : t) (voiceId : string) : Exc SpeechSynthesisUtterance :=
  let sampleText := "Welcome to your personalized meditation session." in
  synthesizeText this sampleText voiceId.

(** Stub methods for compatibility. *)
Definition createAudioUrl (audioBuffer : option string) : string := "".

End FallbackVoiceSynthesis.

(* ===================================================================== *)
(** * Observing a run *)
(* ===================================================================== *)

Module Network.
Import JS VoiceSynthesis.

(** What a run does, in order: the requests it sends and the progress it
    reports. *)
Inductive Observation : Type :=
| Requested (req : Request)
| Reported (p : Q).

(** The run against a network that answers the [n]-th request with
    [net n]. *)
Fixpoint exec {A : Type} (net : nat -> Request -> Response) (n : nat) (m : Run A)
  : list Observation * Exc A :=
  match m with
  | Done a => ([], Ok a)
  | Failed e => ([], Throw e)
  | Call req k =>
      let '(trace, result) := exec net (S n) (k (net n req)) in
      (Requested req :: trace, result)
  | Report p k =>
      let '(trace, result) := exec net n k in
      (Reported p :: trace, result)
  end.

Fixpoint requests (trace : list Observation) : list Request :=
  match trace with
  | [] => []
  | Requested req :: trace' => req :: requests trace'
  | Reported _ :: trace' => requests trace'
  end.

Fixpoint reports (trace : list Observation) : list Q :=
  match trace with
  | [] => []
  | Requested _ :: trace' => reports trace'
  | Reported p :: trace' => p :: reports trace'
  end.

(** The provider answered with a success status. *)
Definition answered_ok (r : Response) : option string :=
  match r with
  | Resp true _ _ arrayBuffer => Some arrayBuffer
  | _ => None
  end.

End Network.

(* ===================================================================== *)
(** * The words-per-minute test route *)
(* ===================================================================== *)

Module TestWpmRoute.
Import JS VoiceSynthesis.

(** Standard test text for measuring WPM. *)
Definition TEST_TEXT_100_WORDS : string := trim "
Welcome to this peaceful meditation session. Take a moment to find a comfortable position.
Close your eyes gently and begin to notice your breath. Breathe in deeply through your nose,
filling your lungs completely. Hold for a moment. Now exhale slowly through your mouth,
releasing all tension. Feel your body becoming more relaxed with each breath. Notice the
gentle rise and fall of your chest. Let go of any thoughts that arise. Simply observe your
breath flowing in and out. You are safe. You are calm. You are present in this moment.
".

(** Count words in text. *)
Definition countWords (text : string) : nat :=
  List.length (split_white_space (trim text)).

Inductive Body : Type :=
| json_body (error : string) (details : option string)
| audio_body (audioBuffer : string).

Record NextResponse : Type := {
  body : Body;
  status : Z;
  headers : list (string * string)
}.

(** [NextResponse.json(data, { status })]; the headers the framework adds
    are not listed. *)
Definition NextResponse_json (error : string) (details : option string) (status : Z)
  : NextResponse :=
  {| body := json_body error details; status := status; headers := [] |}.

Section Route.

Variable processScriptText : string -> Q -> string.

(** [POST].  [json] is what [request.json()] gives for the [voiceId]
    property of the body (absent is [None]; the promise may be rejected),
    [env] is [process.env], and [clock] gives the successive readings of
    [Date.now()].  Identifiers that are not strings are outside the
    model. *)
Definition POST (json : Exc (option string)) (env : gmap string string)
    (clock : nat -> Z) : Run NextResponse :=
  run_catch
    (match json with
     | Throw e => Failed e
     | Ok voiceId =>
         if negb (truthy_opt voiceId) then
           Done (NextResponse_json "voiceId is required" None 400)
         else
           let voiceId := match voiceId with Some s => s | None => EmptyString end in
           match createVoiceSynthesis env with
           | new_FallbackVoiceSynthesis =>
               Done (NextResponse_json "ElevenLabs API not available" None 503)
           | new_VoiceSynthesis apiKey =>
               let startTime := clock 0%nat in
               await (synthesizeText processScriptText apiKey TEST_TEXT_100_WORDS
                        voiceId 0.85)
                 (fun audioBuffer =>
                    let generationTime := clock 1%nat - startTime in
                    let wordCount := countWords TEST_TEXT_100_WORDS in
                    Done {| body := audio_body audioBuffer;
                            status := 200;
                            headers :=
                              [("Content-Type", "audio/mpeg");
                               ("Content-Length",
                                toString (Z.of_nat (String.length audioBuffer)));
                               ("X-Word-Count", toString (Z.of_nat wordCount));
                               ("X-Generation-Time-Ms", toString generationTime);
                               ("X-Voice-Id", voiceId)] |})
           end
     end)
    (fun error =>
       Done (NextResponse_json "Failed to test WPM" (Some error) 500)).

End Route.

End TestWpmRoute.

(* ===================================================================== *)
(** * The session player *)
(* ===================================================================== *)

Module SessionPlayer.
Import JS.

(** Modelled from the spec: the timing table [DEFAULT_AUDIO_TIMING] of
    lib/audioConfig is not among the sources; the spec (and the comments at
    its two uses) give a lead-in of 10 seconds before the voice and 10
    seconds of music after it. *)
Definition VOICE_START_DELAY : Z := 10.

(** Modelled from the spec: the second entry of the missing timing table,
    10 seconds of music after the voice. *)
Definition MUSIC_FADE_AFTER_VOICE : Z := 10.

Inductive SessionPhase : Type :=
| loading | ready | playing | paused | completed.

Definition SessionPhase_eqb (a b : SessionPhase) : bool :=
  match a, b with
  | loading, loading | ready, ready | playing, playing
  | paused, paused | completed, completed => true
  | _, _ => false
  end.

Record Layers : Type := {
  music_volume : Q;
  voice_volume : Q;
  music_type : string;
  music_file : string
}.

(** The fields of the session configuration that the player reads.  The
    requested duration is a whole number of minutes (1, 3 or 5 in the
    assessment flow). *)
Record SessionConfig : Type := {
  duration : Z;
  voice_id : string;
  layers : Layers
}.

(** ** Audio elements *)

Module Audio.

Record t : Type := {
  paused : bool;
  currentTime : Q;
  duration : Q;
  volume : Q;
  loop : bool
}.

(** [new Audio(url)] once its metadata gave the duration. *)
Definition new (d : Q) : t :=
  {| paused := true; currentTime := 0; duration := d; volume := 1; loop := false |}.

Definition ended (a : t) : bool :=
  negb (loop a) && Qle_bool (duration a) (currentTime a).

(** [a.play()]: playback that has ended starts again from the beginning. *)
Definition play (a : t) : t :=
  {| paused := false;
     currentTime := if ended a then 0%Q else currentTime a;
     duration := duration a; volume := volume a; loop := loop a |}.

Definition pause (a : t) : t :=
  {| paused := true; currentTime := currentTime a;
     duration := duration a; volume := volume a; loop := loop a |}.

Definition set_currentTime (v : Q) (a : t) : t :=
  {| paused := paused a; currentTime := v;
     duration := duration a; volume := volume a; loop := loop a |}.

Definition set_volume (v : Q) (a : t) : t :=
  {| paused := paused a; currentTime := currentTime a;
     duration := duration a; volume := v; loop := loop a |}.

Definition set_loop (v : bool) (a : t) : t :=
  {| paused := paused a; currentTime := currentTime a;
     duration := duration a; volume := volume a; loop := v |}.

End Audio.

(** [audioElementsRef.current] *)
Record AudioElements : Type := {
  intro : option Audio.t;
  main : option Audio.t;
  closing : option Audio.t
}.

Inductive Segment : Type := seg_intro | seg_main | seg_closing.

Definition element (seg : Segment) (els : AudioElements) : option Audio.t :=
  match seg with
  | seg_intro => intro els
  | seg_main => main els
  | seg_closing => closing els
  end.

Definition set_element (seg : Segment) (v : option Audio.t) (els : AudioElements)
  : AudioElements :=
  match seg with
  | seg_intro => {| intro := v; main := main els; closing := closing els |}
  | seg_main => {| intro := intro els; main := v; closing := closing els |}
  | seg_closing => {| intro := intro els; main := main els; closing := v |}
  end.

(** [Object.values(audioElementsRef.current).forEach(audio => { if (audio) ... })] *)
Definition forEach (f : Audio.t -> Audio.t) (els : AudioElements) : AudioElements :=
  {| intro := option_map f (intro els);
     main := option_map f (main els);
     closing := option_map f (closing els) |}.

(** [Object.values(audioElementsRef.current).find(audio => audio && p(audio))]:
    the values come in the order the properties were assigned. *)
Definition find (p : Audio.t -> bool) (els : AudioElements) : option Segment :=
  let test (o : option Audio.t) := match o with Some a => p a | None => false end in
  if test (intro els) then Some seg_intro
  else if test (main els) then Some seg_main
  else if test (closing els) then Some seg_closing
  else None.

(** ** Renders, timers and the component state

    A function component runs once per render, and every handler it
    defines closes over the state values of that render.  A handler the
    user triggers belongs to the latest render; a callback handed to
    [setInterval] or [setTimeout] keeps the values of the render that
    created it for as long as it lives. *)
Record Render : Type := {
  r_phase : SessionPhase;
  r_currentTime : Z;
  r_totalTime : Z;
  r_volumes : Layers
}.

Inductive Callback : Type :=
| cb_setReady
| cb_voiceStart (r : Render)
| cb_fallbackSpeech.

(** A pending [setTimeout] and the [setInterval] behind [timerRef]; times
    are in milliseconds. *)
Record Timeout : Type := { due : Z; callback : Callback }.
Record Interval : Type := { active : bool; next : Z; closure : Render }.

Record State : Type := {
  phase : SessionPhase;
  phaseRef : SessionPhase;
  currentTime : Z;
  totalTime : Z;
  actualVoiceDuration : Q;
  volumes : Layers;
  timerRef : option Interval;
  timeouts : list Timeout;
  musicAudio : option Audio.t;
  engineMusicVolume : Q;
  audioElementsRef : AudioElements;
  speaking : bool;
  userStats : list Z;
  now : Z;
  ghost_playingMs : Z
}.

(** [musicAudio] is [audioEngine.getMusicAudio()], [engineMusicVolume] the
    value last given to [audioEngine.setMusicVolume], [speaking] whether
    the browser speech synthesis was handed an utterance, [userStats] the
    arguments of the calls to [updateUserStats], [now] the wall clock and
    [ghost_playingMs] the time spent in the playing phase (a ghost field:
    no handler reads it). *)

Definition set_phase (v : SessionPhase) (s : State) : State :=
  {| phase := v; phaseRef := phaseRef s; currentTime := currentTime s;
     totalTime := totalTime s; actualVoiceDuration := actualVoiceDuration s;
     volumes := volumes s; timerRef := timerRef s; timeouts := timeouts s;
     musicAudio := musicAudio s; engineMusicVolume := engineMusicVolume s;
     audioElementsRef := audioElementsRef s; speaking := speaking s;
     userStats := userStats s; now := now s;
     ghost_playingMs := ghost_playingMs s |}.

Definition set_phaseRef (v : SessionPhase) (s : State) : State :=
  {| phase := phase s; phaseRef := v; currentTime := currentTime s;
     totalTime := totalTime s; actualVoiceDuration := actualVoiceDuration s;
     volumes := volumes s; timerRef := timerRef s; timeouts := timeouts s;
     musicAudio := musicAudio s; engineMusicVolume := engineMusicVolume s;
     audioElementsRef := audioElementsRef s; speaking := speaking s;
     userStats := userStats s; now := now s;
     ghost_playingMs := ghost_playingMs s |}.

Definition set_currentTime (v : Z) (s : State) : State :=
  {| phase := phase s; phaseRef := phaseRef s; currentTime := v;
     totalTime := totalTime s; actualVoiceDuration := actualVoiceDuration s;
     volumes := volumes s; timerRef := timerRef s; timeouts := timeouts s;
     musicAudio := musicAudio s; engineMusicVolume := engineMusicVolume s;
     audioElementsRef := audioElementsRef s; speaking := speaking s;
     userStats := userStats s; now := now s;
     ghost_playingMs := ghost_playingMs s |}.

Definition set_totalTime (v : Z) (s : State) : State :=
  {| phase := phase s; phaseRef := phaseRef s; currentTime := currentTime s;
     totalTime := v; actualVoiceDuration := actualVoiceDuration s;
     volumes := volumes s; timerRef := timerRef s; timeouts := timeouts s;
     musicAudio := musicAudio s; engineMusicVolume := engineMusicVolume s;
     audioElementsRef := audioElementsRef s; speaking := speaking s;
     userStats := userStats s; now := now s;
     ghost_playingMs := ghost_playingMs s |}.

Definition set_actualVoiceDuration (v : Q) (s : State) : State :=
  {| phase := phase s; phaseRef := phaseRef s; currentTime := currentTime s;
     totalTime := totalTime s; actualVoiceDuration := v;
     volumes := volumes s; timerRef := timerRef s; timeouts := timeouts s;
     musicAudio := musicAudio s; engineMusicVolume := engineMusicVolume s;
     audioElementsRef := audioElementsRef s; speaking := speaking s;
     userStats := userStats s; now := now s;
     ghost_playingMs := ghost_playingMs s |}.

Definition set_volumes (v : Layers) (s : State) : State :=
  {| phase := phase s; phaseRef := phaseRef s; currentTime := currentTime s;
     totalTime := totalTime s; actualVoiceDuration := actualVoiceDuration s;
     volumes := v; timerRef := timerRef s; timeouts := timeouts s;
     musicAudio := musicAudio s; engineMusicVolume := engineMusicVolume s;
     audioElementsRef := audioElementsRef s; speaking := speaking s;
     userStats := userStats s; now := now s;
     ghost_playingMs := ghost_playingMs s |}.

Definition set_timerRef (v : option Interval) (s : State) : State :=
  {| phase := phase s; phaseRef := phaseRef s; currentTime := currentTime s;
     totalTime := totalTime s; actualVoiceDuration := actualVoiceDuration s;
     volumes := volumes s; timerRef := v; timeouts := timeouts s;
     musicAudio := musicAudio s; engineMusicVolume := engineMusicVolume s;
     audioElementsRef := audioElementsRef s; speaking := speaking s;
     userStats := userStats s; now := now s;
     ghost_playingMs := ghost_playingMs s |}.

Definition set_timeouts (v : list Timeout) (s : State) : State :=
  {| phase := phase s; phaseRef := phaseRef s; currentTime := currentTime s;
     totalTime := totalTime s; actualVoiceDuration := actualVoiceDuration s;
     volumes := volumes s; timerRef := timerRef s; timeouts := v;
     musicAudio := musicAudio s; engineMusicVolume := engineMusicVolume s;
     audioElementsRef := audioElementsRef s; speaking := speaking s;
     userStats := userStats s; now := now s;
     ghost_playingMs := ghost_playingMs s |}.

Definition set_musicAudio (v : option Audio.t) (s : State) : State :=
  {| phase := phase s; phaseRef := phaseRef s; currentTime := currentTime s;
     totalTime := totalTime s; actualVoiceDuration := actualVoiceDuration s;
     volumes := volumes s; timerRef := timerRef s; timeouts := timeouts s;
     musicAudio := v; engineMusicVolume := engineMusicVolume s;
     audioElementsRef := audioElementsRef s; speaking := speaking s;
     userStats := userStats s; now := now s;
     ghost_playingMs := ghost_playingMs s |}.

Definition set_engineMusicVolume (v : Q) (s : State) : State :=
  {| phase := phase s; phaseRef := phaseRef s; currentTime := currentTime s;
     totalTime := totalTime s; actualVoiceDuration := actualVoiceDuration s;
     volumes := volumes s; timerRef := timerRef s; timeouts := timeouts s;
     musicAudio := musicAudio s; engineMusicVolume := v;
     audioElementsRef := audioElementsRef s; speaking := speaking s;
     userStats := userStats s; now := now s;
     ghost_playingMs := ghost_playingMs s |}.

Definition set_audioElementsRef (v : AudioElements) (s : State) : State :=
  {| phase := phase s; phaseRef := phaseRef s; currentTime := currentTime s;
     totalTime := totalTime s; actualVoiceDuration := actualVoiceDuration s;
     volumes := volumes s; timerRef := timerRef s; timeouts := timeouts s;
     musicAudio := musicAudio s; engineMusicVolume := engineMusicVolume s;
     audioElementsRef := v; speaking := speaking s; userStats := userStats s;
     now := now s; ghost_playingMs := ghost_playingMs s |}.

Definition set_speaking (v : bool) (s : State) : State :=
  {| phase := phase s; phaseRef := phaseRef s; currentTime := currentTime s;
     totalTime := totalTime s; actualVoiceDuration := actualVoiceDuration s;
     volumes := volumes s; timerRef := timerRef s; timeouts := timeouts s;
     musicAudio := musicAudio s; engineMusicVolume := engineMusicVolume s;
     audioElementsRef := audioElementsRef s; speaking := v;
     userStats := userStats s; now := now s;
     ghost_playingMs := ghost_playingMs s |}.

Definition set_userStats (v : list Z) (s : State) : State :=
  {| phase := phase s; phaseRef := phaseRef s; currentTime := currentTime s;
     totalTime := totalTime s; actualVoiceDuration := actualVoiceDuration s;
     volumes := volumes s; timerRef := timerRef s; timeouts := timeouts s;
     musicAudio := musicAudio s; engineMusicVolume := engineMusicVolume s;
     audioElementsRef := audioElementsRef s; speaking := speaking s;
     userStats := v; now := now s; ghost_playingMs := ghost_playingMs s |}.

Definition set_now (v : Z) (s : State) : State :=
  {| phase := phase s; phaseRef := phaseRef s; currentTime := currentTime s;
     totalTime := totalTime s; actualVoiceDuration := actualVoiceDuration s;
     volumes := volumes s; timerRef := timerRef s; timeouts := timeouts s;
     musicAudio := musicAudio s; engineMusicVolume := engineMusicVolume s;
     audioElementsRef := audioElementsRef s; speaking := speaking s;
     userStats := userStats s; now := v;
     ghost_playingMs := ghost_playingMs s |}.

Definition set_ghost_playingMs (v : Z) (s : State) : State :=
  {| phase := phase s; phaseRef := phaseRef s; currentTime := currentTime s;
     totalTime := totalTime s; actualVoiceDuration := actualVoiceDuration s;
     volumes := volumes s; timerRef := timerRef s; timeouts := timeouts s;
     musicAudio := musicAudio s; engineMusicVolume := engineMusicVolume s;
     audioElementsRef := audioElementsRef s; speaking := speaking s;
     userStats := userStats s; now := now s; ghost_playingMs := v |}.

Definition set_layer_music_volume (v : Q) (l : Layers) : Layers :=
  {| music_volume := v; voice_volume := voice_volume l;
     music_type := music_type l; music_file := music_file l |}.

Definition set_layer_voice_volume (v : Q) (l : Layers) : Layers :=
  {| music_volume := music_volume l; voice_volume := v;
     music_type := music_type l; music_file := music_file l |}.

Definition render (s : State) : Render :=
  {| r_phase := phase s; r_currentTime := currentTime s;
     r_totalTime := totalTime s; r_volumes := volumes s |}.

(** [useEffect(() => { phaseRef.current = phase }, [phase])] *)
Definition commit (s : State) : State := set_phaseRef (phase s) s.

Definition timer_running (s : State) : bool :=
  match timerRef s with
  | Some i => active i
  | None => false
  end.

Definition narration_playing (s : State) : bool :=
  let plays (o : option Audio.t) :=
    match o with Some a => negb (Audio.paused a) | None => false end in
  plays (intro (audioElementsRef s)) || plays (main (audioElementsRef s))
  || plays (closing (audioElementsRef s)).

(** ** The total on the page

    The header and the line under the progress bar both show
    [~{Math.ceil(totalTime / 60)} min]: the total in whole minutes, rounded
    up.  The page shows [totalTime] nowhere else. *)
Definition total_minutes (s : State) : float :=
  Double.Math_ceil (Double.of_Z (totalTime s) / 60)%float.

Definition total_label (s : State) : string :=
  "~" +:+ toString (Double.to_Z (total_minutes s)) +:+ " min total".

(** ** The audio engine and the store *)

(** Modelled from the spec: lib/audioEngineV2 is not among the sources.
    The engine owns the music element; [pauseAll] halts it. *)
Definition pauseAll (s : State) : State :=
  set_musicAudio (option_map Audio.pause (musicAudio s)) s.

(** Modelled from the spec: [stopAll] of the missing audio engine halts
    the music. *)
Definition stopAll (s : State) : State :=
  set_musicAudio (option_map Audio.pause (musicAudio s)) s.

(** Modelled from the spec: [setMusicVolume] of the missing audio engine
    records the gain of the music. *)
Definition setMusicVolume (v : Q) (s : State) : State := set_engineMusicVolume v s.

(** Modelled from the spec: [updateUserStats] of lib/store, which is not
    among the sources, records the minutes it is given in the cumulative
    user statistics. *)
Definition updateUserStats (minutes : Z) (s : State) : State :=
  set_userStats (userStats s ++ [minutes]) s.

(** Modelled from the spec: the cumulative minutes of the user statistics
    are the sum of what was recorded. *)
Definition cumulativeMinutes (s : State) : Z := fold_right Z.add 0 (userStats s).

(** ** The handlers of the component *)

(** What the network and the media pipeline answer during initialization:
    whether the script request succeeds, whether the music file loads (and
    its length), and whether the three narration clips are synthesized and
    report their durations.  A duration is the double the [duration]
    property of the loaded clip holds. *)
Inductive VoiceOutcome : Type :=
| voice_unavailable
| voice_ready (dIntro dMain dClosing : float).

Record InitOutcome : Type := {
  scriptOk : bool;
  music : option Q;
  voice : VoiceOutcome
}.

Inductive Layer : Type := layer_music_volume | layer_voice_volume.

Section Component.

Variable session : SessionConfig.
Variable voiceSynthesis : VoiceSynthesis.Synthesizer.

(** The state of the first render. *)
Definition initial_state : State :=
  {| phase := loading; phaseRef := loading;
     currentTime := 0; totalTime := duration session * 60;
     actualVoiceDuration := 0; volumes := layers session;
     timerRef := None; timeouts := [];
     musicAudio := None; engineMusicVolume := music_volume (layers session);
     audioElementsRef := {| intro := None; main := None; closing := None |};
     speaking := false; userStats := []; now := 0; ghost_playingMs := 0 |}.

(** Modelled from the spec: [audioEngine.playMusic(file, volume)] hands
    back the music element with its volume pre-set. *)
Definition playMusic (length : Q) (volume : Q) : Audio.t :=
  Audio.play (Audio.set_volume volume (Audio.new length)).

(** [initializeSession] runs in the closure of the first render.  A failed
    script request goes to the outer [catch]; a failed music load or a
    failed synthesis is caught locally.  (A clip whose metadata never
    arrives would leave the session loading; the outcomes above do not
    include it.)  The three durations and the two delays are added as
    doubles, in the order of the source; each element keeps the exact value
    of its duration, and [totalTime] receives the whole number that
    [Math.ceil] returns (a clip with loaded metadata reports a finite
    duration). *)
Definition initializeSession (env : InitOutcome) (s : State) : State :=
  if negb (scriptOk env) then
    set_timeouts (timeouts s ++ [{| due := now s + 1000; callback := cb_setReady |}]) s
  else
    let s :=
      if String.eqb (music_type (layers session)) "mp3"
         && truthy (music_file (layers session)) then
        match music env with
        | Some length =>
            let musicAudio := playMusic length (music_volume (layers session)) in
            let musicAudio := Audio.pause musicAudio in
            let musicAudio := Audio.set_loop true musicAudio in
            set_musicAudio (Some musicAudio) s
        | None => s
        end
      else s in
    let s :=
      match voice env with
      | voice_ready dIntro dMain dClosing =>
          let introAudio := Audio.new (Double.to_Q dIntro) in
          let mainAudio := Audio.new (Double.to_Q dMain) in
          let closingAudio := Audio.new (Double.to_Q dClosing) in
          let s := set_audioElementsRef
                     {| intro := Some introAudio; main := Some mainAudio;
                        closing := Some closingAudio |} s in
          let totalVoiceDuration := (dIntro + dMain + dClosing)%float in
          let s := set_actualVoiceDuration (Double.to_Q totalVoiceDuration) s in
          let actualSessionDuration :=
            (Double.of_Z VOICE_START_DELAY + totalVoiceDuration
             + Double.of_Z MUSIC_FADE_AFTER_VOICE)%float in
          set_totalTime (Double.to_Z (Double.Math_ceil actualSessionDuration)) s
      | voice_unavailable => s
      end in
    set_timeouts (timeouts s ++ [{| due := now s + 500; callback := cb_setReady |}]) s.

(** [stopSession] as defined in render [r]. *)
Definition stopSession (r : Render) (s : State) : State :=
  let s := set_phase completed s in
  let s := stopAll s in
  let s := set_audioElementsRef
             (forEach (fun audio => Audio.set_currentTime 0 (Audio.pause audio))
                      (audioElementsRef s)) s in
  let s := set_timerRef None s in
  updateUserStats (Math_floor (inject_Z (r_currentTime r) / 60)) s.

(** The callback that [startTimer], called in render [r], hands to
    [setInterval]: [totalTime], [volumes] and [stopSession] are those of
    render [r]; only [prev] is the current state. *)
Definition tick (r : Render) (s : State) : State :=
  let prev := currentTime s in
  let newTime := prev + 1 in
  let remainingTime := r_totalTime r - newTime in
  let s :=
    if (remainingTime <=? 5) && (0 <? remainingTime) then
      match musicAudio s with
      | Some musicAudio =>
          let fadeVolume :=
            (inject_Z remainingTime / 5 * music_volume (r_volumes r))%Q in
          let s := set_musicAudio (Some (Audio.set_volume fadeVolume musicAudio)) s in
          setMusicVolume fadeVolume s
      | None => s
      end
    else s in
  if r_totalTime r <=? newTime then
    set_currentTime (r_totalTime r) (stopSession r s)
  else
    set_currentTime newTime s.

Definition startTimer (r : Render) (s : State) : State :=
  set_timerRef (Some {| active := true; next := now s + 1000; closure := r |}) s.

(** The lead-in timeout of [startSession]. *)
Definition voiceStart (r : Render) (s : State) : State :=
  match intro (audioElementsRef s) with
  | Some introAudio =>
      if SessionPhase_eqb (phaseRef s) playing then
        set_audioElementsRef
          (set_element seg_intro
             (Some (Audio.play (Audio.set_volume (voice_volume (r_volumes r)) introAudio)))
             (audioElementsRef s)) s
      else s
  | None => s
  end.

(** The timeout of the browser-speech branch of [startSession]: it hands
    the intro text to [voiceSynthesis.current.synthesizeText]; only the
    fallback synthesizer speaks. *)
Definition fallbackSpeech (s : State) : State :=
  match voiceSynthesis with
  | VoiceSynthesis.new_FallbackVoiceSynthesis => set_speaking true s
  | VoiceSynthesis.new_VoiceSynthesis _ => s
  end.

(** [startSession] as defined in render [r]; [scriptOk] is the outcome of
    the script request of the browser-speech branch. *)
Definition startSession (r : Render) (scriptOk : bool) (s : State) : State :=
  let s := set_phase playing s in
  let s :=
    match musicAudio s with
    | Some musicAudio =>
        set_musicAudio
          (Some (Audio.play (Audio.set_volume (music_volume (r_volumes r)) musicAudio))) s
    | None => s
    end in
  let s :=
    match intro (audioElementsRef s) with
    | Some _ =>
        set_timeouts
          (timeouts s ++ [{| due := now s + VOICE_START_DELAY * 1000;
                             callback := cb_voiceStart r |}]) s
    | None =>
        if scriptOk then
          set_timeouts
            (timeouts s ++ [{| due := now s + 1000; callback := cb_fallbackSpeech |}]) s
        else s
    end in
  startTimer r s.

Definition pauseSession (s : State) : State :=
  let s := set_phase paused s in
  let s := pauseAll s in
  let s := set_audioElementsRef
             (forEach (fun audio => if negb (Audio.paused audio)
                                    then Audio.pause audio else audio)
                      (audioElementsRef s)) s in
  match timerRef s with
  | Some i =>
      set_timerRef (Some {| active := false; next := next i; closure := closure i |}) s
  | None => s
  end.

(** [resumeSession] as defined in render [r]. *)
Definition resumeSession (r : Render) (s : State) : State :=
  let s := set_phase playing s in
  let s :=
    match musicAudio s with
    | Some musicAudio =>
        set_musicAudio
          (Some (Audio.play (Audio.set_volume (music_volume (r_volumes r)) musicAudio))) s
    | None => s
    end in
  let pausedAudio :=
    find (fun audio => Audio.paused audio
                       && negb (Qle_bool (Audio.currentTime audio) 0)
                       && negb (Qle_bool (Audio.duration audio) (Audio.currentTime audio)))
         (audioElementsRef s) in
  let s :=
    match pausedAudio with
    | Some seg =>
        set_audioElementsRef
          (set_element seg
             (option_map (fun audio =>
                            Audio.play (Audio.set_volume (voice_volume (r_volumes r)) audio))
                         (element seg (audioElementsRef s)))
             (audioElementsRef s)) s
    | None =>
        match intro (audioElementsRef s) with
        | Some introAudio =>
            if Qeq_bool (Audio.currentTime introAudio) 0 then
              set_audioElementsRef
                (set_element seg_intro
                   (Some (Audio.play
                            (Audio.set_volume (voice_volume (r_volumes r)) introAudio)))
                   (audioElementsRef s)) s
            else s
        | None => s
        end
    end in
  startTimer r s.

(** [handleVolumeChange] as defined in render [r]. *)
Definition handleVolumeChange (r : Render) (layer : Layer) (value : Q) (s : State)
  : State :=
  let newVolumes :=
    match layer with
    | layer_music_volume => set_layer_music_volume value (r_volumes r)
    | layer_voice_volume => set_layer_voice_volume value (r_volumes r)
    end in
  let s := set_volumes newVolumes s in
  if SessionPhase_eqb (r_phase r) playing then
    match layer with
    | layer_music_volume =>
        let s := setMusicVolume value s in
        set_musicAudio (option_map (Audio.set_volume value) (musicAudio s)) s
    | layer_voice_volume =>
        set_audioElementsRef (forEach (Audio.set_volume value) (audioElementsRef s)) s
    end
  else s.

(** The [onended] handlers set up by [initializeSession]; their [volumes]
    are those of the first render. *)
Definition onended (seg : Segment) (s : State) : State :=
  let start (next : Segment) :=
    match element next (audioElementsRef s) with
    | Some audio =>
        if SessionPhase_eqb (phaseRef s) playing then
          set_audioElementsRef
            (set_element next
               (Some (Audio.play (Audio.set_volume (voice_volume (layers session)) audio)))
               (audioElementsRef s)) s
        else s
    | None => s
    end in
  match seg with
  | seg_intro => start seg_main
  | seg_main => start seg_closing
  | seg_closing => s
  end.

(** ** The browser: timers and media clocks

    One step is one millisecond of wall-clock time: media that is playing
    advances (a clip that reaches its end pauses and fires [onended]), the
    timeouts that are due run in the order they were set, then the
    interval runs if it is due.  React commits after every callback. *)

Definition run_callback (cb : Callback) (s : State) : State :=
  match cb with
  | cb_setReady => set_phase ready s
  | cb_voiceStart r => voiceStart r s
  | cb_fallbackSpeech => fallbackSpeech s
  end.

Definition advance (a : Audio.t) : Audio.t :=
  let t := Qred (Audio.currentTime a + 1 / 1000) in
  if Qle_bool (Audio.duration a) t
  then Audio.pause (Audio.set_currentTime (Audio.duration a) a)
  else Audio.set_currentTime t a.

Definition progress (seg : Segment) (s : State) : State :=
  match element seg (audioElementsRef s) with
  | Some a =>
      if Audio.paused a then s
      else
        let a' := advance a in
        let s := set_audioElementsRef (set_element seg (Some a') (audioElementsRef s)) s in
        if Audio.paused a' then commit (onended seg s) else s
  | None => s
  end.

Definition run_timeouts (s : State) : State :=
  let is_due (t : Timeout) := due t <=? now s in
  let due_now := List.filter is_due (timeouts s) in
  let later := List.filter (fun t => negb (is_due t)) (timeouts s) in
  fold_left (fun s t => commit (run_callback (callback t) s)) due_now
            (set_timeouts later s).

Definition run_interval (s : State) : State :=
  match timerRef s with
  | Some i =>
      if active i && (next i <=? now s) then
        let s := commit (tick (closure i) s) in
        match timerRef s with
        | Some i' =>
            set_timerRef
              (Some {| active := active i'; next := next i' + 1000;
                       closure := closure i' |}) s
        | None => s
        end
      else s
  | None => s
  end.

Definition millisecond (s : State) : State :=
  let s := set_now (now s + 1) s in
  let s := if SessionPhase_eqb (phase s) playing
           then set_ghost_playingMs (ghost_playingMs s + 1) s else s in
  let s := progress seg_closing s in
  let s := progress seg_main s in
  let s := progress seg_intro s in
  let s := run_timeouts s in
  run_interval s.

Definition elapse (ms : nat) (s : State) : State := Nat.iter ms millisecond s.

(** ** Sessions as sequences of events

    The user can only press what the current phase renders: Start when
    ready, Pause when playing, Resume and Stop when paused, the volume
    sliders in every phase but loading. *)
Inductive Event : Type :=
| ClickStart (scriptOk : bool)
| ClickPause
| ClickResume
| ClickStop
| ChangeVolume (layer : Layer) (value : Q)
| Elapse (ms : nat).

Definition step (s : State) (e : Event) : State :=
  match e with
  | ClickStart scriptOk =>
      if SessionPhase_eqb (phase s) ready
      then commit (startSession (render s) scriptOk s) else s
  | ClickPause =>
      if SessionPhase_eqb (phase s) playing then commit (pauseSession s) else s
  | ClickResume =>
      if SessionPhase_eqb (phase s) paused
      then commit (resumeSession (render s) s) else s
  | ClickStop =>
      if SessionPhase_eqb (phase s) paused
      then commit (stopSession (render s) s) else s
  | ChangeVolume layer value =>
      if SessionPhase_eqb (phase s) loading then s
      else commit (handleVolumeChange (render s) layer value s)
  | Elapse ms => elapse ms s
  end.

Definition run (events : list Event) (s : State) : State := fold_left step events s.

(** The component after mounting, once initialization has run. *)
Definition mounted (env : InitOutcome) : State :=
  commit (initializeSession env initial_state).

End Component.

(** [formatTime]: minutes, a colon, and the seconds on two digits.  [%] is
    the remainder of the truncating division. *)
Definition formatTime (seconds : Z) : string :=
  let mins := Math_floor (inject_Z seconds / 60) in
  let secs := Z.rem seconds 60 in
  toString mins +:+ ":" +:+ padStart (toString secs) 2 "0".

End SessionPlayer.

(* ===================================================================== *)
(** * The vocabulary of the properties *)
(* ===================================================================== *)

Module WordBudget.
Import JS PromptTemplateManager.

(** The narration time the budget is computed from: the requested minutes
    less the lead-in (10/60 min) and the outro (0.17 min), at 75 words per
    minute, each operation on doubles. *)
Definition plain_budget (D : float) : float :=
  Double.Math_floor ((D - 10 / 60 - 0.17) * 75)%float.

(** The same floor in exact arithmetic, on a whole number of minutes:
    [75 n - 25.25] rounded down. *)
Definition exact_budget (n : Z) : Z :=
  Math_floor ((inject_Z n - 10 / 60 - 0.17) * 75)%Q.

End WordBudget.

Module Template.
Import JS PromptTemplateManager.

(** The six placeholders [generatePrompt] knows. *)
Definition known_placeholders : list string :=
  ["Wisdom_Source_Name"; "Wisdom_Snippet"; "User_Primer"; "User_Goal";
   "User_Feelings_List"; "Max_Word_Count"].

(** [pat] occurs in [s]: it matches at some position. *)
Fixpoint occurs (pat s : string) : bool :=
  String.prefix pat s
  || match s with
     | EmptyString => false
     | String _ s' => occurs pat s'
     end.

Definition no_placeholder_left (s : string) : bool :=
  forallb (fun name => negb (occurs (placeholder name) s)) known_placeholders.

Fixpoint contains_char (c : ascii) (s : string) : bool :=
  match s with
  | EmptyString => false
  | String d s' => Ascii.eqb d c || contains_char c s'
  end.

(** A template seen as a sequence of pieces: plain text, and holes written
    [{{name}}]. *)
Inductive Piece : Type :=
| Text (text : string)
| Hole (name : string).

Definition render_piece (p : Piece) : string :=
  match p with
  | Text text => text
  | Hole name => placeholder name
  end.

Fixpoint render (ps : list Piece) : string :=
  match ps with
  | [] => EmptyString
  | p :: ps' => render_piece p +:+ render ps'
  end.

(** Text carries no opening brace; the name of a hole carries no brace. *)
Definition well_formed (p : Piece) : Prop :=
  match p with
  | Text text => contains_char "{" text = false
  | Hole name => contains_char "{" name = false /\ contains_char "}" name = false
  end.

(** A value that can stand for a hole as it is: no opening brace, and no
    dollar sign for the replacement to expand. *)
Definition plain (v : string) : Prop :=
  contains_char "{" v = false /\ contains_char "$" v = false.

(** The value the spec gives each known placeholder, with the default
    sentences for a missing primer and a missing feelings list. *)
Definition placeholder_value (variables : PromptVariables) (name : string)
  : option string :=
  if String.eqb name "Wisdom_Source_Name" then Some (Wisdom_Source_Name variables)
  else if String.eqb name "Wisdom_Snippet" then Some (Wisdom_Snippet variables)
  else if String.eqb name "User_Primer" then
    Some (if String.eqb (User_Primer variables) "" then "No specific primer provided"
          else User_Primer variables)
  else if String.eqb name "User_Goal" then Some (User_Goal variables)
  else if String.eqb name "User_Feelings_List" then
    Some (if String.eqb (User_Feelings_List variables) "" then "None specified"
          else User_Feelings_List variables)
  else if String.eqb name "Max_Word_Count" then Some (toString (Max_Word_Count variables))
  else None.

Definition instantiate_piece (variables : PromptVariables) (p : Piece) : string :=
  match p with
  | Text text => text
  | Hole name =>
      match placeholder_value variables name with
      | Some v => v
      | None => placeholder name
      end
  end.

Fixpoint instantiate (variables : PromptVariables) (ps : list Piece) : string :=
  match ps with
  | [] => EmptyString
  | p :: ps' => instantiate_piece variables p +:+ instantiate variables ps'
  end.

Definition plain_variables (variables : PromptVariables) : Prop :=
  plain (Wisdom_Source_Name variables) /\ plain (Wisdom_Snippet variables)
  /\ plain (User_Primer variables) /\ plain (User_Goal variables)
  /\ plain (User_Feelings_List variables).

(** The scan of [replace_from] when the replacement needs no expansion. *)
Fixpoint replace_plain (pat v : string) (skip : nat) (s : string) : string :=
  match s with
  | EmptyString => EmptyString
  | String c s' =>
      match skip with
      | S k => replace_plain pat v k s'
      | O =>
          if String.prefix pat s
          then v +:+ replace_plain pat v (String.length pat - 1) s'
          else String c (replace_plain pat v 0 s')
      end
  end.

(** Filling one hole name in a sequence of pieces. *)
Definition fill (name v : string) (p : Piece) : Piece :=
  match p with
  | Text text => Text text
  | Hole m => if String.eqb m name then Text v else Hole m
  end.

(** What the six fills, in the order of the source, make of one piece. *)
Definition fill_all (variables : PromptVariables) (p : Piece) : Piece :=
  fill "Max_Word_Count" (toString (Max_Word_Count variables))
    (fill "User_Feelings_List" (or_else (User_Feelings_List variables) "None specified")
       (fill "User_Goal" (User_Goal variables)
          (fill "User_Primer" (or_else (User_Primer variables) "No specific primer provided")
             (fill "Wisdom_Snippet" (Wisdom_Snippet variables)
                (fill "Wisdom_Source_Name" (Wisdom_Source_Name variables) p))))).

(** The built-in template as text and holes. *)
Definition fallback_pieces : list Piece :=
  [Text "
You are a master spiritual guide and meditation scriptwriter. Create a beautiful, flowing guided meditation script based on the following inputs:

**Wisdom Source:** ";
   Hole "Wisdom_Source_Name";
   Text "
**Core Concept:** ";
   Hole "Wisdom_Snippet";
   Text "
**User's Primer:** ";
   Hole "User_Primer";
   Text "
**Primary Goal:** ";
   Hole "User_Goal";
   Text "
**Feelings to Transform:** ";
   Hole "User_Feelings_List";
   Text "

**Requirements:**
- Maximum ";
   Hole "Max_Word_Count";
   Text (" words
- 100% positive and empowering language
- Present tense, second person (" +:+ double_quote +:+ "You are..." +:+ double_quote +:+ ")
- Include simple audio cues like [Pause] sparingly
- Structure: 15% induction, 60% core message, 25% integration
- Start with a beautiful title for the meditation

Create the complete meditation script now.
    ")].

(** A template with a repeated placeholder and one the code does not know. *)
Definition sample_pieces : list Piece :=
  [Text "Goal: "; Hole "User_Goal"; Text " (again: "; Hole "User_Goal";
   Text "), mood "; Hole "Mood"; Text ", primer: "; Hole "User_Primer";
   Text ", feelings: "; Hole "User_Feelings_List"; Text ", at most ";
   Hole "Max_Word_Count"; Text " words."].

Definition sample_variables : PromptVariables :=
  {| Wisdom_Source_Name := "Default/Universal";
     Wisdom_Snippet := "Stillness is always available.";
     User_Primer := "";
     User_Goal := "calm";
     User_Feelings_List := "";
     Max_Word_Count := 199 |}.

(** Values as a user may type them: the primer holds two of the dollar
    sequences that a replacement string gives a meaning to. *)
Definition dollar_variables : PromptVariables :=
  {| Wisdom_Source_Name := "Default/Universal";
     Wisdom_Snippet := "Stillness is always available.";
     User_Primer := "less $$ worry, more $& rest";
     User_Goal := "calm";
     User_Feelings_List := "anxious";
     Max_Word_Count := 199 |}.

(** The template resource cannot be loaded: reading it raises, or one of
    the two markers is missing from its text. *)
Definition resource_unavailable (file : Exc string) : Prop :=
  match file with
  | Throw _ => True
  | Ok text => indexOf text startMarker = -1 \/ indexOf text endMarker = -1
  end.

End Template.

Module Credential.
Import JS.

(** A credential is present when one of the two environment variables
    holds a non-empty string; it is absent when each is unset or empty. *)
Definition unset_or_empty (v : option string) : Prop := v = None \/ v = Some "".

Definition credential_absent (env : gmap string string) : Prop :=
  unset_or_empty (env !! "ELEVENLABS_API_KEY")
  /\ unset_or_empty (env !! "NEXT_PUBLIC_ELEVENLABS_API_KEY").

Definition credential_present (env : gmap string string) (key : string) : Prop :=
  key <> ""
  /\ (env !! "ELEVENLABS_API_KEY" = Some key
      \/ (unset_or_empty (env !! "ELEVENLABS_API_KEY")
          /\ env !! "NEXT_PUBLIC_ELEVENLABS_API_KEY" = Some key)).

End Credential.

Module Session.
Import JS SessionPlayer.

(** The session the assessment flow creates (music at 0.4, voice at 0.8), a
    synthesis that yields clips of 3, 5 and 2 seconds, hence a session of
    30 seconds, and the browser without a provider credential. *)
Definition sample_session : SessionConfig :=
  {| duration := 3; voice_id := "female-1";
     layers := {| music_volume := 0.4; voice_volume := 0.8;
                  music_type := "mp3"; music_file := "/MusicBed5min.mp3" |} |}.

Definition sample_outcome : InitOutcome :=
  {| scriptOk := true; music := Some 300%Q; voice := voice_ready 3 5 2 |}.

Definition sample_run (events : list Event) : State :=
  run sample_session VoiceSynthesis.new_FallbackVoiceSynthesis events
      (mounted sample_session sample_outcome).

Definition music_level (s : State) : option Q :=
  option_map Audio.volume (musicAudio s).

(** The same session with clips of 15, 20 and 5 seconds: with the lead-in
    and the outro it lasts exactly one minute. *)
Definition full_minute_outcome : InitOutcome :=
  {| scriptOk := true; music := Some 300%Q; voice := voice_ready 15 20 5 |}.

Definition full_minute_run (events : list Event) : State :=
  run sample_session VoiceSynthesis.new_FallbackVoiceSynthesis events
      (mounted sample_session full_minute_outcome).

(** No narration element has been started: each one is paused at zero. *)
Definition untouched (s : State) : Prop :=
  forall seg a, element seg (audioElementsRef s) = Some a ->
    Audio.paused a = true /\ Audio.currentTime a = 0%Q.

(** A session ready to be started, with its narration loaded. *)
Definition fresh_ready (s : State) : Prop :=
  phase s = ready /\ phaseRef s = ready
  /\ timeouts s = [] /\ timerRef s = None
  /\ currentTime s = 0 /\ VOICE_START_DELAY <= totalTime s
  /\ intro (audioElementsRef s) <> None
  /\ untouched s.

(** The session started at time [t0] is playing at time [t], before the
    lead-in timeout: the timeout is pending, the timer has counted the
    whole seconds since the start, the narration is untouched. *)
Definition leading_in (t0 g0 : Z) (r0 : Render) (t : Z) (s : State) : Prop :=
  phase s = playing /\ phaseRef s = playing
  /\ untouched s /\ intro (audioElementsRef s) <> None
  /\ timeouts s = [{| due := t0 + VOICE_START_DELAY * 1000;
                      callback := cb_voiceStart r0 |}]
  /\ timerRef s = Some {| active := true;
                          next := t0 + 1000 * (currentTime s + 1);
                          closure := r0 |}
  /\ 0 <= currentTime s
  /\ now s = t /\ t0 <= t < t0 + 1000 * (currentTime s + 1)
  /\ ghost_playingMs s = g0 + (t - t0).

(** The session is paused with its narration untouched; what is pending
    are lead-in timeouts. *)
Definition held (g : Z) (s : State) : Prop :=
  phase s = paused /\ phaseRef s = paused
  /\ untouched s /\ intro (audioElementsRef s) <> None
  /\ Forall (fun t => exists r, callback t = cb_voiceStart r) (timeouts s)
  /\ timer_running s = false
  /\ ghost_playingMs s = g.

End Session.

Module Words.
Import JS.



(** Whether the scan ends inside a white-space run. *)
Fixpoint ends_in_gap (in_gap : bool) (s : string) : bool :=
  match s with
  | EmptyString => in_gap
  | String c s' => ends_in_gap (is_white_space c) s'
  end.

End Words.

Module Preference.
Import JS FallbackVoiceSynthesis.

(** The two tests of the voice preference. *)
Definition english (voice : SpeechSynthesisVoice) : bool := includes (lang voice) "en".

Definition female (voice : SpeechSynthesisVoice) : bool :=
  includes (toLowerCase (voice_name voice)) "female".

Definition sample_voices : list SpeechSynthesisVoice :=
  [{| voice_name := "Thomas"; lang := "fr-FR"; gender := None |};
   {| voice_name := "Daniel"; lang := "en-GB"; gender := None |};
   {| voice_name := "Google UK English Female"; lang := "en-GB"; gender := None |}].

End Preference.

Module Reachable.
Import JS SessionPlayer.

Definition no_setReady (l : list Timeout) : Prop :=
  Forall (fun t => callback t <> cb_setReady) l.

(** What every state of a mounted player satisfies, [T] being the total
    time fixed by the initialization: the phase reference follows the
    phase, the elapsed time stays within the total, the interval is active
    exactly in the playing phase and was created in a render that saw the
    same total, the statistics hold one entry once the session is
    completed and none before, and the timeout that ends the loading phase
    is pending exactly in that phase. *)
Definition consistent (T : Z) (s : State) : Prop :=
  totalTime s = T
  /\ phaseRef s = phase s
  /\ 0 <= currentTime s <= T
  /\ match phase s with
     | loading =>
         timerRef s = None /\ currentTime s = 0 /\ userStats s = []
         /\ exists d, timeouts s = [{| due := d; callback := cb_setReady |}]
     | ready =>
         timerRef s = None /\ currentTime s = 0 /\ userStats s = []
         /\ no_setReady (timeouts s)
     | playing =>
         (exists i, timerRef s = Some i /\ active i = true
                    /\ r_totalTime (closure i) = T)
         /\ userStats s = [] /\ no_setReady (timeouts s)
     | paused =>
         timer_running s = false /\ userStats s = [] /\ no_setReady (timeouts s)
     | completed =>
         timerRef s = None /\ (exists m, userStats s = [m])
         /\ no_setReady (timeouts s)
     end.

(** Two states that differ at most in the audio, the volume settings and
    the speech flag. *)
Definition same_core (s' s : State) : Prop :=
  phase s' = phase s /\ phaseRef s' = phaseRef s
  /\ currentTime s' = currentTime s /\ totalTime s' = totalTime s
  /\ timerRef s' = timerRef s /\ timeouts s' = timeouts s
  /\ userStats s' = userStats s
  /\ now s' = now s /\ ghost_playingMs s' = ghost_playingMs s.

(** The same, the pending timeouts apart. *)
Definition same_progress (s' s : State) : Prop :=
  phase s' = phase s /\ phaseRef s' = phaseRef s
  /\ currentTime s' = currentTime s /\ totalTime s' = totalTime s
  /\ timerRef s' = timerRef s /\ userStats s' = userStats s
  /\ now s' = now s /\ ghost_playingMs s' = ghost_playingMs s.

(** The elapsed-time counter against the time spent in the playing phase:
    the counter never runs ahead, and while the interval is pending its
    next tick will not make it run ahead either. *)
Definition timing (s : State) : Prop :=
  1000 * currentTime s <= ghost_playingMs s
  /\ (phase s = playing ->
      forall i, timerRef s = Some i ->
        1000 * (currentTime s + 1) <= ghost_playingMs s + (next i - now s)).

(** No narration clip is playing and the music is not playing. *)
Definition all_paused (s : State) : Prop :=
  (forall seg a, element seg (audioElementsRef s) = Some a -> Audio.paused a = true)
  /\ (forall m, musicAudio s = Some m -> Audio.paused m = true).

(** Audio plays in the playing phase only. *)
Definition quiet (s : State) : Prop := phase s <> playing -> all_paused s.



(** The player waits to be started. *)
Definition waiting (s : State) : Prop :=
  phase s = ready /\ phaseRef s = ready /\ timerRef s = None
  /\ timeouts s = [] /\ currentTime s = 0 /\ all_paused s.




End Reachable.

(* ===================================================================== *)
(** * Properties of doubles *)
(* ===================================================================== *)

Module DoubleFacts.
Import JS.Double.

(** ** Rounding never makes NaN out of a mantissa *)

Lemma iter_pos_invariant {A : Type} (P : A -> Prop) (f : A -> A) :
  (forall a, P a -> P (f a)) -> forall n a, P a -> P (SpecFloat.iter_pos f n a).
Proof.
  intros Hf. induction n as [n IH|n IH|]; intros a Ha; cbn [SpecFloat.iter_pos]; auto.
Qed.

Lemma shr_1_nonneg (mrs : shr_record) : 0 <= shr_m mrs -> 0 <= shr_m (shr_1 mrs).
Proof.
  destruct mrs as [m r s]. cbn [shr_m]. intros Hm.
  destruct m as [|p|p]; [cbn; lia| |lia].
  destruct p; cbn; lia.
Qed.

Lemma shr_nonneg (mrs : shr_record) (e n : Z) :
  0 <= shr_m mrs -> 0 <= shr_m (fst (shr mrs e n)).
Proof.
  intros Hm. destruct n as [|p|p]; cbn [shr fst]; trivial.
  apply (iter_pos_invariant (fun r => 0 <= shr_m r)); [apply shr_1_nonneg|trivial].
Qed.

Lemma shr_fexp_nonneg (m e : Z) (l : location) :
  0 <= m -> 0 <= shr_m (fst (shr_fexp prec emax m e l)).
Proof.
  intros Hm. unfold shr_fexp. apply shr_nonneg.
  destruct l as [|[]]; exact Hm.
Qed.

Lemma round_nearest_even_nonneg (m : Z) (l : location) :
  0 <= m -> 0 <= round_nearest_even m l.
Proof.
  intros Hm. destruct l as [|[]]; cbn [round_nearest_even]; try lia.
  destruct (Z.even m); lia.
Qed.

Lemma binary_round_aux_number (sx : bool) (mx ex : Z) (lx : location) :
  0 <= mx -> binary_round_aux prec emax sx mx ex lx <> S754_nan.
Proof.
  intros Hm. unfold binary_round_aux.
  pose proof (shr_fexp_nonneg mx ex lx Hm) as H1.
  destruct (shr_fexp prec emax mx ex lx) as [mrs' e']. cbn [fst] in H1.
  pose proof (shr_fexp_nonneg _ e' loc_Exact
                (round_nearest_even_nonneg _ (loc_of_shr_record mrs') H1)) as H2.
  destruct (shr_fexp prec emax _ e' loc_Exact) as [mrs'' e'']. cbn [fst] in H2.
  destruct (shr_m mrs'') as [|p|p]; [discriminate| |lia].
  destruct (e'' <=? emax - prec); discriminate.
Qed.

Lemma binary_round_number (sx : bool) (mx : positive) (ex : Z) :
  binary_round prec emax sx mx ex <> S754_nan.
Proof.
  unfold binary_round. destruct (shl_align _ _ _) as [mz ez].
  apply binary_round_aux_number. lia.
Qed.

Lemma binary_normalize_number (m e : Z) (szero : bool) :
  binary_normalize prec emax m e szero <> S754_nan.
Proof.
  destruct m; cbn [binary_normalize]; [discriminate|apply binary_round_number..].
Qed.

(** ** Numbers stay numbers *)

Lemma is_nan_Prim2SF (x : float) : is_nan x = false <-> Prim2SF x <> S754_nan.
Proof.
  unfold Prim2SF. destruct (is_nan x); split; try congruence.
  intros _.
  destruct (is_zero x); [discriminate|].
  destruct (is_infinity x); [discriminate|].
  destruct (Z.frexp x) as [r exp].
  destruct (shr_fexp _ _ _ _ _) as [shr e'].
  destruct (shr_m shr); discriminate.
Qed.

(** Subtracting a finite double from a number gives a number, and so does
    multiplying a number by a finite double other than zero. *)
Lemma sub_number (x y : float) (s : bool) (m : positive) (e : Z) :
  is_nan x = false -> Prim2SF y = S754_finite s m e -> is_nan (x - y) = false.
Proof.
  rewrite !is_nan_Prim2SF, sub_spec. intros Hx ->.
  unfold SF64sub, SFsub.
  destruct (Prim2SF x) as [sx|sx| |sx mx ex]; try discriminate; [contradiction|].
  apply binary_normalize_number.
Qed.

Lemma mul_number (x y : float) (s : bool) (m : positive) (e : Z) :
  is_nan x = false -> Prim2SF y = S754_finite s m e -> is_nan (x * y) = false.
Proof.
  rewrite !is_nan_Prim2SF, mul_spec. intros Hx ->.
  unfold SF64mul, SFmul.
  destruct (Prim2SF x) as [sx|sx| |sx mx ex]; try discriminate; [contradiction|].
  apply binary_round_aux_number. lia.
Qed.

Lemma opp_number (x : float) : is_nan x = false -> is_nan (- x) = false.
Proof.
  rewrite !is_nan_Prim2SF, opp_spec.
  destruct (Prim2SF x); cbn; congruence.
Qed.

Lemma SFldexp_number (x : spec_float) (e : Z) :
  x <> S754_nan -> SFldexp prec emax x e <> S754_nan.
Proof.
  destruct x; cbn [SFldexp]; trivial. intros _. apply binary_round_number.
Qed.

Lemma SF2Prim_number (x : spec_float) : x <> S754_nan -> is_nan (SF2Prim x) = false.
Proof.
  destruct x as [[]|[]| |s m e]; try reflexivity; [intros H; now elim H|].
  intros _. cbn [SF2Prim].
  assert (H : is_nan (Z.ldexp (of_uint63 (Uint63.of_Z (Z.pos m))) e) = false).
  { rewrite is_nan_Prim2SF, Z_ldexp_spec. apply SFldexp_number.
    rewrite of_uint63_spec. apply binary_normalize_number. }
  destruct s; [now apply opp_number|exact H].
Qed.

Lemma of_Z_number (n : Z) : is_nan (of_Z n) = false.
Proof. apply SF2Prim_number, binary_normalize_number. Qed.

Lemma Math_floor_number (x : float) :
  is_nan x = false -> is_nan (Math_floor x) = false.
Proof.
  intros Hx. unfold Math_floor.
  destruct (Prim2SF x) as [| | |s m e]; trivial.
  destruct (e <? 0); [apply of_Z_number|trivial].
Qed.

(** ** Comparisons *)

Lemma leb_number_r (a b : float) : (a <=? b)%float = true -> is_nan b = false.
Proof.
  rewrite FloatAxioms.leb_spec, is_nan_Prim2SF. unfold SFleb, SFcompare.
  destruct (Prim2SF a), (Prim2SF b); congruence.
Qed.

Lemma ltb_number_r (a b : float) : (a <? b)%float = true -> is_nan b = false.
Proof.
  rewrite FloatAxioms.ltb_spec, is_nan_Prim2SF. unfold SFltb, SFcompare.
  destruct (Prim2SF a), (Prim2SF b); congruence.
Qed.

Lemma ltb_leb (a b : float) : (a <? b)%float = true -> (a <=? b)%float = true.
Proof.
  rewrite FloatAxioms.ltb_spec, FloatAxioms.leb_spec. unfold SFltb, SFleb.
  destruct (SFcompare _ _) as [[]|]; congruence.
Qed.

(** What lies above fifty lies above zero. *)
Lemma above_fifty (w : float) : (50 <? w)%float = true -> (0 <=? w)%float = true.
Proof.
  rewrite FloatAxioms.ltb_spec, FloatAxioms.leb_spec.
  change (Prim2SF 50) with (S754_finite false 7036874417766400 (-47)).
  change (Prim2SF 0) with (S754_zero false).
  unfold SFltb, SFleb, SFcompare.
  destruct (Prim2SF w) as [s|[]| |[] m e]; try discriminate; reflexivity.
Qed.

(** Two doubles with different representations differ. *)
Lemma different (x y : float) : Prim2SF x <> Prim2SF y -> x <> y.
Proof. intros H ->. now apply H. Qed.

End DoubleFacts.

(* ===================================================================== *)
(** * Properties of the word budget *)
(* ===================================================================== *)

Module WordBudgetFacts.
Import JS PromptTemplateManager WordBudget DoubleFacts.

Lemma calculateMaxWordCount_unfold (D : float) :
  calculateMaxWordCount D = Double.Math_max 50 (plain_budget D).
Proof. reflexivity. Qed.

(** The floor the budget is computed from is a number whenever the
    requested duration is one. *)
Lemma plain_budget_number (D : float) :
  is_nan D = false -> is_nan (plain_budget D) = false.
Proof.
  intros HD. unfold plain_budget. apply Math_floor_number.
  eapply mul_number; [|vm_compute; reflexivity].
  eapply sub_number; [|vm_compute; reflexivity].
  eapply sub_number; [exact HD|vm_compute; reflexivity].
Qed.

(** C5, as stated, fails: a one-minute session lies above the lead-in plus
    the outro, yet its budget is the minimum of 50 words and not the plain
    floor, which is 49. *)
Lemma calculateMaxWordCount_one_minute :
  ~ (forall D : float, (10 / 60 + 0.17 <? D)%float = true ->
       calculateMaxWordCount D
       = Double.Math_floor ((D - 10 / 60 - 0.17) * 75)%float).
Proof.
  intros H.
  assert (H1 : (10 / 60 + 0.17 <? 1)%float = true) by reflexivity.
  specialize (H 1%float H1). revert H. apply different.
  vm_compute. discriminate.
Qed.

(** C5, amended: the budget is the larger of 50 and the plain floor, the
    floor being computed on doubles as the code computes it.  It is the
    plain floor whenever that floor exceeds 50, and 50 otherwise; so for
    every requested duration of at least zero it is at least 50 and never
    negative. *)
Theorem calculateMaxWordCount_clamped (D : float) :
  calculateMaxWordCount D = Double.Math_max 50 (plain_budget D)
  /\ ((50 <? plain_budget D)%float = true ->
      calculateMaxWordCount D = plain_budget D)
  /\ ((0 <=? D)%float = true -> (50 <? plain_budget D)%float = false ->
      calculateMaxWordCount D = 50%float)
  /\ ((0 <=? D)%float = true ->
      (50 <=? calculateMaxWordCount D)%float = true
      /\ (0 <=? calculateMaxWordCount D)%float = true).
Proof.
  rewrite calculateMaxWordCount_unfold. unfold Double.Math_max.
  change (is_nan 50) with false. change (get_sign 50) with false. cbn [orb].
  split; [reflexivity|]. split; [|split].
  - intros H. rewrite (ltb_number_r _ _ H), H. reflexivity.
  - intros HD H. rewrite (plain_budget_number D (leb_number_r _ _ HD)), H.
    now destruct (plain_budget D <? 50)%float.
  - intros HD. rewrite (plain_budget_number D (leb_number_r _ _ HD)).
    destruct (50 <? plain_budget D)%float eqn:H.
    + split; [now apply ltb_leb|now apply above_fifty].
    + destruct (plain_budget D <? 50)%float; split; reflexivity.
Qed.

Lemma calculateMaxWordCount_clamped_witness :
  ((50 <? plain_budget 3)%float = true
   /\ calculateMaxWordCount 3 = plain_budget 3)
  /\ ((0 <=? 1)%float = true /\ (50 <? plain_budget 1)%float = false
      /\ calculateMaxWordCount 1 = 50%float)
  /\ (50 <=? calculateMaxWordCount 1)%float = true.
Proof.
  split; [split|split; [split; [|split]|]].
  - reflexivity.
  - apply (calculateMaxWordCount_clamped 3). reflexivity.
  - reflexivity.
  - reflexivity.
  - apply (calculateMaxWordCount_clamped 1); reflexivity.
  - apply (calculateMaxWordCount_clamped 1). reflexivity.
Defined.

(** The three durations the assessment flow offers. *)
Remark calculateMaxWordCount_offered :
  calculateMaxWordCount 1 = 50%float
  /\ calculateMaxWordCount 3 = 199%float
  /\ calculateMaxWordCount 5 = 349%float.
Proof. repeat split. Qed.

(** On a whole number of minutes, up to ten hours, the budget computed on
    doubles is the one exact arithmetic gives. *)
Lemma calculateMaxWordCount_whole_minutes (n : Z) :
  0 <= n <= 600 ->
  calculateMaxWordCount (Double.of_Z n) = Double.of_Z (Z.max 50 (exact_budget n)).
Proof.
  intros Hn.
  assert (H : forallb (fun k =>
                let n := Z.of_nat k in
                PrimFloat.Leibniz.eqb (calculateMaxWordCount (Double.of_Z n))
                  (Double.of_Z (Z.max 50 (exact_budget n))))
                (seq 0 601) = true) by (vm_compute; reflexivity).
  rewrite forallb_forall in H.
  specialize (H (Z.to_nat n)). cbv zeta in H.
  rewrite Z2Nat.id in H by lia.
  apply FloatAxioms.Leibniz.eqb_spec, H, in_seq. lia.
Qed.

(** Between whole minutes the two can differ: at 16.75 minutes exact
    arithmetic gives 1231 words, the doubles of the code 1230. *)
Remark calculateMaxWordCount_rounds :
  calculateMaxWordCount 16.75 = 1230%float
  /\ Math_floor ((Double.to_Q 16.75 - 10 / 60 - 0.17) * 75)%Q = 1231.
Proof. split; reflexivity. Qed.

End WordBudgetFacts.

(* ===================================================================== *)
(** * Global replacement on templates *)
(* ===================================================================== *)

Module TemplateFacts.
Import JS PromptTemplateManager Template.

(** ** Strings *)


Lemma append_cons (c : ascii) (s t : string) : String c s +:+ t = String c (s +:+ t).
Proof. reflexivity. Qed.

Lemma append_assoc (s t u : string) : (s +:+ t) +:+ u = s +:+ (t +:+ u).
Proof.
  induction s as [|c s IH]; [reflexivity|].
  rewrite !append_cons. now rewrite IH.
Qed.

Lemma contains_char_append (c : ascii) (s t : string) :
  contains_char c (s +:+ t) = contains_char c s || contains_char c t.
Proof.
  induction s as [|d s IH]; [reflexivity|].
  rewrite append_cons. simpl. rewrite IH. now rewrite orb_assoc.
Qed.

Lemma prefix_append (pat rest : string) : String.prefix pat (pat +:+ rest) = true.
Proof.
  induction pat as [|c pat IH]; [destruct rest; reflexivity|].
  rewrite append_cons. simpl. destruct (ascii_dec c c); [exact IH | congruence].
Qed.

Lemma prefix_head (c d : ascii) (pat s : string) :
  c <> d -> String.prefix (String c pat) (String d s) = false.
Proof. intros Hne. simpl. destruct (ascii_dec c d); [contradiction | reflexivity]. Qed.

Lemma eqb_false_neq (c d : ascii) : Ascii.eqb c d = false -> c <> d.
Proof. intros H. now apply Ascii.eqb_neq. Qed.

(** ** The replacement of a plain value *)

Lemma getSubstitution_plain (matched before after v : string) :
  contains_char "$" v = false -> getSubstitution matched before after v = v.
Proof.
  induction v as [|c v IH]; [reflexivity|].
  simpl. intros H. apply orb_false_iff in H as [Hc Hv].
  rewrite Hc. now rewrite IH.
Qed.

Lemma replace_from_cons (pat v before : string) (skip : nat) (c : ascii) (s : string) :
  replace_from pat v before skip (String c s)
  = match skip with
    | S k => replace_from pat v (before +:+ String c EmptyString) k s
    | O =>
        if String.prefix pat (String c s)
        then getSubstitution pat before
               (string_drop (String.length pat) (String c s)) v
             +:+ replace_from pat v (before +:+ String c EmptyString)
                   (String.length pat - 1) s
        else String c (replace_from pat v (before +:+ String c EmptyString) 0 s)
    end.
Proof. reflexivity. Qed.

Lemma replace_plain_cons (pat v : string) (skip : nat) (c : ascii) (s : string) :
  replace_plain pat v skip (String c s)
  = match skip with
    | S k => replace_plain pat v k s
    | O =>
        if String.prefix pat (String c s)
        then v +:+ replace_plain pat v (String.length pat - 1) s
        else String c (replace_plain pat v 0 s)
    end.
Proof. reflexivity. Qed.

Lemma replace_from_plain (pat v : string) :
  contains_char "$" v = false ->
  forall s before skip,
    replace_from pat v before skip s = replace_plain pat v skip s.
Proof.
  intros Hv. induction s as [|c s IH]; intros before skip; [reflexivity|].
  rewrite replace_from_cons, replace_plain_cons. destruct skip as [|k].
  - destruct (String.prefix pat (String c s)).
    + rewrite getSubstitution_plain by exact Hv. now rewrite IH.
    + now rewrite IH.
  - apply IH.
Qed.

Lemma replace_g_plain (pat v s : string) :
  contains_char "$" v = false -> replace_g pat v s = replace_plain pat v 0 s.
Proof. intros Hv. unfold replace_g. now apply replace_from_plain. Qed.

Lemma replace_plain_skip (pat v t rest : string) :
  replace_plain pat v (String.length t) (t +:+ rest) = replace_plain pat v 0 rest.
Proof.
  induction t as [|c t IH].
  - destruct rest; reflexivity.
  - rewrite append_cons. change (String.length (String c t)) with (S (String.length t)).
    rewrite replace_plain_cons. exact IH.
Qed.

Lemma replace_plain_match (c : ascii) (pat' v rest : string) :
  replace_plain (String c pat') v 0 (String c pat' +:+ rest)
  = v +:+ replace_plain (String c pat') v 0 rest.
Proof.
  rewrite append_cons, replace_plain_cons.
  rewrite <- append_cons, prefix_append.
  replace (String.length (String c pat') - 1)%nat with (String.length pat')
    by (simpl; lia).
  now rewrite replace_plain_skip.
Qed.

Lemma replace_plain_text (c : ascii) (pat' v t rest : string) :
  contains_char c t = false ->
  replace_plain (String c pat') v 0 (t +:+ rest)
  = t +:+ replace_plain (String c pat') v 0 rest.
Proof.
  induction t as [|d t IH]; intros Ht; [reflexivity|].
  simpl in Ht. apply orb_false_iff in Ht as [Hd Ht].
  rewrite !append_cons, replace_plain_cons.
  rewrite prefix_head.
  - now rewrite IH.
  - intros ->. rewrite Ascii.eqb_refl in Hd. discriminate.
Qed.

(** ** Holes *)

Lemma placeholder_unfold (name : string) :
  placeholder name = String "{" (String "{" (name +:+ "}}")).
Proof. reflexivity. Qed.

Lemma placeholder_append (name rest : string) :
  placeholder name +:+ rest = String "{" (String "{" (name +:+ "}}" +:+ rest)).
Proof. rewrite placeholder_unfold, !append_cons. now rewrite append_assoc. Qed.

Lemma prefix_name_inj (n m rest : string) :
  contains_char "}" n = false -> contains_char "}" m = false ->
  String.prefix (n +:+ "}}") (m +:+ "}}" +:+ rest) = true -> n = m.
Proof.
  revert m. induction n as [|a n IH]; intros m Hn Hm Hp.
  - destruct m as [|c m]; [reflexivity|].
    simpl in Hm. apply orb_false_iff in Hm as [Hc _].
    rewrite append_cons in Hp.
    change ("" +:+ "}}") with (String "}" "}") in Hp.
    rewrite prefix_head in Hp; [discriminate|].
    intros <-. discriminate Hc.
  - simpl in Hn. apply orb_false_iff in Hn as [Ha Hn].
    destruct m as [|c m].
    + change ("" +:+ "}}" +:+ rest) with (String "}" (String "}" rest)) in Hp.
      rewrite append_cons, prefix_head in Hp; [discriminate|].
      intros ->. discriminate Ha.
    + simpl in Hm. apply orb_false_iff in Hm as [_ Hm].
      rewrite !append_cons in Hp. simpl in Hp.
      destruct (ascii_dec a c) as [->|]; [|discriminate].
      f_equal. now apply IH.
Qed.

Lemma prefix_placeholder_inj (n m rest : string) :
  contains_char "}" n = false -> contains_char "}" m = false ->
  String.prefix (placeholder n) (placeholder m +:+ rest) = true -> n = m.
Proof.
  intros Hn Hm Hp. rewrite placeholder_unfold, placeholder_append in Hp.
  simpl in Hp. now apply prefix_name_inj in Hp.
Qed.

Lemma prefix_text (c : ascii) (pat' t rest : string) :
  contains_char c t = false -> t <> EmptyString ->
  String.prefix (String c pat') (t +:+ rest) = false.
Proof.
  intros Ht Hne. destruct t as [|d t]; [contradiction|].
  simpl in Ht. apply orb_false_iff in Ht as [Hd _].
  rewrite append_cons. apply prefix_head.
  intros ->. rewrite Ascii.eqb_refl in Hd. discriminate.
Qed.

Lemma replace_plain_other_hole (n m v rest : string) :
  contains_char "}" n = false ->
  contains_char "{" m = false -> contains_char "}" m = false ->
  n <> m ->
  replace_plain (placeholder n) v 0 (placeholder m +:+ rest)
  = placeholder m +:+ replace_plain (placeholder n) v 0 rest.
Proof.
  intros Hn Hm1 Hm2 Hne.
  assert (Hp : String.prefix (placeholder n) (placeholder m +:+ rest) = false).
  { destruct (String.prefix (placeholder n) (placeholder m +:+ rest)) eqn:E;
      [|reflexivity].
    apply prefix_placeholder_inj in E; [contradiction|assumption|assumption]. }
  rewrite placeholder_append in *.
  rewrite replace_plain_cons, Hp.
  rewrite replace_plain_cons.
  rewrite (placeholder_unfold n) at 1.
  change (String.prefix (String "{" (String "{" (n +:+ "}}")))
            (String "{" (m +:+ "}}" +:+ rest)))
    with (String.prefix (String "{" (n +:+ "}}")) (m +:+ "}}" +:+ rest)).
  rewrite <- (append_assoc m "}}" rest).
  rewrite prefix_text.
  - rewrite (placeholder_unfold n).
    rewrite replace_plain_text.
    + reflexivity.
    + rewrite contains_char_append, Hm1. reflexivity.
  - rewrite contains_char_append, Hm1. reflexivity.
  - destruct m; discriminate.
Qed.

Lemma replace_plain_render (name v : string) (ps : list Piece) :
  contains_char "}" name = false ->
  Forall well_formed ps ->
  replace_plain (placeholder name) v 0 (render ps)
  = render (map (fill name v) ps).
Proof.
  intros Hname Hwf. induction Hwf as [|p ps Hp Hps IH]; [reflexivity|].
  destruct p as [text|m]; cbn [render render_piece map fill].
  - rewrite (placeholder_unfold name), replace_plain_text by exact Hp.
    rewrite <- (placeholder_unfold name). now rewrite IH.
  - destruct Hp as [Hm1 Hm2]. destruct (String.eqb_spec m name) as [->|Hne];
      cbn [render_piece].
    + rewrite (placeholder_unfold name), replace_plain_match.
      rewrite <- (placeholder_unfold name). now rewrite IH.
    + rewrite replace_plain_other_hole by auto. now rewrite IH.
Qed.

Lemma fill_well_formed (name v : string) (ps : list Piece) :
  contains_char "{" v = false ->
  Forall well_formed ps -> Forall well_formed (map (fill name v) ps).
Proof.
  intros Hv Hwf. induction Hwf as [|p ps Hp Hps IH]; constructor; [|exact IH].
  destruct p as [text|m]; simpl; [exact Hp|].
  destruct (String.eqb m name); [exact Hv | exact Hp].
Qed.

(** One [replace] call of [generatePrompt] on a well-formed template. *)
Lemma replace_g_render (name v : string) (ps : list Piece) :
  contains_char "}" name = false -> plain v ->
  Forall well_formed ps ->
  replace_g (placeholder name) v (render ps) = render (map (fill name v) ps)
  /\ Forall well_formed (map (fill name v) ps).
Proof.
  intros Hname [Hv1 Hv2] Hwf. split.
  - rewrite replace_g_plain by exact Hv2. now apply replace_plain_render.
  - now apply fill_well_formed.
Qed.

(** ** The printed word count *)

Lemma string_of_uint_chars (c : ascii) (d : Decimal.uint) :
  contains_char c "0123456789-" = false ->
  contains_char c (NilEmpty.string_of_uint d) = false.
Proof.
  intros Hc. induction d as [|d IH|d IH|d IH|d IH|d IH|d IH|d IH|d IH|d IH|d IH];
    [reflexivity|..];
    cbn [NilEmpty.string_of_uint contains_char]; rewrite IH, orb_false_r;
    cbn [contains_char] in Hc; repeat (apply orb_false_iff in Hc as [? Hc]);
    assumption.
Qed.

Lemma toString_chars (c : ascii) (n : Z) :
  contains_char c "0123456789-" = false -> contains_char c (toString n) = false.
Proof.
  intros Hc. unfold toString, NilZero.string_of_int.
  assert (Hu : forall d, contains_char c (NilZero.string_of_uint d) = false).
  { intros d. unfold NilZero.string_of_uint.
    destruct d; try (now apply string_of_uint_chars).
    cbn [contains_char] in *. repeat (apply orb_false_iff in Hc as [? Hc]).
    now rewrite orb_false_r. }
  destruct (Z.to_int n) as [d|d]; [apply Hu|].
  cbn [contains_char]. rewrite Hu, orb_false_r.
  cbn [contains_char] in Hc.
  repeat (apply orb_false_iff in Hc as [? Hc]). assumption.
Qed.

Lemma toString_plain (n : Z) : plain (toString n).
Proof. split; now apply toString_chars. Qed.

(** ** The six replacements *)

Lemma or_else_eqb (x d : string) :
  or_else x d = if String.eqb x "" then d else x.
Proof. destruct x; reflexivity. Qed.

Lemma or_else_plain (x d : string) : plain x -> plain d -> plain (or_else x d).
Proof. intros Hx Hd. unfold or_else. now destruct (truthy x). Qed.

Lemma render_fill_all (variables : PromptVariables) (p : Piece) :
  render_piece (fill_all variables p) = instantiate_piece variables p.
Proof.
  destruct p as [text|m]; [reflexivity|].
  unfold fill_all, instantiate_piece, placeholder_value.
  rewrite !or_else_eqb.
  cbn [fill].
  destruct (String.eqb m "Wisdom_Source_Name"); [reflexivity|]. cbn [fill].
  destruct (String.eqb m "Wisdom_Snippet"); [reflexivity|]. cbn [fill].
  destruct (String.eqb m "User_Primer"); [reflexivity|]. cbn [fill].
  destruct (String.eqb m "User_Goal"); [reflexivity|]. cbn [fill].
  destruct (String.eqb m "User_Feelings_List"); [reflexivity|]. cbn [fill].
  destruct (String.eqb m "Max_Word_Count"); reflexivity.
Qed.

Lemma render_map_fill_all (variables : PromptVariables) (ps : list Piece) :
  render (map (fill_all variables) ps) = instantiate variables ps.
Proof.
  induction ps as [|p ps IH]; [reflexivity|].
  cbn [map render instantiate]. now rewrite render_fill_all, IH.
Qed.

Lemma fillTemplate_render (variables : PromptVariables) (ps : list Piece) :
  Forall well_formed ps -> plain_variables variables ->
  fillTemplate (render ps) variables = instantiate variables ps.
Proof.
  intros Hwf (H1 & H2 & H3 & H4 & H5).
  assert (Hd1 : plain "No specific primer provided") by (split; reflexivity).
  assert (Hd2 : plain "None specified") by (split; reflexivity).
  unfold fillTemplate.
  destruct (replace_g_render "Wisdom_Source_Name" _ ps eq_refl H1 Hwf) as [-> W1].
  destruct (replace_g_render "Wisdom_Snippet" _ _ eq_refl H2 W1) as [-> W2].
  destruct (replace_g_render "User_Primer" _ _ eq_refl
              (or_else_plain _ _ H3 Hd1) W2) as [-> W3].
  destruct (replace_g_render "User_Goal" _ _ eq_refl H4 W3) as [-> W4].
  destruct (replace_g_render "User_Feelings_List" _ _ eq_refl
              (or_else_plain _ _ H5 Hd2) W4) as [-> W5].
  destruct (replace_g_render "Max_Word_Count" _ _ eq_refl
              (toString_plain (Max_Word_Count variables)) W5) as [-> _].
  rewrite !map_map. apply render_map_fill_all.
Qed.

Lemma placeholder_value_unknown (variables : PromptVariables) (name : string) :
  ~ In name known_placeholders -> placeholder_value variables name = None.
Proof.
  intros Hn. unfold placeholder_value.
  repeat match goal with
  | |- context [String.eqb name ?k] =>
      destruct (String.eqb_spec name k) as [->|_];
      [exfalso; apply Hn; cbn; tauto|]
  end.
  reflexivity.
Qed.

End TemplateFacts.

(* ===================================================================== *)
(** * Properties of prompt generation *)
(* ===================================================================== *)

Module PromptFacts.
Import JS PromptTemplateManager Template TemplateFacts.

Lemma fallback_template_pieces :
  getFallbackTemplate = render fallback_pieces /\ Forall well_formed fallback_pieces.
Proof.
  split; [reflexivity|].
  repeat constructor.
Qed.

Lemma generatePrompt_unfold (cache : option string) (file : Exc string)
    (variables : PromptVariables) :
  fst (generatePrompt cache file variables)
  = bind (fst (loadTemplate cache file))
         (fun template => Ok (fillTemplate template variables)).
Proof. unfold generatePrompt. now destruct (loadTemplate cache file). Qed.

Lemma loadTemplate_returns (cache : option string) (file : Exc string) :
  exists template, fst (loadTemplate cache file) = Ok template.
Proof.
  unfold loadTemplate, try_catch.
  destruct cache as [cached|]; [destruct (truthy cached)|];
    try (eexists; reflexivity);
    destruct (loadTemplate_try file); eexists; reflexivity.
Qed.

Lemma loadTemplate_try_unavailable (file : Exc string) :
  resource_unavailable file -> exists e, loadTemplate_try file = Throw e.
Proof.
  destruct file as [text|e]; intros H; [|now exists e].
  unfold loadTemplate_try, bind. simpl in H.
  destruct H as [H|H]; rewrite H; eexists.
  - reflexivity.
  - rewrite orb_true_r. reflexivity.
Qed.

(** Where prompt generation does what it is meant to do: on a template
    made of brace-free text and of holes, with values that carry no opening
    brace and no dollar sign, [generatePrompt] returns the template with
    every hole of a known placeholder replaced by its value, at each of its
    occurrences, and every other hole left as it was.  The value of a
    missing (empty) primer is the sentence "No specific primer provided",
    that of a missing feelings list "None specified". *)
Theorem generatePrompt_fills_every_hole :
  (forall (cache : option string) (file : Exc string) (ps : list Piece)
          (variables : PromptVariables),
      fst (loadTemplate cache file) = Ok (render ps) ->
      Forall well_formed ps -> plain_variables variables ->
      fst (generatePrompt cache file variables) = Ok (instantiate variables ps))
  /\ (forall variables : PromptVariables,
        User_Primer variables = "" ->
        placeholder_value variables "User_Primer" = Some "No specific primer provided")
  /\ (forall variables : PromptVariables,
        User_Feelings_List variables = "" ->
        placeholder_value variables "User_Feelings_List" = Some "None specified")
  /\ (forall (variables : PromptVariables) (name : string),
        ~ In name known_placeholders -> placeholder_value variables name = None).
Proof.
  split; [|split; [|split]].
  - intros cache file ps variables Hload Hwf Hplain.
    rewrite generatePrompt_unfold, Hload. cbn [bind].
    now rewrite fillTemplate_render.
  - intros variables H. unfold placeholder_value. cbn. now rewrite H.
  - intros variables H. unfold placeholder_value. cbn. now rewrite H.
  - intros variables name. apply placeholder_value_unknown.
Qed.

Lemma generatePrompt_fills_every_hole_witness :
  fst (generatePrompt (Some (render sample_pieces)) (Throw "ENOENT") sample_variables)
  = Ok "Goal: calm (again: calm), mood {{Mood}}, primer: No specific primer provided, feelings: None specified, at most 199 words."
  /\ placeholder_value sample_variables "User_Primer" = Some "No specific primer provided"
  /\ placeholder_value sample_variables "User_Feelings_List" = Some "None specified"
  /\ placeholder_value sample_variables "Mood" = None.
Proof.
  destruct generatePrompt_fills_every_hole as (H1 & H2 & H3 & H4).
  split; [|split; [|split]].
  - apply (H1 (Some (render sample_pieces)) (Throw "ENOENT") sample_pieces
              sample_variables).
    + reflexivity.
    + repeat constructor.
    + repeat split.
  - apply H2. reflexivity.
  - apply H3. reflexivity.
  - apply H4. cbn. intuition discriminate.
Defined.

(** C6 fails on a value that holds a dollar sequence.  The value is handed
    to [replace] as the replacement string, so the runtime reads [$$] as one
    dollar sign and [$&] as the matched text: the primer does not reach the
    prompt as the user typed it, and its placeholder is still there after
    the replacement, in a cached template and in the built-in one alike. *)
Theorem generatePrompt_dollar_primer :
  fst (generatePrompt (Some "Primer: {{User_Primer}}. Goal: {{User_Goal}}.")
         (Throw "ENOENT") dollar_variables)
  = Ok "Primer: less $ worry, more {{User_Primer}} rest. Goal: calm."
  /\ exists prompt,
       fst (generatePrompt None (Throw "ENOENT") dollar_variables) = Ok prompt
       /\ occurs (placeholder "User_Primer") prompt = true
       /\ occurs (User_Primer dollar_variables) prompt = false
       /\ no_placeholder_left prompt = false.
Proof.
  split; [reflexivity|].
  eexists. split; [reflexivity|]. repeat split; vm_compute; reflexivity.
Qed.

(** C7.  When the cache is empty and the template resource cannot be
    loaded, [loadTemplate] hands out the built-in template and raises
    nothing; and whatever the cache and the resource, the caller of
    [generatePrompt] receives a string. *)
Theorem loadTemplate_falls_back :
  (forall (cache : option string) (file : Exc string),
      truthy_opt cache = false -> resource_unavailable file ->
      loadTemplate cache file = (Ok getFallbackTemplate, cache))
  /\ (forall (cache : option string) (file : Exc string) (variables : PromptVariables),
        exists prompt, fst (generatePrompt cache file variables) = Ok prompt).
Proof.
  split.
  - intros cache file Hcache Hfile. unfold loadTemplate.
    destruct (loadTemplate_try_unavailable file Hfile) as [e ->].
    destruct cache as [cached|]; [|reflexivity].
    cbn in Hcache. rewrite Hcache. reflexivity.
  - intros cache file variables. rewrite generatePrompt_unfold.
    destruct (loadTemplate_returns cache file) as [template ->].
    eexists. reflexivity.
Qed.

Lemma loadTemplate_falls_back_witness :
  loadTemplate None (Throw "ENOENT: no such file or directory")
  = (Ok getFallbackTemplate, None)
  /\ loadTemplate (Some "") (Ok "a file without the two markers")
     = (Ok getFallbackTemplate, Some "").
Proof.
  destruct loadTemplate_falls_back as [H _]. split.
  - apply H; [reflexivity | exact I].
  - apply H; [reflexivity | left; reflexivity].
Defined.

Lemma occurs_cons (pat : string) (c : ascii) (s : string) :
  occurs pat (String c s) = String.prefix pat (String c s) || occurs pat s.
Proof. reflexivity. Qed.

Lemma replace_from_absent (pat v : string) :
  forall s before, occurs pat s = false -> replace_from pat v before 0 s = s.
Proof.
  induction s as [|c s IH]; intros before H; [reflexivity|].
  rewrite occurs_cons in H. apply orb_false_iff in H as [Hp Hs].
  rewrite replace_from_cons, Hp. now rewrite IH.
Qed.

Lemma replace_g_absent (name v s : string) :
  no_placeholder_left s = true -> In name known_placeholders ->
  replace_g (placeholder name) v s = s.
Proof.
  intros H Hin. unfold replace_g. apply replace_from_absent.
  unfold no_placeholder_left in H. rewrite forallb_forall in H.
  specialize (H name Hin). now apply negb_true_iff in H.
Qed.

(** C8.  Once no known placeholder is left in its output, applying the
    substitution to that output again changes nothing. *)
Theorem fillTemplate_idempotent (template : string) (variables : PromptVariables) :
  no_placeholder_left (fillTemplate template variables) = true ->
  fillTemplate (fillTemplate template variables) variables
  = fillTemplate template variables.
Proof.
  intros H. set (out := fillTemplate template variables) in *.
  unfold fillTemplate at 1.
  rewrite !(replace_g_absent _ _ out H); [reflexivity|cbn; tauto..].
Qed.

Lemma fillTemplate_idempotent_witness :
  no_placeholder_left (fillTemplate getFallbackTemplate sample_variables) = true
  /\ fillTemplate (fillTemplate getFallbackTemplate sample_variables) sample_variables
     = fillTemplate getFallbackTemplate sample_variables.
Proof.
  split.
  - vm_compute. reflexivity.
  - apply (fillTemplate_idempotent getFallbackTemplate sample_variables).
    vm_compute. reflexivity.
Defined.

(** Without that proviso a second pass can still change the text: a value
    may itself spell a placeholder whose turn has passed. *)
Remark fillTemplate_second_pass_can_differ :
  let variables :=
    {| Wisdom_Source_Name := "w"; Wisdom_Snippet := "s"; User_Primer := "p";
       User_Goal := "{{Wisdom_Snippet}}"; User_Feelings_List := "f";
       Max_Word_Count := 50 |} in
  fillTemplate "{{User_Goal}}" variables = "{{Wisdom_Snippet}}"
  /\ fillTemplate (fillTemplate "{{User_Goal}}" variables) variables = "s".
Proof. split; reflexivity. Qed.

(** A replacement value is a pattern: its dollar sequences are expanded at
    every match. *)
Remark fillTemplate_expands_dollar_patterns :
  fillTemplate "Goal: {{User_Goal}}."
    {| Wisdom_Source_Name := "w"; Wisdom_Snippet := "s"; User_Primer := "p";
       User_Goal := "save $$ and $&"; User_Feelings_List := "f";
       Max_Word_Count := 50 |}
  = "Goal: save $ and {{User_Goal}}.".
Proof. reflexivity. Qed.

End PromptFacts.

(* ===================================================================== *)
(** * Properties of voice synthesis *)
(* ===================================================================== *)

Module VoiceFacts.
Import JS VoiceSynthesis Credential.

Lemma truthy_nonempty (s : string) : s <> "" -> truthy s = true.
Proof. destruct s; [contradiction | reflexivity]. Qed.

(** C9.  Without a credential the factory returns the browser-speech
    fallback; with one it returns the provider-backed synthesizer holding
    that credential. *)
Theorem createVoiceSynthesis_selects (env : gmap string string) :
  (credential_absent env -> createVoiceSynthesis env = new_FallbackVoiceSynthesis)
  /\ (forall key, credential_present env key ->
        createVoiceSynthesis env = new_VoiceSynthesis key).
Proof.
  unfold createVoiceSynthesis. split.
  - intros [[-> | ->] [-> | ->]]; reflexivity.
  - intros key [Hne [H1 | [[H1 | H1] H2]]].
    + rewrite H1. cbn. rewrite (truthy_nonempty key Hne). cbn.
      now rewrite (truthy_nonempty key Hne).
    + rewrite H1, H2. cbn. now rewrite (truthy_nonempty key Hne).
    + rewrite H1, H2. cbn. now rewrite (truthy_nonempty key Hne).
Qed.

Lemma createVoiceSynthesis_selects_witness :
  createVoiceSynthesis ∅ = new_FallbackVoiceSynthesis
  /\ createVoiceSynthesis (<["ELEVENLABS_API_KEY" := "sk_live"]> ∅)
     = new_VoiceSynthesis "sk_live".
Proof.
  split.
  - apply (createVoiceSynthesis_selects ∅). split; left; reflexivity.
  - apply (createVoiceSynthesis_selects (<["ELEVENLABS_API_KEY" := "sk_live"]> ∅)).
    split; [discriminate|]. left. reflexivity.
Defined.

Lemma voices_lookup_unknown (voiceId : string) :
  ~ In voiceId known_voice_keys -> voices !! voiceId = None.
Proof.
  intros H. unfold voices.
  rewrite !lookup_insert_ne; [apply lookup_empty|..];
    intros <-; apply H; cbn; tauto.
Qed.

Lemma existsb_eqb_false (key : string) (l : list string) :
  ~ In key l -> existsb (String.eqb key) l = false.
Proof.
  intros H. destruct (existsb (String.eqb key) l) eqn:E; [|reflexivity].
  apply existsb_exists in E as (x & Hx & Heq).
  apply String.eqb_eq in Heq. subst x. contradiction.
Qed.

Section Synthesis.

Variable processScriptText : string -> Q -> string.

(** A known voice key leads to the synthesis request for that voice. *)
Lemma synthesizeText_known (apiKey text voiceId : string) (speed : Q) :
  In voiceId known_voice_keys ->
  exists v req k,
    voices !! voiceId = Some v
    /\ synthesizeText processScriptText apiKey text voiceId speed = Fetch req k
    /\ url req = baseUrl +:+ "/text-to-speech/" +:+ id v.
Proof.
  intros H. cbn in H.
  destruct H as [<- | [<- | [<- | [<- | []]]]];
    eexists; eexists; eexists; (split; [reflexivity|]); split; reflexivity.
Qed.

(** A key that is neither a voice key nor a property of [Object.prototype]
    makes [synthesizeText] throw before any request. *)
Lemma synthesizeText_unknown (apiKey text voiceId : string) (speed : Q) :
  ~ In voiceId known_voice_keys -> ~ In voiceId Object_prototype ->
  synthesizeText processScriptText apiKey text voiceId speed
  = Raise ("Voice ID " +:+ voiceId +:+ " not found").
Proof.
  intros H1 H2. unfold synthesizeText, get.
  rewrite (voices_lookup_unknown voiceId H1).
  now rewrite (existsb_eqb_false voiceId Object_prototype H2).
Qed.

(** C10 fails at the voice identifier "constructor": it is none of the four
    voice keys, yet the lookup finds the property every object inherits,
    nothing is thrown, and a request goes out for the voice "undefined". *)
Theorem synthesizeText_inherited_key (apiKey text : string) (speed : Q) :
  ~ In "constructor" known_voice_keys
  /\ makes_request (synthesizeText processScriptText apiKey text "constructor" speed)
     = true
  /\ exists req k,
       synthesizeText processScriptText apiKey text "constructor" speed = Fetch req k
       /\ url req = "https://api.elevenlabs.io/v1/text-to-speech/undefined".
Proof.
  split; [|split].
  - cbn. intuition discriminate.
  - reflexivity.
  - eexists. eexists. split; reflexivity.
Qed.

End Synthesis.

End VoiceFacts.

(* ===================================================================== *)
(** * Properties of the session player *)
(* ===================================================================== *)

Module PlayerFacts.
Import JS SessionPlayer Session DoubleFacts.

(** ** Initialization *)

(** C2, as stated, fails: the total the page displays is in whole minutes.
    With clips of 12, 90 and 15 seconds the page does not show the ceiling
    of the session's 137 seconds. *)
Lemma displayed_total_is_in_minutes :
  total_minutes
    (initializeSession sample_session
       {| scriptOk := true; music := None; voice := voice_ready 12 90 15 |}
       (initial_state sample_session))
  <> Double.Math_ceil (Double.of_Z VOICE_START_DELAY + (12 + 90 + 15)
                       + Double.of_Z MUSIC_FADE_AFTER_VOICE)%float.
Proof. apply different. vm_compute. discriminate. Qed.

(** C2, amended.  Once the three clips report their durations, the session
    lasts the lead-in plus the three durations plus the outro, added as
    doubles in the order of the code, and [totalTime] is the ceiling of
    that, whatever duration was requested; the page displays [totalTime] in
    whole minutes, rounded up.  Clips of 12, 90 and 15 seconds give a total
    of 137 seconds, displayed as 3 minutes. *)
Theorem initializeSession_total_time :
  (forall (session : SessionConfig) (s : State) (music : option Q)
          (dIntro dMain dClosing : float),
      let s' := initializeSession session
                  {| scriptOk := true; music := music;
                     voice := voice_ready dIntro dMain dClosing |} s in
      totalTime s'
      = Double.to_Z
          (Double.Math_ceil
             (Double.of_Z VOICE_START_DELAY + (dIntro + dMain + dClosing)
              + Double.of_Z MUSIC_FADE_AFTER_VOICE)%float)
      /\ actualVoiceDuration s' = Double.to_Q (dIntro + dMain + dClosing)%float
      /\ total_minutes s'
         = Double.Math_ceil (Double.of_Z (totalTime s') / 60)%float)
  /\ (forall (session : SessionConfig) (s : State) (music : option Q),
        let s' := initializeSession session
                    {| scriptOk := true; music := music;
                       voice := voice_ready 12 90 15 |} s in
        totalTime s' = 137
        /\ total_minutes s' = 3%float
        /\ total_label s' = "~3 min total").
Proof.
  split.
  - intros session s music dIntro dMain dClosing. unfold initializeSession.
    cbn [scriptOk negb SessionPlayer.music voice].
    destruct (String.eqb (music_type (layers session)) "mp3"
              && truthy (music_file (layers session))), music;
      repeat split; reflexivity.
  - intros session s music. unfold initializeSession.
    cbn [scriptOk negb SessionPlayer.music voice].
    destruct (String.eqb (music_type (layers session)) "mp3"
              && truthy (music_file (layers session))), music;
      repeat split; reflexivity.
Qed.

(** The sums are those of doubles.  Clips of 15.4, 4.5 and 2.1 seconds add
    up to 22 seconds and the session lasts 42; the exact values of the
    three doubles add up to a little more than 22, and the ceiling of
    their exact sum with the two delays is 43. *)
Remark initializeSession_adds_doubles :
  totalTime
    (initializeSession sample_session
       {| scriptOk := true; music := None; voice := voice_ready 15.4 4.5 2.1 |}
       (initial_state sample_session)) = 42
  /\ Qceiling (inject_Z VOICE_START_DELAY
               + (Double.to_Q 15.4 + Double.to_Q 4.5 + Double.to_Q 2.1)
               + inject_Z MUSIC_FADE_AFTER_VOICE)%Q = 43.
Proof. split; reflexivity. Qed.

(** ** Stopping *)

Lemma pair_equal {A B : Type} (a c : A) (b d : B) :
  (a, b) = (c, d) -> a = c /\ b = d.
Proof. intros H. inversion H. split; reflexivity. Qed.

Lemma floor_minutes (n : Z) : Math_floor (inject_Z n / 60) = n / 60.
Proof.
  unfold Math_floor, Qdiv, Qmult, Qinv, inject_Z. cbn.
  now rewrite Z.mul_1_r.
Qed.

Lemma sum_snoc (l : list Z) (m : Z) :
  fold_right Z.add 0 (l ++ [m]) = fold_right Z.add 0 l + m.
Proof. induction l as [|x l IH]; cbn; [lia|]. rewrite IH. lia. Qed.

Lemma forEach_element (f : Audio.t -> Audio.t) (els : AudioElements)
    (seg : Segment) :
  element seg (forEach f els) = option_map f (element seg els).
Proof. destruct seg; reflexivity. Qed.

(** The stop handler of the current render, which is the one the Stop
    button runs, in whatever phase it runs: the phase becomes completed,
    every narration element is paused at position zero, no timer is left,
    and the whole minutes of the elapsed seconds are recorded in the user
    statistics. *)
Lemma stopSession_completes (s : State) :
  let s' := commit (stopSession (render s) s) in
  phase s' = completed
  /\ phaseRef s' = completed
  /\ (forall seg a, element seg (audioElementsRef s') = Some a ->
        Audio.currentTime a = 0%Q /\ Audio.paused a = true)
  /\ timerRef s' = None
  /\ timer_running s' = false
  /\ userStats s' = userStats s ++ [currentTime s / 60]
  /\ cumulativeMinutes s' = cumulativeMinutes s + currentTime s / 60.
Proof.
  cbv zeta. unfold stopSession, commit, updateUserStats, stopAll, cumulativeMinutes,
    timer_running. rewrite floor_minutes. cbn. rewrite sum_snoc.
  repeat (split; [reflexivity|]). split; [|repeat split; reflexivity].
  intros seg a. rewrite forEach_element.
  destruct (element seg (audioElementsRef s)); cbn; [|discriminate].
  intros [= <-]. split; reflexivity.
Qed.

(** The Stop button is rendered while paused and runs that handler. *)
Lemma step_ClickStop (session : SessionConfig) (synth : VoiceSynthesis.Synthesizer)
    (s : State) :
  phase s = paused ->
  step session synth s ClickStop = commit (stopSession (render s) s).
Proof. intros H. unfold step. now rewrite H. Qed.

(** ** The tick *)

Lemma tick_counts (r : Render) (s : State) :
  currentTime s + 1 < r_totalTime r ->
  currentTime (tick r s) = currentTime s + 1 /\ phase (tick r s) = phase s.
Proof.
  intros H. unfold tick.
  destruct (r_totalTime r <=? currentTime s + 1) eqn:E; [lia|].
  destruct ((r_totalTime r - (currentTime s + 1) <=? 5)
            && (0 <? r_totalTime r - (currentTime s + 1)));
    [destruct (musicAudio s)|]; split; reflexivity.
Qed.

Lemma tick_completes (r : Render) (s : State) :
  r_totalTime r <= currentTime s + 1 ->
  phase (tick r s) = completed
  /\ currentTime (tick r s) = r_totalTime r
  /\ timerRef (tick r s) = None.
Proof.
  intros H. unfold tick.
  destruct (r_totalTime r <=? currentTime s + 1) eqn:E; [|lia].
  repeat split; reflexivity.
Qed.

(** In the last five seconds the tick sets the music to the remaining
    fifths of the music volume of the render that started the timer. *)
Lemma tick_fades (r : Render) (s : State) (m : Audio.t) :
  musicAudio s = Some m ->
  0 < r_totalTime r - (currentTime s + 1) <= 5 ->
  music_level (tick r s)
  = Some (inject_Z (r_totalTime r - (currentTime s + 1)) / 5
          * music_volume (r_volumes r))%Q.
Proof.
  intros Hm H. unfold tick, music_level. rewrite Hm.
  destruct (r_totalTime r <=? currentTime s + 1) eqn:E; [lia|].
  replace (r_totalTime r - (currentTime s + 1) <=? 5) with true by lia.
  replace (0 <? r_totalTime r - (currentTime s + 1)) with true by lia.
  reflexivity.
Qed.

(** C1 fails on the fade.  In a 30-second session the user raises the music
    volume from 0.4 to 0.8 two seconds after the start.  At the tick that
    leaves 3 seconds the music is set to 0.24, three fifths of the volume
    the timer captured when it was started, and not to three fifths of the
    current setting. *)
Theorem fade_ignores_volume_change :
  let s := sample_run [Elapse 500; ClickStart true; Elapse (2 * 1000);
                       ChangeVolume layer_music_volume 0.8;
                       Elapse (25 * 1000)] in
  phase s = playing
  /\ currentTime s = 27
  /\ totalTime s = 30
  /\ music_volume (volumes s) = 0.8%Q
  /\ exists v, music_level s = Some v
               /\ (v == 3 / 5 * 0.4)%Q /\ (v == 0.24)%Q
               /\ ~ (v == 3 / 5 * music_volume (volumes s))%Q.
Proof.
  intros s.
  assert (E : (phase s, currentTime s, totalTime s, music_volume (volumes s),
               music_level s)
              = (playing, 27, 30, 0.8%Q, Some (12 # 50)%Q))
    by (vm_compute; reflexivity).
  apply pair_equal in E as [E E5]. apply pair_equal in E as [E E4].
  apply pair_equal in E as [E E3]. apply pair_equal in E as [E1 E2].
  split; [exact E1|]. split; [exact E2|]. split; [exact E3|]. split; [exact E4|].
  exists (12 # 50)%Q. split; [exact E5|].
  split; [reflexivity|]. split; [reflexivity|].
  rewrite E4. vm_compute. discriminate.
Qed.

(** When the timer ends the session it runs the stop handler of the
    render that started the timer: the minutes recorded are those of the
    elapsed time of that render. *)
Lemma tick_records_render_time (r : Render) (s : State) :
  r_totalTime r <= currentTime s + 1 ->
  userStats (tick r s) = userStats s ++ [r_currentTime r / 60].
Proof.
  intros H. unfold tick.
  destruct (r_totalTime r <=? currentTime s + 1) eqn:E; [|lia].
  unfold stopSession, updateUserStats. rewrite floor_minutes.
  destruct ((r_totalTime r - (currentTime s + 1) <=? 5)
            && (0 <? r_totalTime r - (currentTime s + 1)));
    [destruct (musicAudio s)|]; reflexivity.
Qed.

(** C4 fails when it is the timer that stops the session.  A session of
    exactly one minute is started and runs to its end without a pause.  It
    is completed with 60 seconds elapsed, every narration element is at
    position zero and no timer is left, but the minutes recorded are 0 and
    not the whole minutes of 60 seconds: the timer runs the stop handler of
    the render in which Start was pressed, where the elapsed time is 0. *)
Theorem completion_records_no_minute :
  let s := full_minute_run [Elapse 500; ClickStart true; Elapse (60 * 1000)] in
  phase s = completed
  /\ currentTime s = 60
  /\ totalTime s = 60
  /\ option_map Audio.currentTime (intro (audioElementsRef s)) = Some 0%Q
  /\ option_map Audio.currentTime (main (audioElementsRef s)) = Some 0%Q
  /\ option_map Audio.currentTime (closing (audioElementsRef s)) = Some 0%Q
  /\ timer_running s = false
  /\ userStats s = [0]
  /\ cumulativeMinutes s = 0
  /\ Math_floor (inject_Z (currentTime s) / 60) = 1.
Proof.
  intros s.
  assert (E : (phase s, currentTime s, totalTime s,
               option_map Audio.currentTime (intro (audioElementsRef s)),
               option_map Audio.currentTime (main (audioElementsRef s)),
               option_map Audio.currentTime (closing (audioElementsRef s)),
               timer_running s, userStats s)
              = (completed, 60, 60, Some 0%Q, Some 0%Q, Some 0%Q, false, [0]))
    by (vm_compute; reflexivity).
  apply pair_equal in E as [E E8]. apply pair_equal in E as [E E7].
  apply pair_equal in E as [E E6]. apply pair_equal in E as [E E5].
  apply pair_equal in E as [E E4]. apply pair_equal in E as [E E3].
  apply pair_equal in E as [E1 E2].
  split; [exact E1|]. split; [exact E2|]. split; [exact E3|]. split; [exact E4|].
  split; [exact E5|]. split; [exact E6|]. split; [exact E7|]. split; [exact E8|].
  split.
  - unfold cumulativeMinutes. rewrite E8. reflexivity.
  - rewrite E2. reflexivity.
Qed.

(** C3 fails on the resume.  The session is started, paused after 3
    seconds and resumed 12 seconds later: the intro narration plays at
    once, with 3 of the 10 seconds of lead-in spent in the playing phase. *)
Lemma resume_starts_narration_early :
  let paused_run := [Elapse 500; ClickStart true; Elapse (3 * 1000); ClickPause;
                     Elapse (12 * 1000)] in
  narration_playing (sample_run paused_run) = false
  /\ narration_playing (sample_run (paused_run ++ [ClickResume])) = true
  /\ ghost_playingMs (sample_run (paused_run ++ [ClickResume])) = 3000
  /\ ghost_playingMs (sample_run (paused_run ++ [ClickResume]))
     < VOICE_START_DELAY * 1000.
Proof.
  intros paused_run.
  assert (E : (narration_playing (sample_run paused_run),
               narration_playing (sample_run (paused_run ++ [ClickResume])),
               ghost_playingMs (sample_run (paused_run ++ [ClickResume])))
              = (false, true, 3000))
    by (vm_compute; reflexivity).
  apply pair_equal in E as [E E3]. apply pair_equal in E as [E1 E2].
  split; [exact E1|]. split; [exact E2|]. split; [exact E3|].
  rewrite E3. reflexivity.
Qed.

(** ** Pausing during the lead-in *)

Section LeadIn.

Variable session : SessionConfig.
Variable synth : VoiceSynthesis.Synthesizer.

Lemma untouched_not_playing (s : State) : untouched s -> narration_playing s = false.
Proof.
  intros H. unfold narration_playing.
  pose proof (H seg_intro) as Hi. pose proof (H seg_main) as Hm.
  pose proof (H seg_closing) as Hc. cbn in Hi, Hm, Hc.
  destruct (intro (audioElementsRef s)) as [a|];
    [destruct (Hi a eq_refl) as [-> _]|];
    (destruct (main (audioElementsRef s)) as [b|];
     [destruct (Hm b eq_refl) as [-> _]|]);
    (destruct (closing (audioElementsRef s)) as [c|];
     [destruct (Hc c eq_refl) as [-> _]|]); reflexivity.
Qed.

Lemma progress_untouched (seg : Segment) (s : State) :
  untouched s -> progress session seg s = s.
Proof.
  intros H. unfold progress.
  destruct (element seg (audioElementsRef s)) as [a|] eqn:E; [|reflexivity].
  destruct (H seg a E) as [-> _]. reflexivity.
Qed.

Lemma tick_frame (r : Render) (s : State) :
  currentTime s + 1 < r_totalTime r ->
  phase (tick r s) = phase s
  /\ phaseRef (tick r s) = phaseRef s
  /\ currentTime (tick r s) = currentTime s + 1
  /\ timerRef (tick r s) = timerRef s
  /\ timeouts (tick r s) = timeouts s
  /\ audioElementsRef (tick r s) = audioElementsRef s
  /\ now (tick r s) = now s
  /\ ghost_playingMs (tick r s) = ghost_playingMs s.
Proof.
  intros H. unfold tick.
  destruct (r_totalTime r <=? currentTime s + 1) eqn:E; [lia|].
  destruct ((r_totalTime r - (currentTime s + 1) <=? 5)
            && (0 <? r_totalTime r - (currentTime s + 1)));
    [destruct (musicAudio s)|]; repeat split; reflexivity.
Qed.

Lemma start_leading_in (s : State) (scriptOk : bool) :
  fresh_ready s ->
  leading_in (now s) (ghost_playingMs s) (render s) (now s)
    (step session synth s (ClickStart scriptOk)).
Proof.
  intros (Hph & Hphr & Hto & Htr & Hct & Htot & Hin & Hun).
  unfold step. rewrite Hph. cbn [SessionPhase_eqb].
  destruct s as [ph phr ct tt avd vol tr tos mus emv els spk us nw gh].
  cbn in Hph, Hphr, Hto, Htr, Hct, Htot, Hin. subst.
  unfold untouched in Hun. cbn in Hun.
  destruct (intro els) as [a|] eqn:Ea; [|contradiction].
  unfold leading_in, untouched, startSession, startTimer, commit.
  destruct mus as [m|]; cbn; rewrite Ea; cbn;
    (split; [reflexivity|]; split; [reflexivity|]; split; [exact Hun|];
     split; [rewrite Ea; discriminate|]; split; [reflexivity|];
     split; [reflexivity|]; split; [lia|]; split; [reflexivity|];
     split; lia).
Qed.

Lemma millisecond_leading_in (t0 g0 : Z) (r0 : Render) (t : Z) (s : State) :
  VOICE_START_DELAY <= r_totalTime r0 ->
  leading_in t0 g0 r0 t s ->
  t + 1 < t0 + VOICE_START_DELAY * 1000 ->
  leading_in t0 g0 r0 (t + 1) (millisecond session synth s).
Proof.
  intros Htot (Hph & Hphr & Hun & Hin & Hto & Htr & Hct & Hnow & Ht & Hg) Hlt.
  unfold VOICE_START_DELAY in *.
  unfold millisecond.
  change (phase (set_now (now s + 1) s)) with (phase s). rewrite Hph.
  cbn [SessionPhase_eqb].
  set (s1 := set_ghost_playingMs _ (set_now (now s + 1) s)).
  assert (Hun1 : untouched s1) by exact Hun.
  rewrite (progress_untouched seg_closing s1 Hun1).
  rewrite (progress_untouched seg_main s1 Hun1).
  rewrite (progress_untouched seg_intro s1 Hun1).
  unfold run_timeouts.
  change (timeouts s1) with (timeouts s). rewrite Hto.
  change (now s1) with (now s + 1). cbn [List.filter due].
  replace (t0 + 10 * 1000 <=? now s + 1) with false by lia.
  cbn [negb fold_left].
  set (s2 := set_timeouts _ s1).
  unfold run_interval.
  change (timerRef s2) with (timerRef s). rewrite Htr.
  cbn [active next closure andb].
  change (now s2) with (now s + 1).
  destruct (Z.leb_spec (t0 + 1000 * (currentTime s + 1)) (now s + 1)) as [Hdue|Hnot].
  - assert (Hc : currentTime s2 + 1 < r_totalTime r0).
    { change (currentTime s2) with (currentTime s). lia. }
    destruct (tick_frame r0 s2 Hc)
      as (Tph & Tphr & Tct & Ttr & Tto & Tel & Tnow & Tg).
    unfold commit. rewrite Tph.
    change (timerRef (set_phaseRef (phase s2) (tick r0 s2)))
      with (timerRef (tick r0 s2)).
    rewrite Ttr. change (timerRef s2) with (timerRef s). rewrite Htr.
    cbn [active next closure].
    unfold leading_in, untouched. cbn.
    rewrite Tph, Tct, Tto, Tel, Tnow, Tg. cbn.
    rewrite Hph.
    split; [reflexivity|]. split; [reflexivity|]. split; [exact Hun|].
    split; [exact Hin|]. split; [reflexivity|].
    split; [do 2 f_equal; lia|].
    split; [lia|]. split; [lia|]. split; lia.
  - unfold leading_in. cbn.
    split; [exact Hph|]. split; [exact Hphr|]. split; [exact Hun|].
    split; [exact Hin|]. split; [reflexivity|]. split; [exact Htr|].
    split; [lia|]. split; [lia|]. split; lia.
Qed.

Lemma elapse_leading_in (t0 g0 : Z) (r0 : Render) (n : nat) (t : Z) (s : State) :
  VOICE_START_DELAY <= r_totalTime r0 ->
  leading_in t0 g0 r0 t s ->
  t + Z.of_nat n < t0 + VOICE_START_DELAY * 1000 ->
  leading_in t0 g0 r0 (t + Z.of_nat n) (elapse session synth n s).
Proof.
  intros Htot Hs. induction n as [|n IH]; intros Hlt.
  - replace (t + Z.of_nat 0) with t by lia. exact Hs.
  - replace (t + Z.of_nat (S n)) with (t + Z.of_nat n + 1) by lia.
    change (elapse session synth (S n) s)
      with (millisecond session synth (elapse session synth n s)).
    apply millisecond_leading_in; [exact Htot | apply IH; lia | lia].
Qed.

Lemma pause_held (t0 g0 : Z) (r0 : Render) (t : Z) (s : State) :
  leading_in t0 g0 r0 t s ->
  held (g0 + (t - t0)) (step session synth s ClickPause).
Proof.
  intros (Hph & Hphr & Hun & Hin & Hto & Htr & Hct & Hnow & Ht & Hg).
  unfold step. rewrite Hph. cbn [SessionPhase_eqb].
  unfold pauseSession, pauseAll, commit, held, timer_running, untouched.
  cbn. rewrite Htr. cbn. rewrite Hto.
  split; [reflexivity|]. split; [reflexivity|].
  split.
  { intros seg a. rewrite forEach_element.
    destruct (element seg (audioElementsRef s)) as [b|] eqn:E; cbn; [|discriminate].
    destruct (Hun seg b E) as [Hp Hc]. rewrite Hp. cbn. intros [= <-]. now split. }
  split.
  { destruct (intro (audioElementsRef s)); [discriminate | contradiction]. }
  split; [repeat constructor; eexists; reflexivity|].
  split; [reflexivity | exact Hg].
Qed.

Lemma commit_held (g : Z) (s : State) : held g s -> held g (commit s).
Proof.
  intros (Hph & Hphr & Hun & Hin & Hto & Htr & Hg).
  unfold held, commit. cbn.
  split; [exact Hph|]. split; [exact Hph|]. split; [exact Hun|].
  split; [exact Hin|]. split; [exact Hto|]. split; [exact Htr | exact Hg].
Qed.

Lemma voiceStart_not_playing (r : Render) (s : State) :
  phaseRef s <> playing -> voiceStart r s = s.
Proof.
  intros H. unfold voiceStart.
  destruct (intro (audioElementsRef s)); [|reflexivity].
  destruct (phaseRef s); try reflexivity. contradiction.
Qed.

Lemma run_due_held (g : Z) (l : list Timeout) :
  Forall (fun t => exists r, callback t = cb_voiceStart r) l ->
  forall s, held g s ->
    held g (fold_left (fun s t => commit (run_callback synth (callback t) s)) l s).
Proof.
  induction 1 as [|t l [r Hr] Hl IH]; intros s Hs; [exact Hs|].
  cbn [fold_left]. apply IH. rewrite Hr. cbn [run_callback].
  rewrite voiceStart_not_playing.
  - now apply commit_held.
  - destruct Hs as (_ & -> & _). discriminate.
Qed.

Lemma Forall_filter_keep {A : Type} (P : A -> Prop) (f : A -> bool) (l : list A) :
  Forall P l -> Forall P (List.filter f l).
Proof.
  induction 1 as [|x l Hx Hl IH]; cbn; [constructor|].
  destruct (f x); [constructor|]; assumption.
Qed.

Lemma millisecond_held (g : Z) (s : State) :
  held g s -> held g (millisecond session synth s).
Proof.
  intros Hs. pose proof Hs as (Hph & Hphr & Hun & Hin & Hto & Htr & Hg).
  unfold millisecond.
  change (phase (set_now (now s + 1) s)) with (phase s). rewrite Hph.
  cbn [SessionPhase_eqb].
  set (s1 := set_now (now s + 1) s).
  assert (Hs1 : held g s1) by exact Hs.
  assert (Hun1 : untouched s1) by exact Hun.
  rewrite (progress_untouched seg_closing s1 Hun1).
  rewrite (progress_untouched seg_main s1 Hun1).
  rewrite (progress_untouched seg_intro s1 Hun1).
  assert (Hs2 : held g (run_timeouts synth s1)).
  { unfold run_timeouts. apply run_due_held.
    - now apply Forall_filter_keep.
    - unfold held. cbn.
      split; [exact Hph|]. split; [exact Hphr|]. split; [exact Hun|].
      split; [exact Hin|]. split; [now apply Forall_filter_keep|].
      split; [exact Htr | exact Hg]. }
  pose proof Hs2 as (_ & _ & _ & _ & _ & Htr2 & _).
  unfold timer_running in Htr2. unfold run_interval.
  destruct (timerRef (run_timeouts synth s1)) as [i|];
    [rewrite Htr2; cbn [andb]|]; exact Hs2.
Qed.

Lemma elapse_held (g : Z) (n : nat) (s : State) :
  held g s -> held g (elapse session synth n s).
Proof.
  intros Hs. induction n as [|n IH]; [exact Hs|].
  change (elapse session synth (S n) s)
    with (millisecond session synth (elapse session synth n s)).
  now apply millisecond_held.
Qed.

Lemma resume_held (g : Z) (s : State) :
  held g s ->
  let s' := step session synth s ClickResume in
  phase s' = playing
  /\ narration_playing s' = true
  /\ (exists a, intro (audioElementsRef s') = Some a
                /\ Audio.paused a = false /\ Audio.currentTime a = 0%Q)
  /\ ghost_playingMs s' = g.
Proof.
  intros (Hph & Hphr & Hun & Hin & Hto & Htr & Hg). cbv zeta.
  unfold step. rewrite Hph. cbn [SessionPhase_eqb].
  destruct s as [ph phr ct tt avd vol tr tos mus emv els spk us nw gh].
  cbn in Hph, Hphr, Hin, Hg. unfold untouched in Hun. cbn in Hun.
  destruct els as [i m c]. cbn in Hin.
  destruct i as [[ip ic idur iv il]|]; [|contradiction].
  destruct (Hun seg_intro _ eq_refl) as [Hip Hic]. cbn in Hip, Hic. subst ip ic.
  assert (Hm : forall a, m = Some a ->
             Audio.paused a = true /\ Audio.currentTime a = 0%Q)
    by (intros a Ha; apply (Hun seg_main a Ha)).
  assert (Hc : forall a, c = Some a ->
             Audio.paused a = true /\ Audio.currentTime a = 0%Q)
    by (intros a Ha; apply (Hun seg_closing a Ha)).
  unfold resumeSession, startTimer, commit, narration_playing, find.
  destruct m as [[mp mc md mv ml]|];
    [destruct (Hm _ eq_refl) as [Hmp Hmc]; cbn in Hmp, Hmc; subst mp mc|];
    (destruct c as [[cp cc cd cv cl]|];
     [destruct (Hc _ eq_refl) as [Hcp Hcc]; cbn in Hcp, Hcc; subst cp cc|]);
    destruct mus as [mu|]; cbn;
    (split; [reflexivity|]; split; [reflexivity|];
     split; [|exact Hg];
     eexists; split; [reflexivity|]; split; [reflexivity|];
     cbn; unfold Audio.ended; cbn; destruct (negb il && Qle_bool idur 0);
     reflexivity).
Qed.

(** C3, amended.  A session with its narration loaded is started and
    paused before the lead-in delay has elapsed.  No narration plays up to
    the pause, and none starts for as long as the session stays paused:
    the lead-in timeout finds that the phase is no longer playing.  On the
    resume the intro narration plays at once, from its beginning, with only
    the time before the pause spent in the playing phase. *)
Theorem pause_during_lead_in (s0 : State) (scriptOk : bool) (T W : nat) :
  fresh_ready s0 ->
  Z.of_nat T < VOICE_START_DELAY * 1000 ->
  let s1 := run session synth [ClickStart scriptOk; Elapse T; ClickPause; Elapse W] s0 in
  let s2 := step session synth s1 ClickResume in
  narration_playing (run session synth [ClickStart scriptOk; Elapse T] s0) = false
  /\ phase s1 = paused
  /\ narration_playing s1 = false
  /\ phase s2 = playing
  /\ narration_playing s2 = true
  /\ (exists a, intro (audioElementsRef s2) = Some a
                /\ Audio.paused a = false /\ Audio.currentTime a = 0%Q)
  /\ ghost_playingMs s2 = ghost_playingMs s0 + Z.of_nat T.
Proof.
  intros Hready HT. cbv zeta.
  pose proof Hready as (_ & _ & _ & _ & _ & Htot & _).
  pose proof (start_leading_in s0 scriptOk Hready) as H1.
  apply (elapse_leading_in _ _ _ T) in H1; [|exact Htot|lia].
  pose proof (pause_held _ _ _ _ _ H1) as H2.
  apply (elapse_held _ W) in H2.
  pose proof (resume_held _ _ H2) as (R1 & R2 & R3 & R4).
  cbn [run fold_left step] in *.
  split.
  { apply untouched_not_playing. now destruct H1 as (_ & _ & Hun & _). }
  split; [now destruct H2|].
  split.
  { apply untouched_not_playing. now destruct H2 as (_ & _ & Hun & _). }
  split; [exact R1|]. split; [exact R2|]. split; [exact R3|].
  rewrite R4. lia.
Qed.

End LeadIn.

Lemma sample_fresh_ready : fresh_ready (sample_run [Elapse 500]).
Proof.
  assert (E : sample_run [Elapse 500]
              = {| phase := ready; phaseRef := ready; currentTime := 0;
                   totalTime := 30; actualVoiceDuration := (3 + 5 + 2)%Q;
                   volumes := layers sample_session; timerRef := None;
                   timeouts := [];
                   musicAudio :=
                     Some {| Audio.paused := true; Audio.currentTime := 0;
                             Audio.duration := 300; Audio.volume := 0.4;
                             Audio.loop := true |};
                   engineMusicVolume := 0.4;
                   audioElementsRef :=
                     {| intro := Some (Audio.new 3); main := Some (Audio.new 5);
                        closing := Some (Audio.new 2) |};
                   speaking := false; userStats := []; now := 500;
                   ghost_playingMs := 0 |})
    by (vm_compute; reflexivity).
  rewrite E. unfold fresh_ready, untouched. cbn.
  split; [reflexivity|]. split; [reflexivity|]. split; [reflexivity|].
  split; [reflexivity|]. split; [reflexivity|]. split; [discriminate|].
  split; [discriminate|].
  intros seg a. destruct seg; cbn; intros [= <-]; split; reflexivity.
Defined.

Lemma pause_during_lead_in_witness :
  let synth := VoiceSynthesis.new_FallbackVoiceSynthesis in
  let s0 := sample_run [Elapse 500] in
  let s1 := run sample_session synth
              [ClickStart true; Elapse (3 * 1000); ClickPause; Elapse (12 * 1000)] s0 in
  let s2 := step sample_session synth s1 ClickResume in
  fresh_ready s0
  /\ Z.of_nat (3 * 1000) < VOICE_START_DELAY * 1000
  /\ phase s1 = paused
  /\ narration_playing s1 = false
  /\ narration_playing s2 = true
  /\ ghost_playingMs s2 = ghost_playingMs s0 + Z.of_nat (3 * 1000).
Proof.
  cbv zeta.
  assert (HT : Z.of_nat (3 * 1000) < VOICE_START_DELAY * 1000)
    by (vm_compute; reflexivity).
  destruct (pause_during_lead_in sample_session
              VoiceSynthesis.new_FallbackVoiceSynthesis
              (sample_run [Elapse 500]) true (3 * 1000) (12 * 1000)
              sample_fresh_ready HT)
    as (_ & H1 & H2 & _ & H3 & _ & H4).
  split; [exact sample_fresh_ready|]. split; [exact HT|].
  split; [exact H1|]. split; [exact H2|]. split; [exact H3 | exact H4].
Defined.

End PlayerFacts.

(* ===================================================================== *)
(** * Properties of template loading *)
(* ===================================================================== *)

Module TemplateLoadingFacts.
Import JS PromptTemplateManager Template TemplateFacts PromptFacts WordBudget WordBudgetFacts.

(** ** Finding the first occurrence of a marker *)









(** ** Loading the template *)




(** The template cache.  Once a call has left a non-empty template in
    the cache, a later call returns the same template and leaves the same
    cache whatever the file has become; and a call that finds the file
    unavailable leaves the cache as it was, so the built-in template is
    never stored. *)
Theorem loadTemplate_cache (cache : option string) (file : Exc string) :
  (truthy_opt (snd (loadTemplate cache file)) = true ->
   forall file', loadTemplate (snd (loadTemplate cache file)) file'
                 = loadTemplate cache file)
  /\ (resource_unavailable file -> snd (loadTemplate cache file) = cache).
Proof.
  split.
  - unfold loadTemplate.
    destruct cache as [cached|]; [destruct (truthy cached) eqn:Ec|].
    + cbn [snd]. intros _ file'. now rewrite Ec.
    + destruct (loadTemplate_try file) as [content|e]; cbn [snd try_catch truthy_opt].
      * intros Ht file'. now rewrite Ht.
      * rewrite Ec. discriminate.
    + destruct (loadTemplate_try file) as [content|e]; cbn [snd try_catch truthy_opt].
      * intros Ht file'. now rewrite Ht.
      * discriminate.
  - intros Hu. destruct (loadTemplate_try_unavailable file Hu) as [e He].
    unfold loadTemplate. rewrite He.
    destruct cache as [cached|]; [destruct (truthy cached)|]; reflexivity.
Qed.

Lemma loadTemplate_cache_witness :
  let file := Ok ("**[START OF PROMPT]** Breathe. **[END OF PROMPT]**") in
  truthy_opt (snd (loadTemplate None file)) = true
  /\ loadTemplate (snd (loadTemplate None file)) (Throw "ENOENT") = (Ok "Breathe.", Some "Breathe.")
  /\ snd (loadTemplate (Some "") (Throw "ENOENT")) = Some "".
Proof.
  cbv zeta. split; [reflexivity|]. split.
  - rewrite (proj1 (loadTemplate_cache None
                      (Ok ("**[START OF PROMPT]** Breathe. **[END OF PROMPT]**")))
               eq_refl (Throw "ENOENT")).
    reflexivity.
  - apply (proj2 (loadTemplate_cache (Some "") (Throw "ENOENT"))). exact I.
Defined.

(** ValidateTemplate never reports an invalid template.  loadTemplate
    answers a missing or malformed file with the built-in template instead
    of throwing, so the [catch] branch of validateTemplate is never taken:
    the answer is valid, without an error message, for every cache and
    every outcome of reading the file. *)
Theorem validateTemplate_always_valid (cache : option string) (file : Exc string) :
  fst (validateTemplate cache file) = {| isValid := true; error := None |}.
Proof.
  unfold validateTemplate.
  destruct (loadTemplate_returns cache file) as [template H].
  destruct (loadTemplate cache file) as [loaded cache']. cbn in H. subst loaded.
  reflexivity.
Qed.

End TemplateLoadingFacts.

(* ===================================================================== *)
(** * Properties of script synthesis and of the fallback *)
(* ===================================================================== *)

Module ScriptSynthesisFacts.
Import JS VoiceSynthesis Network VoiceFacts.

Lemma inherited_key_lookup (voiceId : string) :
  In voiceId Object_prototype -> get voices voiceId = Inherited voiceId.
Proof.
  intros H. cbn in H.
  repeat (destruct H as [<- | H]; [reflexivity|]). contradiction.
Qed.

Lemma known_key_lookup (voiceId : string) :
  In voiceId known_voice_keys <-> exists v, voices !! voiceId = Some v.
Proof.
  split.
  - intros H. cbn in H.
    repeat (destruct H as [<- | H]; [eexists; reflexivity|]). contradiction.
  - intros [v Hv].
    destruct (in_dec string_dec voiceId known_voice_keys) as [Hin|Hout]; [exact Hin|].
    rewrite (voices_lookup_unknown voiceId Hout) in Hv. discriminate.
Qed.

(** The voices offered for selection are the entries of the voice table. *)
Lemma getAvailableVoices_ids :
  map option_id getAvailableVoices = known_voice_keys.
Proof. reflexivity. Qed.

Section Synthesis.

Variable processScriptText : string -> Q -> string.

(** Which identifiers reach the provider.  synthesizeText sends a
    request exactly for the four keys of the voice table and for the names
    of the properties every object inherits; for every other identifier it
    throws before any request. *)
Theorem synthesizeText_requests_iff (apiKey text voiceId : string) (speed : Q) :
  makes_request (synthesizeText processScriptText apiKey text voiceId speed) = true
  <-> In voiceId known_voice_keys \/ In voiceId Object_prototype.
Proof.
  split.
  - intros H.
    destruct (in_dec string_dec voiceId known_voice_keys) as [Hk|Hk]; [now left|].
    destruct (in_dec string_dec voiceId Object_prototype) as [Hp|Hp]; [now right|].
    rewrite (synthesizeText_unknown processScriptText apiKey text voiceId speed Hk Hp) in H.
    discriminate.
  - intros [Hk | Hp].
    + destruct (synthesizeText_known processScriptText apiKey text voiceId speed Hk)
        as (v & req & k & _ & E & _).
      now rewrite E.
    + unfold synthesizeText. now rewrite (inherited_key_lookup voiceId Hp).
Qed.

(** Every voice the selection list offers is one the synthesis accepts.
    getAvailableVoices lists the four keys of the voice table, each with
    the name and the description of its entry, and for each of them
    synthesizeText sends its request to the address of that voice. *)
Theorem getAvailableVoices_accepted (apiKey text : string) (speed : Q) :
  (forall key, In key (map option_id getAvailableVoices)
               <-> exists v, voices !! key = Some v)
  /\ Forall (fun o =>
       exists v req k,
         voices !! option_id o = Some v
         /\ option_name o = name v /\ option_description o = description v
         /\ synthesizeText processScriptText apiKey text (option_id o) speed = Fetch req k
         /\ url req = baseUrl +:+ "/text-to-speech/" +:+ id v)
       getAvailableVoices.
Proof.
  split.
  - intros key. rewrite getAvailableVoices_ids. apply known_key_lookup.
  - repeat constructor;
      (eexists; eexists; eexists; split; [reflexivity|]; split; [reflexivity|];
       split; [reflexivity|]; split; reflexivity).
Qed.

(** SynthesizeScript sends the three texts one at a time and stops at
    the first failure.  For a voice of the table, the requests go to that
    voice with the caller's key, their bodies are the processed intro, main
    and closing texts in this order, and each is only sent after the one
    before was answered with success: a run that returns has sent all three
    and returns the three answers, a run that throws has sent nothing after
    the request that failed.  Progress 0.1, 0.4, 0.8 is reported before the
    first, second and third request and 1.0 at the end. *)
Theorem synthesizeScript_fails_fast (apiKey intro main closing voiceId : string)
    (onProgress : bool) (net : nat -> Request -> Response) (v : Voice) :
  voices !! voiceId = Some v ->
  let run := exec net 0 (synthesizeScript processScriptText apiKey intro main closing
                           voiceId onProgress) in
  let sent := requests (fst run) in
  let texts := [processScriptText intro 0.85; processScriptText main 0.85;
                processScriptText closing 0.85] in
  (exists n, (n <= 3)%nat /\ map body_text sent = firstn n texts)
  /\ Forall (fun req => url req = baseUrl +:+ "/text-to-speech/" +:+ id v
                        /\ In ("xi-api-key", apiKey) (headers req)) sent
  /\ (forall clips, snd run = Ok clips ->
        map body_text sent = texts
        /\ (forall i req, nth_error sent i = Some req ->
              answered_ok (net i req)
              = nth_error [clip_intro clips; clip_main clips; clip_closing clips] i)
        /\ (onProgress = true -> reports (fst run) = [0.1; 0.4; 0.8; 1.0]%Q))
  /\ (forall e, snd run = Throw e ->
        exists i req, nth_error sent i = Some req /\ List.length sent = S i
          /\ answered_ok (net i req) = None
          /\ (onProgress = true -> reports (fst run) = firstn (S i) [0.1; 0.4; 0.8]%Q)).
Proof.
  intros Hv. cbv zeta.
  unfold synthesizeScript, synthesizeText, get. rewrite Hv.
  cbn [truthy_property negb voice_id_text].
  destruct onProgress; cbn [notify run_catch exec await];
    destruct (net 0%nat _) as [e1|[|] st1 tx1 b1] eqn:N1;
    cbn [await run_catch exec negb notify fst snd requests reports];
    try (destruct (net 1%nat _) as [e2|[|] st2 tx2 b2] eqn:N2;
         cbn [await run_catch exec negb notify fst snd requests reports]);
    try (destruct (net 2%nat _) as [e3|[|] st3 tx3 b3] eqn:N3;
         cbn [await run_catch exec negb notify fst snd requests reports]);
    (split; [ | split; [ | split ] ]);
    try (repeat constructor; cbn; tauto);
    try (intros ? [=]);
    try match goal with
        | |- exists n, _ /\ map body_text [?a] = _ =>
            exists 1%nat; split; [lia|]; reflexivity
        | |- exists n, _ /\ map body_text [?a; ?b] = _ =>
            exists 2%nat; split; [lia|]; reflexivity
        | |- exists n, _ /\ map body_text [?a; ?b; ?c] = _ =>
            exists 3%nat; split; [lia|]; reflexivity
        end.
  all: try (subst clips; split; [reflexivity|];
            split; [|first [intros _; reflexivity | intros [=]]];
            intros i r E; destruct i as [|[|[|[|i]]]]; cbn in E; try discriminate E;
            injection E as <-; cbn [nth_error clip_intro clip_main clip_closing];
            first [rewrite N1 | rewrite N2 | rewrite N3]; reflexivity).
  all: try (eexists 0%nat, _; split; [reflexivity|]; split; [reflexivity|];
            rewrite N1; split; [reflexivity|]; first [reflexivity | intros [=]]).
  all: try (eexists 1%nat, _; split; [reflexivity|]; split; [reflexivity|];
            rewrite N2; split; [reflexivity|]; first [reflexivity | intros [=]]).
  all: try (eexists 2%nat, _; split; [reflexivity|]; split; [reflexivity|];
            rewrite N3; split; [reflexivity|]; first [reflexivity | intros [=]]).
Qed.

End Synthesis.

Lemma synthesizeScript_fails_fast_witness :
  let net := fun (n : nat) (_ : Request) =>
               if (n =? 0)%nat then Resp true "200" "OK" "mp3"
               else Resp false "500" "Internal Server Error" "" in
  let run := exec net 0 (synthesizeScript (fun text _ => text) "sk_live"
                           "Welcome." "Breathe." "Return." "female-1" true) in
  voices !! "female-1" = Some {| id := "YRROo374F8CyWnUy6mdE"; name := "Kelli-2";
        description := "50-year-old female, extremely pleasing and comforting for deep guided meditation" |}
  /\ snd run = Throw "ElevenLabs API error: 500 Internal Server Error"
  /\ exists i req, nth_error (requests (fst run)) i = Some req
        /\ List.length (requests (fst run)) = S i
        /\ answered_ok (net i req) = None
        /\ (true = true -> reports (fst run) = firstn (S i) [0.1; 0.4; 0.8]%Q).
Proof.
  cbv zeta. split; [reflexivity|]. split; [reflexivity|].
  apply (proj2 (proj2 (proj2
           (synthesizeScript_fails_fast (fun text _ => text) "sk_live"
              "Welcome." "Breathe." "Return." "female-1" true
              (fun (n : nat) (_ : Request) =>
                 if (n =? 0)%nat then Resp true "200" "OK" "mp3"
                 else Resp false "500" "Internal Server Error" "")
              _ eq_refl)))
         "ElevenLabs API error: 500 Internal Server Error").
  reflexivity.
Defined.

End ScriptSynthesisFacts.

Module FallbackFacts.
Import JS FallbackVoiceSynthesis Preference.

Lemma or_object_some {A : Type} (a b : option A) (x : A) :
  or_object a b = Some x -> a = Some x \/ (a = None /\ b = Some x).
Proof. destruct a; cbn; intros H; [left | right]; auto. Qed.

Lemma find_first {A : Type} (f : A -> bool) (l : list A) (x : A) :
  List.find f l = Some x ->
  exists before after, l = before ++ x :: after /\ f x = true
                       /\ Forall (fun y => f y = false) before.
Proof.
  induction l as [|y l IH]; cbn; [discriminate|].
  destruct (f y) eqn:E.
  - intros [= <-]. exists [], l. repeat split; [exact E | constructor].
  - intros H. destruct (IH H) as (before & after & -> & Hx & Hb).
    exists (y :: before), after. repeat split; [exact Hx | now constructor].
Qed.

Lemma find_none_all {A : Type} (f : A -> bool) (l : list A) :
  List.find f l = None -> Forall (fun y => f y = false) l.
Proof.
  induction l as [|y l IH]; cbn; [constructor|].
  destruct (f y) eqn:E; [discriminate|]. intros H. constructor; auto.
Qed.

Lemma Forall_In_false {A : Type} (f : A -> bool) (l : list A) (x : A) :
  Forall (fun y => f y = false) l -> In x l -> f x = false.
Proof.
  induction 1 as [|y l Hy Hl IH]; cbn; [contradiction|].
  intros [<- | H]; auto.
Qed.

Lemma preferredVoice_cases (this : t) :
  (preferredVoice this = None <-> voices this = [])
  /\ (forall v, preferredVoice this = Some v ->
        exists before after, voices this = before ++ v :: after
          /\ ((exists w, In w (voices this) /\ english w = true /\ female w = true) ->
              english v = true /\ female v = true
              /\ Forall (fun w => (female w && english w) = false) before)
          /\ ((exists w, In w (voices this) /\ english w = true) ->
              english v = true)
          /\ ((forall w, In w (voices this) -> english w = false) ->
              before = [])).
Proof.
  unfold preferredVoice.
  change (List.find (fun voice => includes (toLowerCase (voice_name voice)) "female"
                                  && includes (lang voice) "en") (voices this))
    with (List.find (fun voice => female voice && english voice) (voices this)).
  change (List.find (fun voice => includes (lang voice) "en") (voices this))
    with (List.find english (voices this)).
  destruct (List.find (fun voice => female voice && english voice) (voices this))
    as [fe|] eqn:Efe.
  - cbn [or_object]. split.
    + split; [discriminate|]. intros Hnil. rewrite Hnil in Efe. discriminate.
    + intros v [= <-].
      destruct (find_first _ _ _ Efe) as (before & after & Hl & Hx & Hb).
      apply andb_true_iff in Hx as [Hf He].
      exists before, after. split; [exact Hl|].
      split; [intros _; split; [exact He|]; split; [exact Hf | exact Hb]|].
      split; [intros _; exact He|].
      intros Hall. rewrite Hall in He; [discriminate|].
      rewrite Hl. apply in_or_app. right. now left.
  - pose proof (find_none_all _ _ Efe) as Hnone.
    destruct (List.find english (voices this)) as [en|] eqn:Een.
    + cbn [or_object]. split.
      * split; [discriminate|]. intros Hnil. rewrite Hnil in Een. discriminate.
      * intros v [= <-].
        destruct (find_first _ _ _ Een) as (before & after & Hl & Hx & Hb).
        exists before, after. split; [exact Hl|].
        split.
        { intros (w & Hw & He & Hf).
          pose proof (Forall_In_false _ _ w Hnone Hw) as Hc. cbn in Hc.
          rewrite He, Hf in Hc. discriminate. }
        split; [intros _; exact Hx|].
        intros Hall. rewrite Hall in Hx; [discriminate|].
        rewrite Hl. apply in_or_app. right. now left.
    + pose proof (find_none_all _ _ Een) as Hnoen.
      cbn [or_object]. destruct (voices this) as [|v0 rest] eqn:El; cbn [List.head].
      * split; [split; reflexivity|]. intros v [=].
      * split; [split; discriminate|]. intros v [= <-].
        exists [], rest. split; [reflexivity|].
        split.
        { intros (w & Hw & He & Hf).
          pose proof (Forall_In_false _ _ w Hnoen Hw) as Hc.
          rewrite He in Hc. discriminate. }
        split; [|reflexivity].
        intros (w & Hw & He).
        pose proof (Forall_In_false _ _ w Hnoen Hw) as Hc.
        rewrite He in Hc. discriminate.
Qed.


Lemma preferredVoice_english (this : t) :
  (exists w, In w (voices this) /\ english w = true) ->
  exists v, preferredVoice this = Some v /\ In v (voices this) /\ english v = true.
Proof.
  intros Hen. destruct (preferredVoice_cases this) as [Hnone Hsome].
  destruct (preferredVoice this) as [v|] eqn:E.
  - destruct (Hsome v eq_refl) as (before & after & Hl & _ & He & _).
    exists v. split; [reflexivity|]. split; [|now apply He].
    rewrite Hl. apply in_or_app. right. now left.
  - destruct Hen as (w & Hw & _). rewrite (proj1 Hnone eq_refl) in Hw. contradiction.
Qed.



Lemma filter_In_iff {A : Type} (f : A -> bool) (l : list A) (x : A) :
  In x (List.filter f l) <-> In x l /\ f x = true.
Proof.
  induction l as [|y l IH]; cbn; [tauto|].
  destruct (f y) eqn:E; cbn; rewrite IH; split.
  - intros [<- | [H1 H2]]; auto.
  - intros [[<- | H1] H2]; auto.
  - intros [H1 H2]; auto.
  - intros [[<- | H1] H2]; [congruence | auto].
Qed.

(** What the fallback offers and what it uses.  getAvailableVoices
    offers the English voices of the browser's list and only those, each
    under its name; and whenever it offers any voice, the voice that
    synthesizeText speaks with is one of those offered. *)
Theorem fallback_voice_is_offered (this : t) (text voiceId : string) :
  (forall id, In id (map option_id (getAvailableVoices this))
              <-> exists w, In w (voices this) /\ english w = true /\ voice_name w = id)
  /\ (synth this = true -> getAvailableVoices this <> [] ->
      exists u v, synthesizeText this text voiceId = Ok u
        /\ utterance_voice u = Some v
        /\ In (voice_name v) (map option_id (getAvailableVoices this))).
Proof.
  assert (Hids : forall id, In id (map option_id (getAvailableVoices this))
              <-> exists w, In w (voices this) /\ english w = true /\ voice_name w = id).
  { intros id. unfold getAvailableVoices. rewrite map_map. cbn [option_id].
    rewrite in_map_iff. split.
    - intros (w & Hn & Hw). apply filter_In_iff in Hw as [Hw He]. now exists w.
    - intros (w & Hw & He & Hn). exists w. split; [exact Hn|].
      apply filter_In_iff. now split. }
  split; [exact Hids|].
  intros Hs Hne.
  unfold synthesizeText. rewrite Hs. cbn [negb]. eexists. 
  assert (Hen : exists w, In w (voices this) /\ english w = true).
  { unfold getAvailableVoices in Hne.
    destruct (List.filter (fun voice => includes (lang voice) "en") (voices this))
      as [|w l] eqn:E; [contradiction|].
    exists w. apply (filter_In_iff (fun voice => includes (lang voice) "en")).
    rewrite E. now left. }
  destruct (preferredVoice_english this Hen) as (v & Hv1 & Hv2 & Hv3).
  exists v. split; [reflexivity|]. split; [exact Hv1|].
  apply Hids. now exists v.
Qed.

Lemma fallback_voice_is_offered_witness :
  let this := new true sample_voices in
  synth this = true
  /\ getAvailableVoices this <> []
  /\ exists u v, synthesizeText this "Welcome." "male-1" = Ok u
        /\ utterance_voice u = Some v
        /\ In (voice_name v) (map option_id (getAvailableVoices this)).
Proof.
  cbv zeta. split; [reflexivity|]. split; [discriminate|].
  apply (proj2 (fallback_voice_is_offered (new true sample_voices) "Welcome." "male-1"));
    [reflexivity | discriminate].
Defined.

End FallbackFacts.

(* ===================================================================== *)
(** * Properties of the test route *)
(* ===================================================================== *)

Module RouteFacts.
Import JS VoiceSynthesis Network VoiceFacts Credential.
Import TestWpmRoute Words.

(** ** Counting words *)



Lemma ends_in_gap_cons (c : ascii) (s : string) (g g' : bool) :
  ends_in_gap g (String c s) = ends_in_gap g' (String c s).
Proof. reflexivity. Qed.








(** ** The route *)

Lemma test_text_words : countWords TEST_TEXT_100_WORDS = 92%nat.
Proof. vm_compute. reflexivity. Qed.

Section Route.

Variable processScriptText : string -> Q -> string.

Lemma truthy_opt_false (v : option string) :
  truthy_opt v = false <-> v = None \/ v = Some "".
Proof.
  destruct v as [[|c s]|]; cbn; split; intros H; auto; try discriminate.
  - destruct H as [H | H]; discriminate.
Qed.

(** The checks of the test route come before any synthesis.  The
    handler always answers (it never throws), with status 400, 503, 200 or
    500.  A body without a voice identifier gets 400 whatever the
    credentials are; with an identifier but no provider credential the
    answer is 503; in both cases nothing is sent to the provider, and in
    every case at most one request is sent. *)
Theorem POST_checks_first (json : Exc (option string)) (env : gmap string string)
    (clock : nat -> Z) (net : nat -> Request -> Response) :
  let run := exec net 0 (POST processScriptText json env clock) in
  exists response,
    snd run = Ok response
    /\ In (status response) [200; 400; 500; 503]
    /\ (List.length (requests (fst run)) <= 1)%nat
    /\ (status response = 400
        <-> exists voiceId, json = Ok voiceId /\ truthy_opt voiceId = false)
    /\ (status response = 503
        <-> exists voiceId, json = Ok voiceId /\ truthy_opt voiceId = true
                            /\ createVoiceSynthesis env = new_FallbackVoiceSynthesis)
    /\ (status response = 400 \/ status response = 503 -> fst run = []).
Proof.
  cbv zeta. unfold POST.
  destruct json as [voiceId|e]; cbn [run_catch].
  - destruct (truthy_opt voiceId) eqn:Ev; cbn [negb run_catch exec fst snd].
    + destruct (createVoiceSynthesis env) as [apiKey|] eqn:Ec; cbn [run_catch exec fst snd].
      * unfold synthesizeText.
        destruct (truthy_property (get voices _)); cbn [negb await run_catch exec].
        -- destruct (net 0%nat _) as [e|[|] st tx b];
             cbn [negb await run_catch exec fst snd NextResponse_json status requests];
             eexists; (split; [reflexivity|]); cbn [status List.length];
             (split; [cbn; tauto|]); (split; [lia|]);
             (split; [split; [discriminate | intros (v & [= <-] & Hv); congruence]|]);
             (split; [split; [discriminate | intros (v & [= <-] & Hv & Hc); congruence]|]);
             intros [H | H]; discriminate.
        -- eexists; (split; [reflexivity|]); cbn [status List.length fst requests];
             (split; [cbn; tauto|]); (split; [lia|]);
             (split; [split; [discriminate | intros (v & [= <-] & Hv); congruence]|]);
             (split; [split; [discriminate | intros (v & [= <-] & Hv & Hc); congruence]|]);
             intros [H | H]; discriminate.
      * eexists; (split; [reflexivity|]); cbn [status NextResponse_json List.length requests].
        split; [cbn; tauto|]. split; [lia|].
        split; [split; [discriminate | intros (v & [= <-] & Hv); congruence]|].
        split; [split; [intros _; now exists voiceId | reflexivity]|].
        reflexivity.
    + eexists; (split; [reflexivity|]); cbn [status NextResponse_json List.length requests].
      split; [cbn; tauto|]. split; [lia|].
      split; [split; [intros _; now exists voiceId | reflexivity]|].
      split; [split; [discriminate | intros (v & [= <-] & Hv & Hc); congruence]|].
      reflexivity.
  - cbn [exec fst snd]. eexists; (split; [reflexivity|]);
      cbn [status NextResponse_json List.length requests].
    split; [cbn; tauto|]. split; [lia|].
    split; [split; [discriminate | intros (v & [=] & _)]|].
    split; [split; [discriminate | intros (v & [=] & _)]|].
    intros [H | H]; discriminate.
Qed.

(** The outcome of a test that reaches the provider.  With a voice of
    the table and a provider credential the route sends one request with
    that credential; an answer with a success status is passed on with
    status 200, its bytes as the body, their number as Content-Length,
    the identifier as X-Voice-Id and 92 as X-Word-Count, the number of
    words countWords finds in the test text; a failure status or a network
    error is answered with status 500 and the message of the error. *)
Theorem POST_passes_answer_on (voiceId apiKey : string) (env : gmap string string)
    (clock : nat -> Z) (net : nat -> Request -> Response) (v : Voice) :
  voices !! voiceId = Some v ->
  credential_present env apiKey ->
  let run := exec net 0 (POST processScriptText (Ok (Some voiceId)) env clock) in
  exists req response,
    requests (fst run) = [req]
    /\ url req = baseUrl +:+ "/text-to-speech/" +:+ id v
    /\ In ("xi-api-key", apiKey) (VoiceSynthesis.headers req)
    /\ body_text req = processScriptText TEST_TEXT_100_WORDS 0.85
    /\ snd run = Ok response
    /\ match net 0%nat req with
       | Resp true _ _ audioBuffer =>
           status response = 200
           /\ body response = audio_body audioBuffer
           /\ headers response
              = [("Content-Type", "audio/mpeg");
                 ("Content-Length", toString (Z.of_nat (String.length audioBuffer)));
                 ("X-Word-Count", "92");
                 ("X-Generation-Time-Ms", toString (clock 1%nat - clock 0%nat));
                 ("X-Voice-Id", voiceId)]
       | Resp false code text _ =>
           status response = 500
           /\ body response
              = json_body "Failed to test WPM"
                  (Some ("ElevenLabs API error: " +:+ code +:+ " " +:+ text))
       | NetworkError e =>
           status response = 500
           /\ body response = json_body "Failed to test WPM" (Some e)
       end.
Proof.
  intros Hv Hc. cbv zeta. unfold POST.
  assert (Hne : voiceId <> "").
  { intros ->. vm_compute in Hv. discriminate. }
  cbn [truthy_opt]. rewrite (truthy_nonempty voiceId Hne). cbn [negb].
  assert (Ec : createVoiceSynthesis env = new_VoiceSynthesis apiKey).
  { unfold createVoiceSynthesis. destruct Hc as [Hk [H1 | [[H1 | H1] H2]]].
    - rewrite H1. cbn. rewrite (truthy_nonempty apiKey Hk). cbn.
      now rewrite (truthy_nonempty apiKey Hk).
    - rewrite H1, H2. cbn. now rewrite (truthy_nonempty apiKey Hk).
    - rewrite H1, H2. cbn. now rewrite (truthy_nonempty apiKey Hk). }
  rewrite Ec. unfold synthesizeText, get. rewrite Hv.
  cbn [truthy_property negb voice_id_text await run_catch exec].
  destruct (net 0%nat _) as [e|[|] st tx b] eqn:N;
    cbn [negb await run_catch exec fst snd requests];
    eexists; eexists; (split; [reflexivity|]); (split; [reflexivity|]);
    (split; [cbn; tauto|]); (split; [reflexivity|]); (split; [reflexivity|]);
    rewrite N; (split; [reflexivity|]); [reflexivity | | reflexivity].
  split; [reflexivity|]. rewrite test_text_words. reflexivity.
Qed.

End Route.

Lemma POST_passes_answer_on_witness :
  let env : gmap string string := <["ELEVENLABS_API_KEY" := "sk_live"]> ∅ in
  let net := fun (_ : nat) (_ : Request) => Resp true "200" "OK" "ID3-audio-bytes" in
  let run := exec net 0 (POST (fun text _ => text) (Ok (Some "male-1")) env
                           (fun n => 1000 + 2500 * Z.of_nat n)) in
  credential_present env "sk_live"
  /\ exists req response,
       requests (fst run) = [req]
       /\ url req = "https://api.elevenlabs.io/v1/text-to-speech/xtwJZRzZhlI4QAgP0tT3"
       /\ snd run = Ok response.
Proof.
  cbv zeta.
  assert (Hc : credential_present (<["ELEVENLABS_API_KEY" := "sk_live"]> ∅) "sk_live").
  { split; [discriminate|]. left. reflexivity. }
  split; [exact Hc|].
  destruct (POST_passes_answer_on (fun text _ => text) "male-1" "sk_live"
              (<["ELEVENLABS_API_KEY" := "sk_live"]> ∅)
              (fun n => 1000 + 2500 * Z.of_nat n)
              (fun (_ : nat) (_ : Request) => Resp true "200" "OK" "ID3-audio-bytes")
              _ eq_refl Hc)
    as (req & response & H1 & H2 & _ & _ & H3 & _).
  exists req, response. split; [exact H1|]. split; [exact H2 | exact H3].
Defined.

End RouteFacts.

(* ===================================================================== *)
(** * What every reachable state of the player satisfies *)
(* ===================================================================== *)

Module ReachableFacts.
Import JS SessionPlayer Session Reachable PlayerFacts.

Lemma SessionPhase_eqb_eq (a b : SessionPhase) :
  SessionPhase_eqb a b = true <-> a = b.
Proof. destruct a, b; cbn; split; intros H; congruence. Qed.

Lemma same_core_refl (s : State) : same_core s s.
Proof. repeat split. Qed.

Lemma same_core_trans (s1 s2 s3 : State) :
  same_core s1 s2 -> same_core s2 s3 -> same_core s1 s3.
Proof.
  intros (A1 & A2 & A3 & A4 & A5 & A6 & A7 & A8 & A9)
         (B1 & B2 & B3 & B4 & B5 & B6 & B7 & B8 & B9).
  repeat split; congruence.
Qed.

Lemma same_core_progress (s' s : State) : same_core s' s -> same_progress s' s.
Proof.
  intros (A1 & A2 & A3 & A4 & A5 & A6 & A7 & A8 & A9). repeat split; assumption.
Qed.


Lemma consistent_core (T : Z) (s' s : State) :
  same_core s' s -> consistent T s -> consistent T s'.
Proof.
  intros (A1 & A2 & A3 & A4 & A5 & A6 & A7 & _) (C1 & C2 & C3 & C4).
  unfold consistent, timer_running in *.
  rewrite A1, A2, A3, A4, A5, A6, A7. tauto.
Qed.

Lemma commit_core (s : State) : phaseRef s = phase s -> same_core (commit s) s.
Proof. intros H. unfold commit, same_core. cbn. rewrite H. tauto. Qed.

Section Player.

Variable session : SessionConfig.
Variable synth : VoiceSynthesis.Synthesizer.

Lemma onended_core (seg : Segment) (s : State) : same_core (onended session seg s) s.
Proof.
  unfold onended.
  destruct seg; try apply same_core_refl;
    (destruct (element _ (audioElementsRef s)); [|apply same_core_refl];
     destruct (SessionPhase_eqb (phaseRef s) playing); [|apply same_core_refl];
     repeat split).
Qed.

Lemma progress_core (seg : Segment) (s : State) :
  phaseRef s = phase s -> same_core (progress session seg s) s.
Proof.
  intros H. unfold progress.
  destruct (element seg (audioElementsRef s)) as [a|]; [|apply same_core_refl].
  destruct (Audio.paused a); [apply same_core_refl|].
  set (s1 := set_audioElementsRef _ s).
  assert (H1 : same_core s1 s) by (repeat split).
  destruct (Audio.paused (advance a)); [|exact H1].
  pose proof (onended_core seg s1) as H2.
  apply same_core_trans with (onended session seg s1);
    [|now apply same_core_trans with s1].
  apply commit_core.
  destruct H2 as (B1 & B2 & _). rewrite B1, B2. exact H.
Qed.

Lemma voiceStart_core (r : Render) (s : State) : same_core (voiceStart r s) s.
Proof.
  unfold voiceStart.
  destruct (intro (audioElementsRef s)); [|apply same_core_refl].
  destruct (SessionPhase_eqb (phaseRef s) playing); [|apply same_core_refl].
  repeat split.
Qed.

Lemma fallbackSpeech_core (s : State) : same_core (fallbackSpeech synth s) s.
Proof. unfold fallbackSpeech. destruct synth; repeat split. Qed.

Lemma run_callback_core (cb : Callback) (s : State) :
  cb <> cb_setReady -> phaseRef s = phase s ->
  same_core (commit (run_callback synth cb s)) s.
Proof.
  intros Hcb H.
  assert (H1 : same_core (run_callback synth cb s) s).
  { destruct cb; [contradiction | apply voiceStart_core | apply fallbackSpeech_core]. }
  apply same_core_trans with (run_callback synth cb s); [|exact H1].
  apply commit_core. destruct H1 as (B1 & B2 & _). rewrite B1, B2. exact H.
Qed.

Lemma fold_callbacks_core (l : list Timeout) :
  no_setReady l ->
  forall s, phaseRef s = phase s ->
    same_core (fold_left (fun s t => commit (run_callback synth (callback t) s)) l s) s.
Proof.
  induction 1 as [|t l Ht Hl IH]; intros s H; [apply same_core_refl|].
  cbn [fold_left].
  pose proof (run_callback_core (callback t) s Ht H) as H1.
  apply same_core_trans with (commit (run_callback synth (callback t) s)); [|exact H1].
  apply IH. destruct H1 as (B1 & B2 & _). rewrite B1, B2. exact H.
Qed.

Lemma consistent_set_timeouts (T : Z) (l : list Timeout) (s : State) :
  phase s <> loading -> no_setReady l ->
  consistent T s -> consistent T (set_timeouts l s).
Proof.
  intros Hp Hl (C1 & C2 & C3 & C4). unfold consistent, timer_running in *. cbn.
  split; [exact C1|]. split; [exact C2|]. split; [exact C3|].
  destruct (phase s); [contradiction|..]; tauto.
Qed.

Lemma consistent_no_setReady (T : Z) (s : State) :
  consistent T s -> phase s <> loading -> no_setReady (timeouts s).
Proof.
  intros (C1 & C2 & C3 & C4) Hp. destruct (phase s); [contradiction|..]; tauto.
Qed.

Lemma run_timeouts_consistent (T : Z) (s : State) :
  consistent T s -> consistent T (run_timeouts synth s).
Proof.
  intros C. unfold run_timeouts.
  destruct (phase s) eqn:E.
  - pose proof C as (C1 & C2 & C3 & C4). rewrite E in C4.
    destruct C4 as (Ht & Hc & Hu & d & Hd). rewrite Hd.
    cbn [List.filter due].
    destruct (d <=? now s); cbn [negb fold_left callback run_callback].
    + unfold consistent, commit. cbn.
      split; [exact C1|]. split; [reflexivity|]. split; [exact C3|].
      split; [exact Ht|]. split; [exact Hc|]. split; [exact Hu | constructor].
    + apply consistent_core with s; [|exact C].
      repeat split. cbn. now rewrite Hd.
  - assert (Hp : phase s <> loading) by (rewrite E; discriminate).
    pose proof (consistent_no_setReady T s C Hp) as Hn.
    eapply consistent_core.
    + apply fold_callbacks_core; [now apply Forall_filter_keep|].
      cbn. now destruct C as (_ & C2 & _).
    + apply consistent_set_timeouts; [exact Hp | now apply Forall_filter_keep | exact C].
  - assert (Hp : phase s <> loading) by (rewrite E; discriminate).
    pose proof (consistent_no_setReady T s C Hp) as Hn.
    eapply consistent_core.
    + apply fold_callbacks_core; [now apply Forall_filter_keep|].
      cbn. now destruct C as (_ & C2 & _).
    + apply consistent_set_timeouts; [exact Hp | now apply Forall_filter_keep | exact C].
  - assert (Hp : phase s <> loading) by (rewrite E; discriminate).
    pose proof (consistent_no_setReady T s C Hp) as Hn.
    eapply consistent_core.
    + apply fold_callbacks_core; [now apply Forall_filter_keep|].
      cbn. now destruct C as (_ & C2 & _).
    + apply consistent_set_timeouts; [exact Hp | now apply Forall_filter_keep | exact C].
  - assert (Hp : phase s <> loading) by (rewrite E; discriminate).
    pose proof (consistent_no_setReady T s C Hp) as Hn.
    eapply consistent_core.
    + apply fold_callbacks_core; [now apply Forall_filter_keep|].
      cbn. now destruct C as (_ & C2 & _).
    + apply consistent_set_timeouts; [exact Hp | now apply Forall_filter_keep | exact C].
Qed.

(** The interval is active in the playing phase only. *)
Lemma active_playing (T : Z) (s : State) (i : Interval) :
  consistent T s -> timerRef s = Some i -> active i = true ->
  phase s = playing /\ r_totalTime (closure i) = T
  /\ userStats s = [] /\ no_setReady (timeouts s).
Proof.
  intros (C1 & C2 & C3 & C4) Hi Ha. unfold timer_running in C4. rewrite Hi in C4.
  destruct (phase s).
  - destruct C4 as (H & _). discriminate.
  - destruct C4 as (H & _). discriminate.
  - destruct C4 as ((j & [= <-] & _ & Hj) & Hu & Hn). tauto.
  - destruct C4 as (H & _). congruence.
  - destruct C4 as (H & _). discriminate.
Qed.

Lemma tick_cases (r : Render) (s : State) :
  (r_totalTime r <= currentTime s + 1
   /\ phase (tick r s) = completed
   /\ phaseRef (tick r s) = phaseRef s
   /\ currentTime (tick r s) = r_totalTime r
   /\ totalTime (tick r s) = totalTime s
   /\ timerRef (tick r s) = None
   /\ timeouts (tick r s) = timeouts s
   /\ userStats (tick r s) = userStats s ++ [r_currentTime r / 60]
   /\ now (tick r s) = now s
   /\ ghost_playingMs (tick r s) = ghost_playingMs s)
  \/ (currentTime s + 1 < r_totalTime r
      /\ same_core (tick r s) (set_currentTime (currentTime s + 1) s)).
Proof.
  unfold tick.
  destruct (Z.leb_spec (r_totalTime r) (currentTime s + 1)) as [H | H]; [left | right];
    (split; [exact H|]).
  - unfold stopSession, updateUserStats. rewrite floor_minutes.
    destruct ((r_totalTime r - (currentTime s + 1) <=? 5)
              && (0 <? r_totalTime r - (currentTime s + 1)));
      [destruct (musicAudio s)|]; repeat split.
  - destruct ((r_totalTime r - (currentTime s + 1) <=? 5)
              && (0 <? r_totalTime r - (currentTime s + 1)));
      [destruct (musicAudio s)|]; repeat split.
Qed.

Lemma run_interval_consistent (T : Z) (s : State) :
  consistent T s -> consistent T (run_interval s).
Proof.
  intros C. unfold run_interval.
  destruct (timerRef s) as [i|] eqn:Ei; [|exact C].
  destruct (active i && (next i <=? now s)) eqn:Ea; [|exact C].
  apply andb_true_iff in Ea as [Ea _].
  destruct (active_playing T s i C Ei Ea) as (Hp & Hr & Hu & Hn).
  pose proof C as (C1 & C2 & C3 & _).
  destruct (tick_cases (closure i) s)
    as [(H & T1 & T2 & T3 & T4 & T5 & T6 & T7 & T8 & T9)
       | (H & (T1 & T2 & T3 & T4 & T5 & T6 & T7 & T8 & T9))].
  - assert (Et : timerRef (commit (tick (closure i) s)) = None) by exact T5.
    rewrite Et. unfold consistent, commit. cbn. rewrite T1, T3, T4, T5, T6, T7, Hu.
    split; [exact C1|]. split; [reflexivity|]. split; [lia|].
    split; [reflexivity|]. split; [now eexists | exact Hn].
  - cbn in T1, T2, T3, T4, T5, T6, T7.
    assert (Et : timerRef (commit (tick (closure i) s)) = Some i)
      by (unfold commit; cbn; now rewrite T5).
    rewrite Et. unfold consistent, commit. cbn. rewrite T1, T3, T4, T6, T7, Hp.
    split; [exact C1|]. split; [reflexivity|]. split; [lia|].
    split; [|split; [exact Hu | exact Hn]].
    eexists. split; [reflexivity|]. cbn. split; [exact Ea | exact Hr].
Qed.

Lemma millisecond_consistent (T : Z) (s : State) :
  consistent T s -> consistent T (millisecond session synth s).
Proof.
  intros C. unfold millisecond.
  set (s1 := set_now (now s + 1) s).
  assert (C1 : consistent T s1) by exact C.
  set (s2 := if SessionPhase_eqb (phase s1) playing
             then set_ghost_playingMs (ghost_playingMs s1 + 1) s1 else s1).
  assert (C2 : consistent T s2).
  { unfold s2. destruct (SessionPhase_eqb (phase s1) playing); exact C1. }
  assert (C3 : consistent T (progress session seg_closing s2)).
  { apply consistent_core with s2; [|exact C2].
    apply progress_core. now destruct C2 as (_ & H & _). }
  assert (C4 : consistent T (progress session seg_main (progress session seg_closing s2))).
  { eapply consistent_core; [|exact C3].
    apply progress_core. now destruct C3 as (_ & H & _). }
  assert (C5 : consistent T (progress session seg_intro
                               (progress session seg_main
                                  (progress session seg_closing s2)))).
  { eapply consistent_core; [|exact C4].
    apply progress_core. now destruct C4 as (_ & H & _). }
  apply run_interval_consistent. now apply run_timeouts_consistent.
Qed.

Lemma elapse_consistent (T : Z) (n : nat) (s : State) :
  consistent T s -> consistent T (elapse session synth n s).
Proof.
  intros C. induction n as [|n IH]; [exact C|].
  change (elapse session synth (S n) s)
    with (millisecond session synth (elapse session synth n s)).
  now apply millisecond_consistent.
Qed.

Lemma no_setReady_snoc (l : list Timeout) (t : Timeout) :
  no_setReady l -> callback t <> cb_setReady -> no_setReady (l ++ [t]).
Proof.
  intros Hl Ht. unfold no_setReady.
  induction Hl as [|x l Hx Hl IH]; cbn; repeat constructor; assumption.
Qed.

Lemma startSession_phase (r : Render) (scriptOk : bool) (s : State) :
  phase (startSession r scriptOk s) = playing.
Proof.
  unfold startSession, startTimer.
  destruct (musicAudio s) as [m|] eqn:Em; cbn; rewrite ?Em; cbn;
    destruct (intro (audioElementsRef s)) as [a|] eqn:Ea; cbn; rewrite ?Ea; cbn;
    try destruct scriptOk; reflexivity.
Qed.

Lemma startSession_consistent (T : Z) (s : State) (scriptOk : bool) :
  consistent T s -> phase s = ready ->
  consistent T (commit (startSession (render s) scriptOk s)).
Proof.
  intros (C1 & C2 & C3 & C4) Hp. rewrite Hp in C4.
  destruct C4 as (Ht & Hc & Hu & Hn).
  unfold startSession, startTimer, commit, consistent.
  destruct (musicAudio s) as [m|] eqn:Em;
    destruct (intro (audioElementsRef s)) as [a|] eqn:Ea; try destruct scriptOk;
    cbn; rewrite ?Em; cbn; rewrite ?Ea; cbn;
    (split; [exact C1|]; split; [reflexivity|]; split; [exact C3|];
     split; [eexists; split; [reflexivity|]; cbn; split; [reflexivity | exact C1]|];
     split; [exact Hu|]);
    first [exact Hn | apply no_setReady_snoc; [exact Hn | discriminate]].
Qed.

Lemma pauseSession_consistent (T : Z) (s : State) :
  consistent T s -> phase s = playing -> consistent T (commit (pauseSession s)).
Proof.
  intros (C1 & C2 & C3 & C4) Hp. rewrite Hp in C4.
  destruct C4 as ((i & Hi & Ha & Hr) & Hu & Hn).
  unfold pauseSession, pauseAll, commit, consistent, timer_running.
  cbn. rewrite Hi. cbn.
  split; [exact C1|]. split; [reflexivity|]. split; [exact C3|].
  split; [reflexivity|]. split; [exact Hu | exact Hn].
Qed.

Lemma resumeSession_fields (r : Render) (s : State) :
  phase (resumeSession r s) = playing
  /\ phaseRef (resumeSession r s) = phaseRef s
  /\ currentTime (resumeSession r s) = currentTime s
  /\ totalTime (resumeSession r s) = totalTime s
  /\ timerRef (resumeSession r s)
     = Some {| active := true; next := now s + 1000; closure := r |}
  /\ timeouts (resumeSession r s) = timeouts s
  /\ userStats (resumeSession r s) = userStats s.
Proof.
  unfold resumeSession, startTimer.
  destruct (musicAudio s) as [m|] eqn:Em; cbn; rewrite ?Em; cbn;
    match goal with |- context [find ?p ?e] => destruct (find p e) as [seg|] end; cbn;
    try (destruct (intro (audioElementsRef s)) as [a|] eqn:Ea; cbn; rewrite ?Ea; cbn;
         [destruct (Qeq_bool (Audio.currentTime a) 0); cbn|]);
    repeat split.
Qed.

Lemma resumeSession_consistent (T : Z) (s : State) :
  consistent T s -> phase s = paused ->
  consistent T (commit (resumeSession (render s) s)).
Proof.
  intros (C1 & C2 & C3 & C4) Hp. rewrite Hp in C4.
  destruct C4 as (Ht & Hu & Hn).
  destruct (resumeSession_fields (render s) s) as (R1 & R2 & R3 & R4 & R5 & R6 & R7).
  unfold commit, consistent.
  cbn [phase phaseRef currentTime totalTime timerRef timeouts userStats set_phaseRef].
  rewrite R1, R3, R4, R5, R6, R7.
  split; [exact C1|]. split; [reflexivity|]. split; [exact C3|].
  split; [eexists; split; [reflexivity|]; cbn; split; [reflexivity | exact C1]|].
  split; [exact Hu | exact Hn].
Qed.

Lemma stopSession_consistent (T : Z) (s : State) :
  consistent T s -> phase s = paused ->
  consistent T (commit (stopSession (render s) s)).
Proof.
  intros (C1 & C2 & C3 & C4) Hp. rewrite Hp in C4.
  destruct C4 as (Ht & Hu & Hn).
  unfold stopSession, stopAll, updateUserStats, commit, consistent.
  cbn. rewrite Hu.
  split; [exact C1|]. split; [reflexivity|]. split; [exact C3|].
  split; [reflexivity|]. split; [now eexists | exact Hn].
Qed.

Lemma handleVolumeChange_core (r : Render) (layer : Layer) (value : Q) (s : State) :
  same_core (handleVolumeChange r layer value s) s.
Proof.
  unfold handleVolumeChange.
  destruct (SessionPhase_eqb (r_phase r) playing); [destruct layer|]; repeat split.
Qed.

Lemma step_consistent (T : Z) (s : State) (e : Event) :
  consistent T s -> consistent T (step session synth s e).
Proof.
  intros C. destruct e as [scriptOk| | | |layer value|ms]; cbn [step].
  - destruct (SessionPhase_eqb (phase s) ready) eqn:E; [|exact C].
    apply SessionPhase_eqb_eq in E. now apply startSession_consistent.
  - destruct (SessionPhase_eqb (phase s) playing) eqn:E; [|exact C].
    apply SessionPhase_eqb_eq in E. now apply pauseSession_consistent.
  - destruct (SessionPhase_eqb (phase s) paused) eqn:E; [|exact C].
    apply SessionPhase_eqb_eq in E. now apply resumeSession_consistent.
  - destruct (SessionPhase_eqb (phase s) paused) eqn:E; [|exact C].
    apply SessionPhase_eqb_eq in E. now apply stopSession_consistent.
  - destruct (SessionPhase_eqb (phase s) loading) eqn:E; [exact C|].
    pose proof (handleVolumeChange_core (render s) layer value s) as H.
    eapply consistent_core; [|exact C].
    apply same_core_trans with (handleVolumeChange (render s) layer value s); [|exact H].
    apply commit_core. destruct H as (B1 & B2 & _). rewrite B1, B2.
    now destruct C as (_ & C2 & _).
  - now apply elapse_consistent.
Qed.

Lemma run_consistent (T : Z) (events : list Event) :
  forall s, consistent T s -> consistent T (run session synth events s).
Proof.
  induction events as [|e events IH]; intros s C; [exact C|].
  cbn [run fold_left]. apply IH. now apply step_consistent.
Qed.

Lemma mounted_consistent (env : InitOutcome) :
  0 <= totalTime (mounted session env) ->
  consistent (totalTime (mounted session env)) (mounted session env).
Proof.
  unfold mounted, initializeSession, initial_state, commit.
  destruct env as [ok mus vo]. cbn [scriptOk music voice].
  destruct ok; cbn [negb];
    [destruct (String.eqb (music_type (layers session)) "mp3"
               && truthy (music_file (layers session))); [destruct mus|];
     destruct vo|];
    cbn; intros H; unfold consistent; cbn;
    (split; [reflexivity|]; split; [reflexivity|]; split; [lia|];
     split; [reflexivity|]; split; [reflexivity|]; split; [reflexivity|];
     eexists; reflexivity).
Qed.

(** ** Audio plays in the playing phase only *)

Lemma quiet_same_audio (s' s : State) :
  phase s' = phase s -> audioElementsRef s' = audioElementsRef s ->
  musicAudio s' = musicAudio s -> quiet s -> quiet s'.
Proof.
  intros H1 H2 H3 Hq. unfold quiet, all_paused in *. rewrite H1, H2, H3. exact Hq.
Qed.

Lemma quiet_playing (s : State) : phase s = playing -> quiet s.
Proof. intros H Hn. contradiction. Qed.

Lemma progress_paused (seg : Segment) (s : State) :
  all_paused s -> progress session seg s = s.
Proof.
  intros [H _]. unfold progress.
  destruct (element seg (audioElementsRef s)) as [a|] eqn:E; [|reflexivity].
  now rewrite (H seg a E).
Qed.

Lemma progress_quiet (seg : Segment) (s : State) :
  phaseRef s = phase s -> quiet s -> quiet (progress session seg s).
Proof.
  intros H Hq Hp.
  destruct (progress_core seg s H) as (B1 & _).
  rewrite B1 in Hp. rewrite (progress_paused seg s (Hq Hp)). exact (Hq Hp).
Qed.

Lemma run_callback_quiet (cb : Callback) (s : State) :
  cb <> cb_setReady -> phaseRef s = phase s -> quiet s ->
  quiet (commit (run_callback synth cb s)).
Proof.
  intros Hcb Href Hq. destruct cb as [|r|]; [contradiction|..]; cbn [run_callback].
  - unfold voiceStart.
    destruct (intro (audioElementsRef s)) as [a|]; [|exact Hq].
    destruct (SessionPhase_eqb (phaseRef s) playing) eqn:E; [|exact Hq].
    apply SessionPhase_eqb_eq in E. apply quiet_playing. cbn. congruence.
  - unfold fallbackSpeech. destruct synth; exact Hq.
Qed.

Lemma fold_callbacks_quiet (l : list Timeout) :
  no_setReady l ->
  forall s, phaseRef s = phase s -> quiet s ->
    quiet (fold_left (fun s t => commit (run_callback synth (callback t) s)) l s).
Proof.
  induction 1 as [|t l Ht Hl IH]; intros s H Hq; [exact Hq|].
  cbn [fold_left]. apply IH.
  - destruct (run_callback_core (callback t) s Ht H) as (B1 & B2 & _).
    rewrite B1, B2. exact H.
  - now apply run_callback_quiet.
Qed.

Lemma run_timeouts_quiet (T : Z) (s : State) :
  consistent T s -> quiet s -> quiet (run_timeouts synth s).
Proof.
  intros C Hq. unfold run_timeouts.
  destruct (SessionPhase_eqb (phase s) loading) eqn:E.
  - apply SessionPhase_eqb_eq in E.
    pose proof C as (C1 & C2 & C3 & C4). rewrite E in C4.
    destruct C4 as (Ht & Hc & Hu & d & Hd). rewrite Hd.
    cbn [List.filter due].
    destruct (d <=? now s); cbn [negb fold_left callback run_callback].
    + intros _. apply Hq. rewrite E. discriminate.
    + exact Hq.
  - assert (Hp : phase s <> loading).
    { intros H. rewrite H in E. discriminate. }
    pose proof (consistent_no_setReady T s C Hp) as Hn.
    apply fold_callbacks_quiet; [now apply Forall_filter_keep | | exact Hq].
    cbn. now destruct C as (_ & C2 & _).
Qed.

Lemma stopSession_paused (r : Render) (s : State) : all_paused (stopSession r s).
Proof.
  unfold stopSession, stopAll, updateUserStats, all_paused. cbn. split.
  - intros seg a. rewrite forEach_element.
    destruct (element seg (audioElementsRef s)); cbn; [|discriminate].
    now intros [= <-].
  - intros m. destruct (musicAudio s); cbn; [|discriminate]. now intros [= <-].
Qed.

Lemma tick_paused (r : Render) (s : State) :
  r_totalTime r <= currentTime s + 1 -> all_paused (tick r s).
Proof.
  intros H. unfold tick.
  destruct (r_totalTime r <=? currentTime s + 1) eqn:E; [|lia].
  match goal with
  | |- all_paused (set_currentTime _ (stopSession r ?x)) =>
      exact (stopSession_paused r x)
  end.
Qed.

Lemma run_interval_quiet (T : Z) (s : State) :
  consistent T s -> quiet s -> quiet (run_interval s).
Proof.
  intros C Hq. unfold run_interval.
  destruct (timerRef s) as [i|] eqn:Ei; [|exact Hq].
  destruct (active i && (next i <=? now s)) eqn:Ea; [|exact Hq].
  apply andb_true_iff in Ea as [Ea _].
  destruct (active_playing T s i C Ei Ea) as (Hp & Hr & Hu & Hn).
  destruct (tick_cases (closure i) s)
    as [(H & T1 & T2 & T3 & T4 & T5 & T6 & T7 & T8 & T9)
       | (H & (T1 & T2 & T3 & T4 & T5 & T6 & T7 & T8 & T9))].
  - assert (Et : timerRef (commit (tick (closure i) s)) = None) by exact T5.
    rewrite Et. intros _. exact (tick_paused (closure i) s H).
  - cbn in T1, T5.
    assert (Et : timerRef (commit (tick (closure i) s)) = Some i)
      by (unfold commit; cbn; now rewrite T5).
    rewrite Et. apply quiet_playing. cbn. congruence.
Qed.

Lemma millisecond_quiet (T : Z) (s : State) :
  consistent T s -> quiet s -> quiet (millisecond session synth s).
Proof.
  intros C Hq. unfold millisecond.
  set (s1 := set_now (now s + 1) s).
  assert (C1 : consistent T s1) by exact C.
  assert (Q1 : quiet s1) by exact Hq.
  set (s2 := if SessionPhase_eqb (phase s1) playing
             then set_ghost_playingMs (ghost_playingMs s1 + 1) s1 else s1).
  assert (C2 : consistent T s2).
  { unfold s2. destruct (SessionPhase_eqb (phase s1) playing); exact C1. }
  assert (Q2 : quiet s2).
  { unfold s2. destruct (SessionPhase_eqb (phase s1) playing); exact Q1. }
  assert (C3 : consistent T (progress session seg_closing s2)).
  { apply consistent_core with s2; [|exact C2].
    apply progress_core. now destruct C2 as (_ & H & _). }
  assert (Q3 : quiet (progress session seg_closing s2)).
  { apply progress_quiet; [now destruct C2 as (_ & H & _) | exact Q2]. }
  assert (C4 : consistent T (progress session seg_main (progress session seg_closing s2))).
  { eapply consistent_core; [|exact C3].
    apply progress_core. now destruct C3 as (_ & H & _). }
  assert (Q4 : quiet (progress session seg_main (progress session seg_closing s2))).
  { apply progress_quiet; [now destruct C3 as (_ & H & _) | exact Q3]. }
  assert (C5 : consistent T (progress session seg_intro
                               (progress session seg_main
                                  (progress session seg_closing s2)))).
  { eapply consistent_core; [|exact C4].
    apply progress_core. now destruct C4 as (_ & H & _). }
  assert (Q5 : quiet (progress session seg_intro
                        (progress session seg_main
                           (progress session seg_closing s2)))).
  { apply progress_quiet; [now destruct C4 as (_ & H & _) | exact Q4]. }
  apply (run_interval_quiet T); [now apply run_timeouts_consistent|].
  now apply (run_timeouts_quiet T).
Qed.

Lemma elapse_sound (T : Z) (n : nat) (s : State) :
  consistent T s -> quiet s ->
  consistent T (elapse session synth n s) /\ quiet (elapse session synth n s).
Proof.
  intros C Hq. induction n as [|n [IHc IHq]]; [now split|].
  change (elapse session synth (S n) s)
    with (millisecond session synth (elapse session synth n s)).
  split; [now apply millisecond_consistent | now apply (millisecond_quiet T)].
Qed.

Lemma pauseSession_paused (s : State) : all_paused (commit (pauseSession s)).
Proof.
  unfold pauseSession, pauseAll, commit.
  assert (H : forall x, all_paused x ->
                all_paused (set_phaseRef (phase match timerRef x with
                                          | Some i => set_timerRef (Some {| active := false; next := next i; closure := closure i |}) x
                                          | None => x end)
                   match timerRef x with
                   | Some i => set_timerRef (Some {| active := false; next := next i; closure := closure i |}) x
                   | None => x end)).
  { intros x Hx. destruct (timerRef x); exact Hx. }
  apply H. unfold all_paused. cbn. split.
  - intros seg a. rewrite forEach_element.
    destruct (element seg (audioElementsRef s)) as [b|]; cbn; [|discriminate].
    intros [= <-]. destruct (Audio.paused b) eqn:E; [exact E | reflexivity].
  - intros m. destruct (musicAudio s); cbn; [|discriminate]. now intros [= <-].
Qed.

Lemma handleVolumeChange_paused (r : Render) (layer : Layer) (value : Q) (s : State) :
  all_paused s -> all_paused (handleVolumeChange r layer value s).
Proof.
  intros [Hn Hm]. unfold handleVolumeChange.
  destruct (SessionPhase_eqb (r_phase r) playing); [destruct layer|];
    unfold all_paused; cbn; (split; [|]).
  - exact Hn.
  - intros m. destruct (musicAudio s) as [m0|]; cbn; [|discriminate].
    intros [= <-]. cbn. now apply Hm.
  - intros seg a. rewrite forEach_element.
    destruct (element seg (audioElementsRef s)) as [b|] eqn:E; cbn; [|discriminate].
    intros [= <-]. cbn. now apply (Hn seg).
  - exact Hm.
  - exact Hn.
  - exact Hm.
Qed.

Lemma step_sound (T : Z) (s : State) (e : Event) :
  consistent T s -> quiet s ->
  consistent T (step session synth s e) /\ quiet (step session synth s e).
Proof.
  intros C Hq. split; [now apply step_consistent|].
  destruct e as [scriptOk| | | |layer value|ms]; cbn [step].
  - destruct (SessionPhase_eqb (phase s) ready) eqn:E; [|exact Hq].
    apply SessionPhase_eqb_eq in E.
    apply quiet_playing. cbn [commit phase set_phaseRef]. apply startSession_phase.
  - destruct (SessionPhase_eqb (phase s) playing) eqn:E; [|exact Hq].
    intros _. apply pauseSession_paused.
  - destruct (SessionPhase_eqb (phase s) paused) eqn:E; [|exact Hq].
    apply quiet_playing. cbn [commit phase set_phaseRef].
    now destruct (resumeSession_fields (render s) s) as (R1 & _).
  - destruct (SessionPhase_eqb (phase s) paused) eqn:E; [|exact Hq].
    intros _. exact (stopSession_paused (render s) s).
  - destruct (SessionPhase_eqb (phase s) loading) eqn:E; [exact Hq|].
    destruct (handleVolumeChange_core (render s) layer value s) as (B1 & _).
    intros Hp. cbn [commit phase set_phaseRef] in Hp. rewrite B1 in Hp.
    exact (handleVolumeChange_paused (render s) layer value s (Hq Hp)).
  - now apply (elapse_sound T).
Qed.

Lemma run_sound (T : Z) (events : list Event) :
  forall s, consistent T s -> quiet s ->
    consistent T (run session synth events s) /\ quiet (run session synth events s).
Proof.
  induction events as [|e events IH]; intros s C Hq; [now split|].
  cbn [run fold_left].
  destruct (step_sound T s e C Hq) as [C' Hq']. now apply IH.
Qed.

Lemma mounted_quiet (env : InitOutcome) : quiet (mounted session env).
Proof.
  intros _. unfold mounted, initializeSession, initial_state, commit, all_paused.
  destruct env as [ok mus vo]. cbn [scriptOk music voice].
  destruct ok; cbn [negb];
    [destruct (String.eqb (music_type (layers session)) "mp3"
               && truthy (music_file (layers session))); [destruct mus|];
     destruct vo|];
    cbn; (split; [intros seg a; destruct seg; cbn; try discriminate;
                  now intros [= <-]
                 | intros m; try discriminate; now intros [= <-]]).
Qed.

(** ** The counter never runs ahead of the playing time *)

Lemma timing_progress (s' s : State) : same_progress s' s -> timing s -> timing s'.
Proof.
  intros (A1 & A2 & A3 & A4 & A5 & A6 & A7 & A8) [H1 H2]. unfold timing.
  rewrite A1, A3, A5, A7, A8. now split.
Qed.

Lemma timing_core (s' s : State) : same_core s' s -> timing s -> timing s'.
Proof. intros H. apply timing_progress. now apply same_core_progress. Qed.

Lemma run_timeouts_timing (T : Z) (s : State) :
  consistent T s -> timing s -> timing (run_timeouts synth s).
Proof.
  intros C Ht. unfold run_timeouts.
  destruct (SessionPhase_eqb (phase s) loading) eqn:E.
  - apply SessionPhase_eqb_eq in E.
    pose proof C as (C1 & C2 & C3 & C4). rewrite E in C4.
    destruct C4 as (Hr & Hc & Hu & d & Hd). rewrite Hd.
    cbn [List.filter due].
    destruct (d <=? now s); cbn [negb fold_left callback run_callback].
    + destruct Ht as [H1 _]. split; [exact H1|]. cbn. discriminate.
    + apply timing_progress with s; [repeat split | exact Ht].
  - assert (Hp : phase s <> loading).
    { intros H. rewrite H in E. discriminate. }
    pose proof (consistent_no_setReady T s C Hp) as Hn.
    eapply timing_core.
    + apply fold_callbacks_core; [now apply Forall_filter_keep|].
      cbn. now destruct C as (_ & C2 & _).
    + apply timing_progress with s; [repeat split | exact Ht].
Qed.

Lemma run_interval_timing (T : Z) (s : State) :
  consistent T s -> timing s -> timing (run_interval s).
Proof.
  intros C Ht. unfold run_interval.
  destruct (timerRef s) as [i|] eqn:Ei; [|exact Ht].
  destruct (active i && (next i <=? now s)) eqn:Ea; [|exact Ht].
  apply andb_true_iff in Ea as [Ea Hdue]. apply Z.leb_le in Hdue.
  destruct (active_playing T s i C Ei Ea) as (Hp & Hr & Hu & Hn).
  destruct Ht as [H1 H2]. specialize (H2 Hp i Ei).
  destruct (tick_cases (closure i) s)
    as [(H & T1 & T2 & T3 & T4 & T5 & T6 & T7 & T8 & T9)
       | (H & (T1 & T2 & T3 & T4 & T5 & T6 & T7 & T8 & T9))].
  - assert (Et : timerRef (commit (tick (closure i) s)) = None) by exact T5.
    rewrite Et. unfold timing, commit. cbn. rewrite T1, T3, T9.
    split; [lia | discriminate].
  - cbn in T1, T3, T5, T8, T9.
    assert (Et : timerRef (commit (tick (closure i) s)) = Some i)
      by (unfold commit; cbn; now rewrite T5).
    rewrite Et. unfold timing, commit. cbn. rewrite T3, T8, T9.
    split; [lia|]. intros _ j [= <-]. cbn. lia.
Qed.

Lemma millisecond_timing (T : Z) (s : State) :
  consistent T s -> timing s -> timing (millisecond session synth s).
Proof.
  intros C Ht. unfold millisecond.
  set (s1 := set_now (now s + 1) s).
  set (s2 := if SessionPhase_eqb (phase s1) playing
             then set_ghost_playingMs (ghost_playingMs s1 + 1) s1 else s1).
  assert (C2 : consistent T s2).
  { unfold s2. destruct (SessionPhase_eqb (phase s1) playing); exact C. }
  assert (T2 : timing s2).
  { unfold s2. destruct Ht as [H1 H2].
    destruct (SessionPhase_eqb (phase s1) playing) eqn:E; unfold timing; cbn.
    - split; [lia|]. intros Hp i Hi. specialize (H2 Hp i Hi). lia.
    - split; [exact H1|]. intros Hp. exfalso.
      change (phase s1) with (phase s) in E. rewrite Hp in E. discriminate. }
  assert (C3 : consistent T (progress session seg_closing s2)).
  { apply consistent_core with s2; [|exact C2].
    apply progress_core. now destruct C2 as (_ & H & _). }
  assert (T3 : timing (progress session seg_closing s2)).
  { apply timing_core with s2; [|exact T2].
    apply progress_core. now destruct C2 as (_ & H & _). }
  assert (C4 : consistent T (progress session seg_main (progress session seg_closing s2))).
  { eapply consistent_core; [|exact C3].
    apply progress_core. now destruct C3 as (_ & H & _). }
  assert (T4 : timing (progress session seg_main (progress session seg_closing s2))).
  { eapply timing_core; [|exact T3].
    apply progress_core. now destruct C3 as (_ & H & _). }
  assert (C5 : consistent T (progress session seg_intro
                               (progress session seg_main
                                  (progress session seg_closing s2)))).
  { eapply consistent_core; [|exact C4].
    apply progress_core. now destruct C4 as (_ & H & _). }
  assert (T5 : timing (progress session seg_intro
                         (progress session seg_main
                            (progress session seg_closing s2)))).
  { eapply timing_core; [|exact T4].
    apply progress_core. now destruct C4 as (_ & H & _). }
  apply (run_interval_timing T); [now apply run_timeouts_consistent|].
  now apply (run_timeouts_timing T).
Qed.

Lemma elapse_timing (T : Z) (n : nat) (s : State) :
  consistent T s -> timing s -> timing (elapse session synth n s).
Proof.
  intros C Ht. induction n as [|n IH]; [exact Ht|].
  change (elapse session synth (S n) s)
    with (millisecond session synth (elapse session synth n s)).
  apply (millisecond_timing T); [now apply elapse_consistent | exact IH].
Qed.

Lemma startSession_fields (r : Render) (scriptOk : bool) (s : State) :
  phase (startSession r scriptOk s) = playing
  /\ currentTime (startSession r scriptOk s) = currentTime s
  /\ timerRef (startSession r scriptOk s)
     = Some {| active := true; next := now s + 1000; closure := r |}
  /\ userStats (startSession r scriptOk s) = userStats s
  /\ now (startSession r scriptOk s) = now s
  /\ ghost_playingMs (startSession r scriptOk s) = ghost_playingMs s.
Proof.
  unfold startSession, startTimer.
  destruct (musicAudio s) as [m|] eqn:Em; cbn; rewrite ?Em; cbn;
    destruct (intro (audioElementsRef s)) as [a|] eqn:Ea; cbn; rewrite ?Ea; cbn;
    try destruct scriptOk; repeat split.
Qed.

Lemma resumeSession_clock (r : Render) (s : State) :
  now (resumeSession r s) = now s
  /\ ghost_playingMs (resumeSession r s) = ghost_playingMs s.
Proof.
  unfold resumeSession, startTimer.
  destruct (musicAudio s) as [m|] eqn:Em; cbn; rewrite ?Em; cbn;
    match goal with |- context [find ?p ?e] => destruct (find p e) as [seg|] end; cbn;
    try (destruct (intro (audioElementsRef s)) as [a|] eqn:Ea; cbn; rewrite ?Ea; cbn;
         [destruct (Qeq_bool (Audio.currentTime a) 0); cbn|]);
    split; reflexivity.
Qed.

Lemma step_timing (T : Z) (s : State) (e : Event) :
  consistent T s -> timing s -> timing (step session synth s e).
Proof.
  intros C Ht. destruct e as [scriptOk| | | |layer value|ms]; cbn [step].
  - destruct (SessionPhase_eqb (phase s) ready) eqn:E; [|exact Ht].
    destruct (startSession_fields (render s) scriptOk s) as (S1 & S2 & S3 & S4 & S5 & S6).
    destruct Ht as [H1 H2]. unfold timing, commit.
    cbn [phase currentTime timerRef now ghost_playingMs set_phaseRef].
    rewrite S2, S3, S5, S6. split; [exact H1|].
    intros _ i [= <-]. cbn. lia.
  - destruct (SessionPhase_eqb (phase s) playing) eqn:E; [|exact Ht].
    destruct Ht as [H1 H2]. unfold timing, commit, pauseSession, pauseAll.
    destruct (timerRef s) as [i|] eqn:Ei; cbn; rewrite ?Ei; cbn;
      (split; [exact H1 | discriminate]).
  - destruct (SessionPhase_eqb (phase s) paused) eqn:E; [|exact Ht].
    destruct (resumeSession_fields (render s) s) as (R1 & R2 & R3 & R4 & R5 & R6 & R7).
    destruct (resumeSession_clock (render s) s) as (R8 & R9).
    destruct Ht as [H1 H2]. unfold timing, commit.
    cbn [phase currentTime timerRef now ghost_playingMs set_phaseRef].
    rewrite R3, R5, R8, R9. split; [exact H1|].
    intros _ i [= <-]. cbn. lia.
  - destruct (SessionPhase_eqb (phase s) paused) eqn:E; [|exact Ht].
    destruct Ht as [H1 H2]. unfold timing, commit, stopSession, stopAll, updateUserStats.
    cbn. split; [exact H1 | discriminate].
  - destruct (SessionPhase_eqb (phase s) loading) eqn:E; [exact Ht|].
    pose proof (handleVolumeChange_core (render s) layer value s) as H.
    eapply timing_core; [|exact Ht].
    apply same_core_trans with (handleVolumeChange (render s) layer value s); [|exact H].
    apply commit_core. destruct H as (B1 & B2 & _). rewrite B1, B2.
    now destruct C as (_ & C2 & _).
  - now apply (elapse_timing T).
Qed.

Lemma run_timing (T : Z) (events : list Event) :
  forall s, consistent T s -> timing s -> timing (run session synth events s).
Proof.
  induction events as [|e events IH]; intros s C Ht; [exact Ht|].
  cbn [run fold_left]. apply IH; [now apply step_consistent | now apply (step_timing T)].
Qed.

Lemma mounted_timing (env : InitOutcome) : timing (mounted session env).
Proof.
  unfold mounted, initializeSession, initial_state, commit, timing.
  destruct env as [ok mus vo]. cbn [scriptOk music voice].
  destruct ok; cbn [negb];
    [destruct (String.eqb (music_type (layers session)) "mp3"
               && truthy (music_file (layers session))); [destruct mus|];
     destruct vo|];
    cbn; (split; [lia | discriminate]).
Qed.

(** ** What holds in every state of a mounted player *)

Lemma reachable (env : InitOutcome) (events : list Event) :
  0 <= totalTime (mounted session env) ->
  let s := run session synth events (mounted session env) in
  consistent (totalTime (mounted session env)) s /\ quiet s /\ timing s.
Proof.
  intros H. cbv zeta.
  pose proof (mounted_consistent env H) as C.
  destruct (run_sound _ events _ C (mounted_quiet env)) as [C' Q'].
  split; [exact C'|]. split; [exact Q'|].
  exact (run_timing _ events _ C (mounted_timing env)).
Qed.

(** The elapsed time stays within the total.  In every state a mounted
    player can reach, whatever the user presses and however long they
    wait, the total time is the one fixed by the initialization and the
    elapsed time lies between zero and the total. *)
Theorem elapsed_time_within_total (env : InitOutcome) (events : list Event) :
  0 <= totalTime (mounted session env) ->
  let s := run session synth events (mounted session env) in
  totalTime s = totalTime (mounted session env)
  /\ 0 <= currentTime s <= totalTime s.
Proof.
  intros H. cbv zeta.
  destruct (reachable env events H) as ((C1 & C2 & C3 & C4) & _ & _).
  split; [exact C1|]. rewrite C1. exact C3.
Qed.






(** ** The completed phase is final *)







End Player.

Lemma elapsed_time_within_total_witness :
  0 <= totalTime (mounted sample_session sample_outcome)
  /\ (let s := run sample_session VoiceSynthesis.new_FallbackVoiceSynthesis
                 [Elapse 500; ClickStart true; Elapse 2500;
                  ChangeVolume layer_voice_volume 0.5; ClickPause]
                 (mounted sample_session sample_outcome) in
      totalTime s = totalTime (mounted sample_session sample_outcome)
      /\ 0 <= currentTime s <= totalTime s).
Proof.
  split; [vm_compute; discriminate|].
  apply elapsed_time_within_total. vm_compute. discriminate.
Defined.






End ReachableFacts.

(* ===================================================================== *)
(** * The loading phase, pausing and resuming *)
(* ===================================================================== *)

Module ReadyFacts.
Import JS SessionPlayer Session Reachable PlayerFacts ReachableFacts.

Section Player.

Variable session : SessionConfig.
Variable synth : VoiceSynthesis.Synthesizer.


Lemma millisecond_waiting (s : State) :
  waiting s -> waiting (millisecond session synth s).
Proof.
  intros (Hp & Hr & Ht & Hto & Hc & Ha).
  unfold millisecond.
  set (s1 := set_now (now s + 1) s).
  change (phase s1) with (phase s). rewrite Hp. cbn [SessionPhase_eqb].
  assert (Ha1 : all_paused s1) by exact Ha.
  rewrite !(progress_paused session _ s1 Ha1).
  unfold run_timeouts. change (timeouts s1) with (timeouts s). rewrite Hto.
  cbn [List.filter fold_left].
  subst s1. unfold run_interval, waiting. cbn. rewrite Ht. cbn.
  split; [exact Hp|]. split; [exact Hr|]. split; [exact Ht|].
  split; [reflexivity|]. split; [exact Hc | exact Ha].
Qed.

Lemma elapse_waiting (n : nat) (s : State) :
  waiting s -> waiting (elapse session synth n s).
Proof.
  intros H. induction n as [|n IH]; [exact H|].
  change (elapse session synth (S n) s)
    with (millisecond session synth (elapse session synth n s)).
  now apply millisecond_waiting.
Qed.






(** ** Pausing and resuming *)
















End Player.



End ReadyFacts.

(* ===================================================================== *)
(** * What the timer shows *)
(* ===================================================================== *)

Module DisplayFacts.
Import JS SessionPlayer Template TemplateFacts PlayerFacts.

Lemma toString_inj (a b : Z) : toString a = toString b -> a = b.
Proof.
  unfold toString. intros H. apply to_int_inj.
  assert (Hn : forall n, Z.to_int n <> Decimal.Pos Decimal.Nil
                         /\ Z.to_int n <> Decimal.Neg Decimal.Nil).
  { intros [|p|p]; cbn; split; try discriminate;
      intros [= E]; exact (Unsigned.to_uint_nonnil p E). }
  pose proof (NilZero.isi (Z.to_int a) (proj1 (Hn a)) (proj2 (Hn a))) as Ha.
  pose proof (NilZero.isi (Z.to_int b) (proj1 (Hn b)) (proj2 (Hn b))) as Hb.
  rewrite H in Ha. congruence.
Qed.

(** The seconds of a minute on two digits. *)
Lemma padStart_seconds (x : Z) :
  0 <= x < 60 ->
  padStart (toString x) 2 "0"
  = String (ascii_of_nat (48 + Z.to_nat (x / 10)))
      (String (ascii_of_nat (48 + Z.to_nat (x mod 10))) "").
Proof.
  intros H.
  assert (E : exists n : nat, (n < 60)%nat /\ x = Z.of_nat n)
    by (exists (Z.to_nat x); lia).
  destruct E as (n & Hn & ->). clear H.
  do 60 (destruct n as [|n]; [reflexivity|]). lia.
Qed.

Lemma digit_inj (a b : nat) :
  (a < 10)%nat -> (b < 10)%nat ->
  ascii_of_nat (48 + a) = ascii_of_nat (48 + b) -> a = b.
Proof.
  intros Ha Hb H. apply (f_equal nat_of_ascii) in H.
  rewrite !nat_ascii_embedding in H by lia. lia.
Qed.

Lemma split_at_colon (x x' y y' : string) :
  contains_char ":" x = false -> contains_char ":" x' = false ->
  x +:+ String ":" y = x' +:+ String ":" y' -> x = x' /\ y = y'.
Proof.
  revert x'. induction x as [|c x IH]; intros [|c' x'] Hx Hx' H.
  - cbn in H. injection H as ->. now split.
  - exfalso. rewrite append_cons in H. cbn in H, Hx'. injection H as <- _.
    discriminate.
  - exfalso. rewrite append_cons in H. cbn in H, Hx. injection H as -> _.
    discriminate.
  - rewrite !append_cons in H. injection H as -> H.
    cbn in Hx, Hx'. apply orb_false_iff in Hx as [_ Hx].
    apply orb_false_iff in Hx' as [_ Hx'].
    destruct (IH x' Hx Hx' H) as [-> ->]. now split.
Qed.

Lemma formatTime_unfold (seconds : Z) :
  0 <= seconds ->
  formatTime seconds
  = toString (seconds / 60)
    +:+ String ":" (String (ascii_of_nat (48 + Z.to_nat (seconds mod 60 / 10)))
                      (String (ascii_of_nat (48 + Z.to_nat (seconds mod 60 mod 10))) "")).
Proof.
  intros H. unfold formatTime. rewrite floor_minutes.
  rewrite Z.rem_mod_nonneg by lia.
  rewrite padStart_seconds by (apply Z.mod_pos_bound; lia).
  reflexivity.
Qed.

(** How formatTime shows a time.  For a whole number of seconds that is
    not negative the text is the minutes, a colon and the seconds of the
    minute on exactly two digits, and two different times never give the
    same text. *)
Theorem formatTime_two_digits (a b : Z) :
  0 <= a -> 0 <= b ->
  (exists seconds,
      formatTime a = toString (a / 60) +:+ ":" +:+ seconds
      /\ seconds = padStart (toString (a mod 60)) 2 "0"
      /\ String.length seconds = 2%nat)
  /\ (formatTime a = formatTime b -> a = b).
Proof.
  intros Ha Hb. split.
  - exists (padStart (toString (a mod 60)) 2 "0").
    split; [|split; [reflexivity|]].
    + unfold formatTime. rewrite floor_minutes. now rewrite Z.rem_mod_nonneg by lia.
    + rewrite padStart_seconds by (apply Z.mod_pos_bound; lia). reflexivity.
  - rewrite !formatTime_unfold by assumption. intros H.
    apply split_at_colon in H as [Hm Hs];
      try (apply toString_chars; reflexivity).
    apply toString_inj in Hm. injection Hs as H1 H0.
    pose proof (Z.mod_pos_bound a 60 ltac:(lia)) as Ba.
    pose proof (Z.mod_pos_bound b 60 ltac:(lia)) as Bb.
    apply digit_inj in H1;
      [|apply Nat2Z.inj_lt; rewrite Z2Nat.id by (apply Z.div_pos; lia);
        change (Z.of_nat 10) with 10; apply Z.div_lt_upper_bound; lia ..].
    apply digit_inj in H0;
      [|apply Nat2Z.inj_lt; rewrite Z2Nat.id by (apply Z.mod_pos_bound; lia);
        change (Z.of_nat 10) with 10; apply Z.mod_pos_bound; lia ..].
    apply Z2Nat.inj in H1; [|apply Z.div_pos; lia ..].
    apply Z2Nat.inj in H0; [|apply Z.mod_pos_bound; lia ..].
    assert (Hs : a mod 60 = b mod 60).
    { rewrite (Z.div_mod (a mod 60) 10), (Z.div_mod (b mod 60) 10) by lia.
      now rewrite H1, H0. }
    rewrite (Z.div_mod a 60), (Z.div_mod b 60) by lia. now rewrite Hm, Hs.
Qed.

Lemma formatTime_two_digits_witness :
  0 <= 65 /\ 0 <= 125
  /\ formatTime 65 = "1:05"
  /\ (formatTime 65 = formatTime 125 -> 65 = 125).
Proof.
  assert (Ha : 0 <= 65) by lia. assert (Hb : 0 <= 125) by lia.
  split; [exact Ha|]. split; [exact Hb|].
  destruct (formatTime_two_digits 65 125 Ha Hb) as [(seconds & H1 & H2 & _) H3].
  split; [|exact H3]. rewrite H1, H2. reflexivity.
Defined.

End DisplayFacts.
